(** * Trek Tribe: the notification pipeline

    A shallow embedding of the notification service
    (utils/notificationService.ts), the notification routes
    (routes/notifications.ts) and the trip routes that trigger
    notifications (routes/trips.ts), over an explicit model of the three
    MongoDB collections they touch.

    Asynchronous code is written in a state-and-exception monad: every
    awaited I/O call (a database query, an SMTP send) is one step that
    either succeeds or throws, as decided by a fault oracle that is part
    of the environment.  The creates started under a [Promise.all]
    settle one after another in list order; when one rejects,
    [Promise.all] rejects at once and the creates after it stay in
    flight: the world records them, and they run to their end later
    ([settle]), keeping their effects whatever the others did. *)

From Stdlib Require Import String Ascii List Bool Arith ZArith Lia DecimalString.
Import ListNotations.
Local Open Scope string_scope.
Local Open Scope nat_scope.

Set Implicit Arguments.
Set Warnings "-register-all".

(** ** Data model *)

(** A BSON ObjectId, as an abstract number. *)
Definition ObjectId := nat.

(** models/Notification.ts: [NotificationType]. *)
Inductive NotificationType :=
| trip_join | trip_leave | trip_update | trip_delete | trip_reminder | system.

(** JSON values, for the [data] payload's free keys and for response
    bodies. *)
Inductive Json :=
| JNull
| JBool (b : bool)
| JNum (z : Z)
| JStr (s : string)
| JId (o : ObjectId)
| JArr (l : list Json)
| JObj (fields : list (string * Json)).

Fixpoint json_field (k : string) (fields : list (string * Json)) : option Json :=
  match fields with
  | [] => None
  | (k', v) :: rest => if String.eqb k k' then Some v else json_field k rest
  end.

(** The [data] object of a notification: four typed optional keys and
    any number of free ones ([[key: string]: any]). *)
Record NotificationPayload := {
  tripId : option ObjectId;
  actorId : option ObjectId;
  actorName : option string;
  tripTitle : option string;
  extra : list (string * Json)
}.

Definition empty_payload : NotificationPayload :=
  {| tripId := None; actorId := None; actorName := None; tripTitle := None;
     extra := [] |}.

(** models/Notification.ts: [NotificationDocument]. *)
Record Notification := {
  _id : ObjectId;
  userId : ObjectId;
  type : NotificationType;
  title : string;
  message : string;
  data : NotificationPayload;
  read : bool;
  emailSent : bool;
  createdAt : nat;
  updatedAt : nat
}.

(** notificationService.ts: [NotificationData], the argument of
    [createNotification].  [nd_data] and [nd_sendEmail] are optional in
    the source. *)
Record NotificationData := {
  nd_userId : ObjectId;
  nd_type : NotificationType;
  nd_title : string;
  nd_message : string;
  nd_data : option NotificationPayload;
  nd_sendEmail : option bool
}.

(** The fields of models/User.ts and models/Trip.ts that the pipeline
    reads. *)
Record User := {
  user_id : ObjectId;
  user_name : string;
  user_email : string
}.

Record Trip := {
  trip_id : ObjectId;
  trip_organizerId : ObjectId;
  trip_title : string;
  trip_capacity : nat;
  trip_participants : list ObjectId
}.

(** What [emit('new_notification', ...)] pushes to the room
    [user_<userId>]. *)
Record SocketEvent := {
  ev_room : ObjectId;
  ev_id : ObjectId;
  ev_type : NotificationType;
  ev_title : string;
  ev_message : string;
  ev_data : NotificationPayload;
  ev_createdAt : nat
}.

(** The HTML of [generateEmailContent], kept as its three variable
    parts: the heading, the paragraph and the trip of the optional
    "View Trip" link. *)
Record EmailContent := {
  ec_heading : string;
  ec_paragraph : string;
  ec_viewTrip : option ObjectId
}.

Record Mail := {
  mail_to : string;
  mail_subject : string;
  mail_html : EmailContent
}.

(** ** The world and its environment *)

(** Awaited I/O calls, by kind. *)
Inductive IoOp :=
| OpNotificationCreate
| OpNotificationFind
| OpNotificationCount
| OpNotificationUpdate
| OpNotificationDelete
| OpUserFind
| OpTripFind
| OpTripSave
| OpTripDelete
| OpSendMail.

Inductive Error :=
| StoreFailure (op : IoOp)
| ValidationError (path : string)
| InvalidId (msg : string)
| BadValue (msg : string)
| TypeError (msg : string).

Definition error_message (e : Error) : string :=
  match e with
  | StoreFailure OpSendMail => "mail transport failure"
  | StoreFailure _ => "database operation failed"
  | ValidationError path =>
      "Notification validation failed: " ++ path ++ " is required"
  | InvalidId msg => msg
  | BadValue msg => msg
  | TypeError msg => msg
  end.

(** Mutable state: the three collections, the ObjectId allocator, the
    number of I/O calls issued so far, what has left the process
    (socket pushes, mails, [console.error] lines), and the
    [createNotification] calls that were started under a [Promise.all]
    which has rejected since, and that are still running ([in_flight],
    by their argument). *)
Record World := {
  notifications : list Notification;
  trips : list Trip;
  users : list User;
  nextId : ObjectId;
  ticks : nat;
  emitted : list SocketEvent;
  outbox : list Mail;
  console : list string;
  in_flight : list NotificationData
}.

(** What the code cannot control: configuration, the ObjectId parser of
    the bson library, the wall clock, and which I/O calls fail
    ([fails op t]: the call of kind [op] issued as the [t]-th I/O call
    throws). *)
Record Env := {
  emailTransporter : bool;
  socketIO : bool;
  production : bool;
  parseObjectId : string -> option ObjectId;
  clock : nat -> nat;
  fails : IoOp -> nat -> bool
}.

(** ** The monad of asynchronous code *)

Inductive Outcome (A : Type) :=
| Ok (a : A)
| Throw (e : Error).
Arguments Ok {A} a.
Arguments Throw {A} e.

Definition M (A : Type) := World -> Outcome A * World.

Definition ret {A} (a : A) : M A := fun w => (Ok a, w).

Definition throw {A} (e : Error) : M A := fun w => (Throw e, w).

Definition bind {A B} (c : M A) (k : A -> M B) : M B :=
  fun w =>
    match c w with
    | (Ok a, w') => k a w'
    | (Throw e, w') => (Throw e, w')
    end.

(** [try { c } catch (error) { h error }]: effects of [c] before the
    throw are kept. *)
Definition try_catch {A} (c : M A) (h : Error -> M A) : M A :=
  fun w =>
    match c w with
    | (Ok a, w') => (Ok a, w')
    | (Throw e, w') => h e w'
    end.

Declare Scope async_scope.
Delimit Scope async_scope with async.
Notation "x <- c ;; k" := (bind c (fun x => k))
  (at level 100, c at next level, right associativity) : async_scope.
Notation "c ;; k" := (bind c (fun _ => k))
  (at level 100, right associativity) : async_scope.
Local Open Scope async_scope.

Definition get : M World := fun w => (Ok w, w).

Definition modify (f : World -> World) : M unit := fun w => (Ok tt, f w).

Definition set_notifications (l : list Notification) (w : World) : World :=
  {| notifications := l; trips := trips w; users := users w;
     nextId := nextId w; ticks := ticks w; emitted := emitted w;
     outbox := outbox w; console := console w;
     in_flight := in_flight w |}.

Definition set_trips (l : list Trip) (w : World) : World :=
  {| notifications := notifications w; trips := l; users := users w;
     nextId := nextId w; ticks := ticks w; emitted := emitted w;
     outbox := outbox w; console := console w;
     in_flight := in_flight w |}.

Definition set_nextId (i : ObjectId) (w : World) : World :=
  {| notifications := notifications w; trips := trips w; users := users w;
     nextId := i; ticks := ticks w; emitted := emitted w;
     outbox := outbox w; console := console w;
     in_flight := in_flight w |}.

Definition tick (w : World) : World :=
  {| notifications := notifications w; trips := trips w; users := users w;
     nextId := nextId w; ticks := S (ticks w); emitted := emitted w;
     outbox := outbox w; console := console w;
     in_flight := in_flight w |}.

Definition push_emitted (e : SocketEvent) (w : World) : World :=
  {| notifications := notifications w; trips := trips w; users := users w;
     nextId := nextId w; ticks := ticks w; emitted := emitted w ++ [e];
     outbox := outbox w; console := console w;
     in_flight := in_flight w |}.

Definition push_outbox (m : Mail) (w : World) : World :=
  {| notifications := notifications w; trips := trips w; users := users w;
     nextId := nextId w; ticks := ticks w; emitted := emitted w;
     outbox := outbox w ++ [m]; console := console w;
     in_flight := in_flight w |}.

Definition push_console (s : string) (w : World) : World :=
  {| notifications := notifications w; trips := trips w; users := users w;
     nextId := nextId w; ticks := ticks w; emitted := emitted w;
     outbox := outbox w; console := console w ++ [s];
     in_flight := in_flight w |}.

Definition set_in_flight (l : list NotificationData) (w : World) : World :=
  {| notifications := notifications w; trips := trips w; users := users w;
     nextId := nextId w; ticks := ticks w; emitted := emitted w;
     outbox := outbox w; console := console w; in_flight := l |}.

(** [console.error(prefix, error)]. *)
Definition console_error (prefix : string) (e : Error) : M unit :=
  modify (push_console (prefix ++ " " ++ error_message e)).

(** One awaited I/O call: it consumes a tick, and throws when the oracle
    says so. *)
Definition io (env : Env) (op : IoOp) : M unit :=
  fun w =>
    if fails env op (ticks w) then (Throw (StoreFailure op), tick w)
    else (Ok tt, tick w).

Definition when (b : bool) (c : M unit) : M unit :=
  if b then c else ret tt.

(** ** The collections (what Mongoose does) *)

Definition dquote : string := String "034"%char EmptyString.

Definition string_of_nat (n : nat) : string :=
  NilEmpty.string_of_uint (Nat.to_uint n).

(** Mongoose's [required: true] on a String path rejects the empty
    string. *)
Definition required (s : string) : bool := negb (String.eqb s "").

Fixpoint update_first {A} (p : A -> bool) (f : A -> A) (l : list A) : list A :=
  match l with
  | [] => []
  | a :: rest => if p a then f a :: rest else a :: update_first p f rest
  end.

Fixpoint remove_first {A} (p : A -> bool) (l : list A) : list A :=
  match l with
  | [] => []
  | a :: rest => if p a then rest else a :: remove_first p rest
  end.

Definition mark_read_at (t : nat) (n : Notification) : Notification :=
  {| _id := _id n; userId := userId n; type := type n; title := title n;
     message := message n; data := data n; read := true;
     emailSent := emailSent n; createdAt := createdAt n; updatedAt := t |}.

Definition mark_emailSent_at (t : nat) (n : Notification) : Notification :=
  {| _id := _id n; userId := userId n; type := type n; title := title n;
     message := message n; data := data n; read := read n;
     emailSent := true; createdAt := createdAt n; updatedAt := t |}.

Section Collections.

Variable env : Env.

(** [Notification.create({...})]: schema validation, then the insert.
    The schema's [{ timestamps: true }] stamps both dates. *)
Definition Notification_create
    (uid : ObjectId) (ty : NotificationType) (ttl msg : string)
    (payload : NotificationPayload) (rd es : bool) : M Notification :=
  if negb (required ttl) then throw (ValidationError "title")
  else if negb (required msg) then throw (ValidationError "message")
  else
    io env OpNotificationCreate ;;
    w <- get ;;
    let n := {| _id := nextId w; userId := uid; type := ty; title := ttl;
                message := msg; data := payload; read := rd;
                emailSent := es; createdAt := clock env (ticks w);
                updatedAt := clock env (ticks w) |} in
    modify (fun w => set_nextId (S (nextId w))
                       (set_notifications (notifications w ++ [n]) w)) ;;
    ret n.

(** [Notification.find(q)]. *)
Definition Notification_find (q : Notification -> bool)
  : M (list Notification) :=
  io env OpNotificationFind ;;
  w <- get ;;
  ret (filter q (notifications w)).

(** [Notification.findOne(q)]. *)
Definition Notification_findOne (q : Notification -> bool)
  : M (option Notification) :=
  io env OpNotificationFind ;;
  w <- get ;;
  ret (find q (notifications w)).

(** [Notification.countDocuments(q)]. *)
Definition Notification_countDocuments (q : Notification -> bool) : M nat :=
  io env OpNotificationCount ;;
  w <- get ;;
  ret (length (filter q (notifications w))).

(** [Notification.updateMany(q, { read: true })]; the value is the
    result's [modifiedCount], the number of matched documents the
    update changed. *)
Definition Notification_updateMany_read (q : Notification -> bool) : M nat :=
  io env OpNotificationUpdate ;;
  w <- get ;;
  let t := clock env (ticks w) in
  let changed n := q n && (negb (read n) || negb (updatedAt n =? t)) in
  modify (set_notifications
            (map (fun n => if q n then mark_read_at t n else n)
                 (notifications w))) ;;
  ret (length (filter changed (notifications w))).

(** [Notification.findByIdAndUpdate(id, { emailSent: true })]. *)
Definition Notification_findByIdAndUpdate_emailSent (id : ObjectId) : M unit :=
  io env OpNotificationUpdate ;;
  w <- get ;;
  modify (set_notifications
            (update_first (fun n => _id n =? id)
                          (mark_emailSent_at (clock env (ticks w)))
                          (notifications w))).

(** [Notification.findByIdAndDelete(id)]. *)
Definition Notification_findByIdAndDelete (id : ObjectId) : M unit :=
  io env OpNotificationDelete ;;
  w <- get ;;
  modify (set_notifications
            (remove_first (fun n => _id n =? id) (notifications w))).

(** [User.findById(id)]. *)
Definition User_findById (id : ObjectId) : M (option User) :=
  io env OpUserFind ;;
  w <- get ;;
  ret (find (fun u => user_id u =? id) (users w)).

(** [Trip.findById(id).populate('organizerId', ...)]: the trip, with the
    organizer's document in place of [organizerId] ([None] is the
    [null] Mongoose leaves when that user is gone). *)
Definition Trip_findById_populate (id : ObjectId)
  : M (option (Trip * option User)) :=
  io env OpTripFind ;;
  w <- get ;;
  ret (match find (fun t => trip_id t =? id) (trips w) with
       | None => None
       | Some t =>
           Some (t, find (fun u => user_id u =? trip_organizerId t) (users w))
       end).

(** [trip.save()]. *)
Definition Trip_save (t : Trip) : M unit :=
  io env OpTripSave ;;
  w <- get ;;
  modify (set_trips
            (update_first (fun t' => trip_id t' =? trip_id t) (fun _ => t)
                          (trips w))).

(** [Trip.findByIdAndDelete(id)]. *)
Definition Trip_findByIdAndDelete (id : ObjectId) : M unit :=
  io env OpTripDelete ;;
  w <- get ;;
  modify (set_trips (remove_first (fun t => trip_id t =? id) (trips w))).

(** [this.emailTransporter.sendMail(m)]. *)
Definition sendMail (m : Mail) : M unit :=
  io env OpSendMail ;;
  modify (push_outbox m).

End Collections.

(** [find(q).sort({ createdAt: -1 })]: newest first; documents with
    equal dates keep their stored order. *)
Fixpoint insert_desc (n : Notification) (l : list Notification)
  : list Notification :=
  match l with
  | [] => [n]
  | m :: rest =>
      if createdAt m <? createdAt n then n :: l else m :: insert_desc n rest
  end.

Definition sort_createdAt_desc (l : list Notification) : list Notification :=
  fold_right insert_desc [] l.

(** [.skip(s).limit(l)] on a sorted cursor.  A limit of 0 is no limit;
    the driver sends a negative limit as its absolute value; the server
    rejects a negative skip. *)
Definition skip_limit (s l : Z) (docs : list Notification)
  : list Notification :=
  let rest := skipn (Z.to_nat s) docs in
  if (l =? 0)%Z then rest else firstn (Z.abs_nat l) rest.

Definition Notification_find_page (env : Env) (q : Notification -> bool)
    (s l : Z) : M (list Notification) :=
  io env OpNotificationFind ;;
  if (s <? 0)%Z then throw (BadValue "Skip value must be non-negative")
  else
    w <- get ;;
    ret (skip_limit s l (sort_createdAt_desc (filter q (notifications w)))).

(** [Math.ceil(total / limit)] on integers; [None] stands for the
    non-finite results of a division by zero ([Infinity], [NaN]). *)
Definition math_ceil_div (total_ : nat) (limit : Z) : option Z :=
  if (limit =? 0)%Z then None
  else Some (- ((- Z.of_nat total_) / limit))%Z.

(** The object [getUserNotifications] returns. *)
Record Pagination := {
  pg_page : Z;
  pg_limit : Z;
  pg_total : nat;
  pg_pages : option Z
}.

Record NotificationPage := {
  np_notifications : list Notification;
  np_pagination : Pagination;
  np_unreadCount : nat
}.

(** ** utils/notificationService.ts *)

Definition isTrue (o : option bool) : bool :=
  match o with Some true => true | _ => false end.

Definition socket_payload (n : Notification) : SocketEvent :=
  {| ev_room := userId n; ev_id := _id n; ev_type := type n;
     ev_title := title n; ev_message := message n; ev_data := data n;
     ev_createdAt := createdAt n |}.

Definition generateEmailContent (n : Notification) : EmailContent :=
  {| ec_heading := title n; ec_paragraph := message n;
     ec_viewTrip := tripId (data n) |}.

Section NotificationService.

Variable env : Env.

Definition sendEmailNotification (notification : Notification) : M unit :=
  try_catch
    (user <- User_findById env (userId notification) ;;
     match user with
     | None => ret tt
     | Some u =>
         let emailContent := generateEmailContent notification in
         sendMail env {| mail_to := user_email u;
                         mail_subject := title notification;
                         mail_html := emailContent |} ;;
         Notification_findByIdAndUpdate_emailSent env (_id notification)
     end)
    (fun error => console_error "Error sending email notification:" error).

Definition createNotification (notificationData : NotificationData)
  : M Notification :=
  try_catch
    (notification <-
       Notification_create env
         (nd_userId notificationData) (nd_type notificationData)
         (nd_title notificationData) (nd_message notificationData)
         (match nd_data notificationData with
          | Some d => d
          | None => empty_payload
          end)
         false false ;;
     when (socketIO env)
          (modify (push_emitted (socket_payload notification))) ;;
     when (isTrue (nd_sendEmail notificationData) && emailTransporter env)
          (sendEmailNotification notification) ;;
     ret notification)
    (fun error =>
       console_error "Error creating notification:" error ;;
       throw error).

(** [await Promise.all(notifications.map(notificationData =>
    this.createNotification(notificationData)))].  The [map] starts
    every create, and the creates settle in list order.  [Promise.all]
    fulfils with the documents once every create has fulfilled; it
    rejects as soon as one create rejects, and the creates after that
    one are then still in flight: the caller goes on without them, and
    they run to their end later ([settle]). *)
Fixpoint Promise_all_createNotification
    (notifications_ : list NotificationData) : M (list Notification) :=
  match notifications_ with
  | [] => ret []
  | notificationData :: rest =>
      fun w =>
        match createNotification notificationData w with
        | (Ok n, w1) =>
            match Promise_all_createNotification rest w1 with
            | (Ok l, w2) => (Ok (n :: l), w2)
            | (Throw e, w2) => (Throw e, w2)
            end
        | (Throw e, w1) => (Throw e, set_in_flight (in_flight w1 ++ rest) w1)
        end
  end.

(** Creates that nobody awaits any more run to their end, one after
    another; a rejection goes nowhere (the create has logged it). *)
Fixpoint run_in_flight (ds : list NotificationData) (w : World) : World :=
  match ds with
  | [] => w
  | d :: rest => run_in_flight rest (snd (createNotification d w))
  end.

(** The creates in flight settle. *)
Definition settle (w : World) : World :=
  run_in_flight (in_flight w) (set_in_flight [] w).

Definition join_message (travelerName : string) (t : Trip) : string :=
  travelerName ++ " has joined your trip " ++ dquote ++ trip_title t
    ++ dquote ++ ". You now have "
    ++ string_of_nat (length (trip_participants t)) ++ " participants.".

Definition leave_message (travelerName : string) (t : Trip) : string :=
  travelerName ++ " has left your trip " ++ dquote ++ trip_title t
    ++ dquote ++ ". You now have "
    ++ string_of_nat (length (trip_participants t)) ++ " participants.".

(** The [try] block of [notifyTripJoin]. *)
Definition notifyTripJoin_try (tripId_ : ObjectId) (travelerName : string)
    (travelerId : ObjectId) : M unit :=
  found <- Trip_findById_populate env tripId_ ;;
  match found with
  | None => ret tt
  | Some (_, None) =>
      throw (TypeError "Cannot read properties of null (reading '_id')")
  | Some (trip, Some organizer) =>
      createNotification
        {| nd_userId := user_id organizer;
            nd_type := trip_join;
            nd_title := "New Traveler Joined Your Trip";
            nd_message := join_message travelerName trip;
            nd_data := Some {| tripId := Some (trip_id trip);
                              actorId := Some travelerId;
                              actorName := Some travelerName;
                              tripTitle := Some (trip_title trip);
                              extra := [] |};
            nd_sendEmail := Some true |} ;;
      ret tt
  end.

Definition notifyTripJoin (tripId_ : ObjectId) (travelerName : string)
    (travelerId : ObjectId) : M unit :=
  try_catch
    (notifyTripJoin_try tripId_ travelerName travelerId)
    (fun error => console_error "Error notifying trip join:" error).

(** The [try] block of [notifyTripLeave]. *)
Definition notifyTripLeave_try (tripId_ : ObjectId) (travelerName : string)
    (travelerId : ObjectId) : M unit :=
  found <- Trip_findById_populate env tripId_ ;;
  match found with
  | None => ret tt
  | Some (_, None) =>
      throw (TypeError "Cannot read properties of null (reading '_id')")
  | Some (trip, Some organizer) =>
      createNotification
        {| nd_userId := user_id organizer;
            nd_type := trip_leave;
            nd_title := "Traveler Left Your Trip";
            nd_message := leave_message travelerName trip;
            nd_data := Some {| tripId := Some (trip_id trip);
                              actorId := Some travelerId;
                              actorName := Some travelerName;
                              tripTitle := Some (trip_title trip);
                              extra := [] |};
            nd_sendEmail := Some true |} ;;
      ret tt
  end.

Definition notifyTripLeave (tripId_ : ObjectId) (travelerName : string)
    (travelerId : ObjectId) : M unit :=
  try_catch
    (notifyTripLeave_try tripId_ travelerName travelerId)
    (fun error => console_error "Error notifying trip leave:" error).

Definition deleted_message (tripTitle_ organizerName : string) : string :=
  "The trip " ++ dquote ++ tripTitle_ ++ dquote
    ++ " has been cancelled by the organizer " ++ organizerName
    ++ ". We apologize for any inconvenience.".

Definition deleted_notification (tripId_ : ObjectId)
    (tripTitle_ organizerName : string) (participantId : ObjectId)
  : NotificationData :=
  {| nd_userId := participantId;
     nd_type := trip_delete;
     nd_title := "Trip Cancelled";
     nd_message := deleted_message tripTitle_ organizerName;
     nd_data := Some {| tripId := Some tripId_;
                        actorId := None;
                        actorName := Some organizerName;
                        tripTitle := Some tripTitle_;
                        extra := [] |};
     nd_sendEmail := Some true |}.

(** The [try] block of [notifyTripDeleted]. *)
Definition notifyTripDeleted_try (tripId_ : ObjectId) (tripTitle_ : string)
    (participantIds : list ObjectId) (organizerName : string) : M unit :=
  let notifications_ :=
    map (deleted_notification tripId_ tripTitle_ organizerName)
        participantIds in
  Promise_all_createNotification notifications_ ;;
  ret tt.

Definition notifyTripDeleted (tripId_ : ObjectId) (tripTitle_ : string)
    (participantIds : list ObjectId) (organizerName : string) : M unit :=
  try_catch
    (notifyTripDeleted_try tripId_ tripTitle_ participantIds organizerName)
    (fun error => console_error "Error notifying trip deletion:" error).

(** [changes.join(', ')]. *)
Fixpoint join_comma (l : list string) : string :=
  match l with
  | [] => ""
  | [s] => s
  | s :: rest => s ++ ", " ++ join_comma rest
  end.

Definition update_message (tripTitle_ organizerName : string)
    (changes : list string) : string :=
  "The trip " ++ dquote ++ tripTitle_ ++ dquote ++ " has been updated by "
    ++ organizerName ++ ". Changes: " ++ join_comma changes.

Definition update_notification (tripId_ : ObjectId)
    (tripTitle_ organizerName : string) (changes : list string)
    (participantId : ObjectId) : NotificationData :=
  {| nd_userId := participantId;
     nd_type := trip_update;
     nd_title := "Trip Updated";
     nd_message := update_message tripTitle_ organizerName changes;
     nd_data := Some {| tripId := Some tripId_;
                        actorId := None;
                        actorName := Some organizerName;
                        tripTitle := Some tripTitle_;
                        extra := [("changes", JArr (map JStr changes))] |};
     nd_sendEmail := Some false |}.

(** The [try] block of [notifyTripUpdate]. *)
Definition notifyTripUpdate_try (tripId_ : ObjectId) (tripTitle_ : string)
    (participantIds : list ObjectId) (organizerName : string)
    (changes : list string) : M unit :=
  let notifications_ :=
    map (update_notification tripId_ tripTitle_ organizerName changes)
        participantIds in
  Promise_all_createNotification notifications_ ;;
  ret tt.

Definition notifyTripUpdate (tripId_ : ObjectId) (tripTitle_ : string)
    (participantIds : list ObjectId) (organizerName : string)
    (changes : list string) : M unit :=
  try_catch
    (notifyTripUpdate_try tripId_ tripTitle_ participantIds organizerName changes)
    (fun error => console_error "Error notifying trip update:" error).

Definition unread_of (uid : ObjectId) (n : Notification) : bool :=
  (userId n =? uid) && negb (read n).

Definition getUnreadCount (uid : ObjectId) : M nat :=
  Notification_countDocuments env (unread_of uid).

Definition id_in (ids : list ObjectId) (n : Notification) : bool :=
  existsb (Nat.eqb (_id n)) ids.

Definition markAsRead (notificationIds : list ObjectId) : M unit :=
  Notification_updateMany_read env (id_in notificationIds) ;;
  ret tt.

Definition owned_by (uid : ObjectId) (n : Notification) : bool :=
  userId n =? uid.

Definition getUserNotifications (uid : ObjectId) (page limit : Z)
  : M NotificationPage :=
  let skip := ((page - 1) * limit)%Z in
  notifications_ <- Notification_find_page env (owned_by uid) skip limit ;;
  total_ <- Notification_countDocuments env (owned_by uid) ;;
  unreadCount_ <- getUnreadCount uid ;;
  ret {| np_notifications := notifications_;
         np_pagination := {| pg_page := page; pg_limit := limit;
                             pg_total := total_;
                             pg_pages := math_ceil_div total_ limit |};
         np_unreadCount := unreadCount_ |}.

End NotificationService.

(** ** HTTP responses *)

Record Response := {
  status : nat;
  body : Json
}.

(** [res.json(b)]. *)
Definition json (b : Json) : Response := {| status := 200; body := b |}.

(** [res.status(code).json(b)]. *)
Definition status_json (code : nat) (b : Json) : Response :=
  {| status := code; body := b |}.

Definition type_name (t : NotificationType) : string :=
  match t with
  | trip_join => "trip_join"
  | trip_leave => "trip_leave"
  | trip_update => "trip_update"
  | trip_delete => "trip_delete"
  | trip_reminder => "trip_reminder"
  | system => "system"
  end.

Definition opt_field {A} (k : string) (f : A -> Json) (o : option A)
  : list (string * Json) :=
  match o with
  | Some a => [(k, f a)]
  | None => []
  end.

Definition payload_json (d : NotificationPayload) : Json :=
  JObj (opt_field "tripId" JId (tripId d)
        ++ opt_field "actorId" JId (actorId d)
        ++ opt_field "actorName" JStr (actorName d)
        ++ opt_field "tripTitle" JStr (tripTitle d)
        ++ extra d).

(** A lean notification document as JSON (dates as clock readings). *)
Definition notification_json (n : Notification) : Json :=
  JObj [("_id", JId (_id n)); ("userId", JId (userId n));
        ("type", JStr (type_name (type n))); ("title", JStr (title n));
        ("message", JStr (message n)); ("data", payload_json (data n));
        ("read", JBool (read n)); ("emailSent", JBool (emailSent n));
        ("createdAt", JNum (Z.of_nat (createdAt n)));
        ("updatedAt", JNum (Z.of_nat (updatedAt n)))].

(** [JSON.stringify] writes a non-finite number as [null]. *)
Definition pagination_fields (p : Pagination) : list (string * Json) :=
  [("page", JNum (pg_page p)); ("limit", JNum (pg_limit p));
   ("total", JNum (Z.of_nat (pg_total p)));
   ("pages", match pg_pages p with Some z => JNum z | None => JNull end)].

Definition page_fields (r : NotificationPage) : list (string * Json) :=
  [("notifications", JArr (map notification_json (np_notifications r)));
   ("pagination", JObj (pagination_fields (np_pagination r)));
   ("unreadCount", JNum (Z.of_nat (np_unreadCount r)))].

(** ** routes/notifications.ts

    Each handler is the function the router registers; it runs after
    [authenticateJwt], which supplies [req.auth.userId] (taken here as an
    ObjectId already). *)

Section NotificationRoutes.

Variable env : Env.

(** [parseInt(x) || dflt], with [None] for [NaN]. *)
Definition or_default (x : option Z) (dflt : Z) : Z :=
  match x with
  | None => dflt
  | Some 0%Z => dflt
  | Some z => z
  end.

Definition route_get_notifications (authUserId : ObjectId)
    (query_page query_limit : option Z) : M Response :=
  try_catch
    (let page := or_default query_page 1 in
     let limit := or_default query_limit 20 in
     result <- getUserNotifications env authUserId page limit ;;
     ret (json (JObj (("success", JBool true) :: page_fields result))))
    (fun error =>
       console_error "Error fetching notifications:" error ;;
       ret (status_json 500
              (JObj [("error", JStr "Failed to fetch notifications");
                     ("details", JStr (error_message error))]))).

Definition route_unread_count (authUserId : ObjectId) : M Response :=
  try_catch
    (unreadCount <- getUnreadCount env authUserId ;;
     ret (json (JObj [("success", JBool true);
                      ("unreadCount", JNum (Z.of_nat unreadCount))])))
    (fun error =>
       console_error "Error fetching unread count:" error ;;
       ret (status_json 500
              (JObj [("error", JStr "Failed to fetch unread count");
                     ("details", JStr (error_message error))]))).

(** [notificationIds.map(id => new Types.ObjectId(id))], rethrowing the
    parser's error. *)
Fixpoint to_objectIds (notificationIds : list string) : M (list ObjectId) :=
  match notificationIds with
  | [] => ret []
  | id :: rest =>
      match parseObjectId env id with
      | None => throw (InvalidId ("Invalid notification ID: " ++ id))
      | Some o =>
          os <- to_objectIds rest ;;
          ret (o :: os)
      end
  end.

Definition marked_message (n : nat) : string :=
  string_of_nat n ++ " notifications marked as read".

Definition route_mark_read (authUserId : ObjectId)
    (notificationIds : list string) : M Response :=
  try_catch
    (match notificationIds with
     | [] =>
         ret (status_json 400
                (JObj [("error", JStr "Validation failed");
                       ("details",
                        JObj [("notificationIds",
                               JArr [JStr "At least one notification ID is required"])])]))
     | _ =>
         objectIds <- to_objectIds notificationIds ;;
         notifications_ <-
           Notification_find env
             (fun n => id_in objectIds n && (userId n =? authUserId)) ;;
         if negb (length notifications_ =? length objectIds) then
           ret (status_json 403
                  (JObj [("error",
                          JStr "Some notifications do not belong to you or do not exist")]))
         else
           markAsRead env objectIds ;;
           ret (json (JObj [("success", JBool true);
                            ("message",
                             JStr (marked_message (length objectIds)))]))
     end)
    (fun error =>
       console_error "Error marking notifications as read:" error ;;
       ret (status_json 500
              (JObj [("error", JStr "Failed to mark notifications as read");
                     ("details", JStr (error_message error))]))).

Definition route_mark_all_read (authUserId : ObjectId) : M Response :=
  try_catch
    (modifiedCount <-
       Notification_updateMany_read env (unread_of authUserId) ;;
     ret (json (JObj [("success", JBool true);
                      ("message", JStr (marked_message modifiedCount))])))
    (fun error =>
       console_error "Error marking all notifications as read:" error ;;
       ret (status_json 500
              (JObj [("error",
                      JStr "Failed to mark all notifications as read");
                     ("details", JStr (error_message error))]))).

(** [Types.ObjectId.isValid(id)] is read as: the parser accepts [id]. *)
Definition route_delete_notification (authUserId : ObjectId)
    (notificationId : string) : M Response :=
  try_catch
    (match parseObjectId env notificationId with
     | None =>
         ret (status_json 400
                (JObj [("error", JStr "Invalid notification ID")]))
     | Some id =>
         notification <-
           Notification_findOne env
             (fun n => (_id n =? id) && (userId n =? authUserId)) ;;
         match notification with
         | None =>
             ret (status_json 404
                    (JObj [("error",
                            JStr "Notification not found or does not belong to you")]))
         | Some _ =>
             Notification_findByIdAndDelete env id ;;
             ret (json (JObj [("success", JBool true);
                              ("message",
                               JStr "Notification deleted successfully")]))
         end
     end)
    (fun error =>
       console_error "Error deleting notification:" error ;;
       ret (status_json 500
              (JObj [("error", JStr "Failed to delete notification");
                     ("details", JStr (error_message error))]))).

Definition route_test_notification (authUserId : ObjectId) : M Response :=
  if production env then
    ret (status_json 403
           (JObj [("error",
                   JStr "Test endpoint not available in production")]))
  else
    try_catch
      (createNotification env
         {| nd_userId := authUserId;
            nd_type := system;
            nd_title := "Test Notification";
            nd_message :=
              "This is a test notification to verify the system is working correctly.";
            nd_data := Some {| tripId := None; actorId := None;
                               actorName := None; tripTitle := None;
                               extra := [("testData", JStr "Hello World!")] |};
            nd_sendEmail := Some false |} ;;
       ret (json (JObj [("success", JBool true);
                        ("message",
                         JStr "Test notification created successfully")])))
      (fun error =>
         console_error "Error creating test notification:" error ;;
         ret (status_json 500
                (JObj [("error", JStr "Failed to create test notification");
                       ("details", JStr (error_message error))]))).

End NotificationRoutes.

(** ** routes/trips.ts: the handlers that notify

    [req.auth] carries the caller's id and role; [req.params.id] is the
    raw path segment, which Mongoose casts to an ObjectId (a cast failure
    is thrown). *)

Inductive Role := traveler | organizer | admin.

Definition is_admin (r : Role) : bool :=
  match r with admin => true | _ => false end.

Definition Role_eqb (a b : Role) : bool :=
  match a, b with
  | traveler, traveler | organizer, organizer | admin, admin => true
  | _, _ => false
  end.

(** [requireRole(roles)] of middleware/auth.ts, placed after
    [authenticateJwt]: the handler [next] runs only for a caller whose
    role is one of [roles]. *)
Definition requireRole (roles : list Role) (authRole : Role)
    (next : M Response) : M Response :=
  if negb (existsb (Role_eqb authRole) roles) then
    ret (status_json 403 (JObj [("error", JStr "Forbidden")]))
  else next.

Definition trip_summary (t : Trip) : Json :=
  JObj [("id", JId (trip_id t)); ("title", JStr (trip_title t));
        ("participantCount", JNum (Z.of_nat (length (trip_participants t))));
        ("capacity", JNum (Z.of_nat (trip_capacity t)))].

Definition with_participants (t : Trip) (ps : list ObjectId) : Trip :=
  {| trip_id := trip_id t; trip_organizerId := trip_organizerId t;
     trip_title := trip_title t; trip_capacity := trip_capacity t;
     trip_participants := ps |}.

Section TripRoutes.

Variable env : Env.

Definition cast_id (param : string) : M ObjectId :=
  match parseObjectId env param with
  | Some id => ret id
  | None => throw (InvalidId "Cast to ObjectId failed")
  end.

Definition route_trip_join (authUserId : ObjectId) (param_id : string)
  : M Response :=
  try_catch
    (id <- cast_id param_id ;;
     found <- Trip_findById_populate env id ;;
     match found with
     | None => ret (status_json 404 (JObj [("error", JStr "Trip not found")]))
     | Some (trip, _) =>
         if trip_capacity trip <=? length (trip_participants trip) then
           ret (status_json 400 (JObj [("error", JStr "Trip is full")]))
         else if existsb (Nat.eqb authUserId) (trip_participants trip) then
           ret (status_json 400
                  (JObj [("error", JStr "Already joined this trip")]))
         else
           traveler_ <- User_findById env authUserId ;;
           match traveler_ with
           | None =>
               ret (status_json 404 (JObj [("error", JStr "User not found")]))
           | Some tr =>
               let trip' :=
                 with_participants trip
                   (trip_participants trip ++ [authUserId]) in
               Trip_save env trip' ;;
               notifyTripJoin env (trip_id trip') (user_name tr) authUserId ;;
               ret (json (JObj [("message", JStr "Successfully joined trip");
                                ("trip", trip_summary trip')]))
           end
     end)
    (fun error =>
       console_error "Error joining trip:" error ;;
       ret (status_json 500 (JObj [("error", JStr "Server error")]))).

Definition route_trip_leave (authUserId : ObjectId) (param_id : string)
  : M Response :=
  try_catch
    (id <- cast_id param_id ;;
     found <- Trip_findById_populate env id ;;
     match found with
     | None => ret (status_json 404 (JObj [("error", JStr "Trip not found")]))
     | Some (trip, _) =>
         if negb (existsb (Nat.eqb authUserId) (trip_participants trip)) then
           ret (status_json 400
                  (JObj [("error", JStr "Not part of this trip")]))
         else
           traveler_ <- User_findById env authUserId ;;
           match traveler_ with
           | None =>
               ret (status_json 404 (JObj [("error", JStr "User not found")]))
           | Some tr =>
               let trip' :=
                 with_participants trip
                   (filter (fun p => negb (p =? authUserId))
                           (trip_participants trip)) in
               Trip_save env trip' ;;
               notifyTripLeave env (trip_id trip') (user_name tr) authUserId ;;
               ret (json (JObj [("message", JStr "Successfully left trip");
                                ("trip", trip_summary trip')]))
           end
     end)
    (fun error =>
       console_error "Error leaving trip:" error ;;
       ret (status_json 500 (JObj [("error", JStr "Server error")]))).

(** [name || 'Organizer']. *)
Definition name_or_Organizer (name : string) : string :=
  if String.eqb name "" then "Organizer" else name.

Definition route_trip_delete (authUserId : ObjectId) (authRole : Role)
    (param_id : string) : M Response :=
  requireRole [organizer; admin] authRole (try_catch
    (id <- cast_id param_id ;;
     found <- Trip_findById_populate env id ;;
     match found with
     | None => ret (status_json 404 (JObj [("error", JStr "Trip not found")]))
     | Some (_, None) =>
         throw (TypeError "Cannot read properties of null (reading '_id')")
     | Some (trip, Some organizer_) =>
         if negb (user_id organizer_ =? authUserId)
            && negb (is_admin authRole) then
           ret (status_json 403
                  (JObj [("error",
                          JStr "Not authorized to delete this trip")]))
         else
           let tripTitle_ := trip_title trip in
           let participantIds := trip_participants trip in
           let organizerName := name_or_Organizer (user_name organizer_) in
           Trip_findByIdAndDelete env id ;;
           when (0 <? length participantIds)
                (notifyTripDeleted env (trip_id trip) tripTitle_
                                   participantIds organizerName) ;;
           ret (json (JObj [("message", JStr "Trip deleted successfully");
                            ("notifiedParticipants",
                             JNum (Z.of_nat (length participantIds)))]))
     end)
    (fun error =>
       console_error "Error deleting trip:" error ;;
       ret (status_json 500 (JObj [("error", JStr "Failed to delete trip")])))).

End TripRoutes.

(** ** routes/trips.ts: reading and updating one trip *)

(** A lean trip document as JSON (the fields modelled here). *)
Definition trip_json (t : Trip) : Json :=
  JObj [("_id", JId (trip_id t)); ("organizerId", JId (trip_organizerId t));
        ("title", JStr (trip_title t));
        ("capacity", JNum (Z.of_nat (trip_capacity t)));
        ("participants", JArr (map JId (trip_participants t)))].

(** What [updateTripSchema.safeParse(req.body)] returns: the flattened
    issues, or the parsed data.  Of the data, the title (non-empty when
    present) and the capacity (a positive integer when present) are the
    fields a modelled trip carries. *)
Inductive ParsedUpdate :=
| UpdateInvalid (flattened : Json)
| UpdateValid (new_title : option string) (new_capacity : option nat).

Definition apply_update (new_title : option string) (new_capacity : option nat)
    (t : Trip) : Trip :=
  {| trip_id := trip_id t; trip_organizerId := trip_organizerId t;
     trip_title := match new_title with Some s => s | None => trip_title t end;
     trip_capacity :=
       match new_capacity with Some c => c | None => trip_capacity t end;
     trip_participants := trip_participants t |}.

Section TripDocumentRoutes.

Variable env : Env.

(** [Trip.findById(id)], without [populate]. *)
Definition Trip_findById (id : ObjectId) : M (option Trip) :=
  io env OpTripFind ;;
  w <- get ;;
  ret (find (fun t => trip_id t =? id) (trips w)).

(** [Trip.findByIdAndUpdate(id, updateData, { new: true, ... })]: one
    write of the trip's document, answered with the updated document
    ([None] when there is none). *)
Definition Trip_findByIdAndUpdate (id : ObjectId) (new_title : option string)
    (new_capacity : option nat) : M (option Trip) :=
  io env OpTripSave ;;
  w <- get ;;
  modify (set_trips
            (update_first (fun t => trip_id t =? id)
                          (apply_update new_title new_capacity) (trips w))) ;;
  ret (option_map (apply_update new_title new_capacity)
                  (find (fun t => trip_id t =? id) (trips w))).

(** [router.get('/:id')]: no [try], no [asyncHandler]. *)
Definition route_trip_get (param_id : string) : M Response :=
  id <- cast_id env param_id ;;
  trip <- Trip_findById id ;;
  match trip with
  | None => ret (status_json 404 (JObj [("error", JStr "Not found")]))
  | Some t => ret (json (trip_json t))
  end.

(** [router.put('/:id')]. *)
Definition route_trip_update (authUserId : ObjectId) (authRole : Role)
    (param_id : string) (parsed : ParsedUpdate) : M Response :=
  requireRole [organizer; admin] authRole (try_catch
    (id <- cast_id env param_id ;;
     trip <- Trip_findById id ;;
     match trip with
     | None => ret (status_json 404 (JObj [("error", JStr "Trip not found")]))
     | Some t =>
         if negb (trip_organizerId t =? authUserId)
            && negb (is_admin authRole) then
           ret (status_json 403
                  (JObj [("error",
                          JStr "Not authorized to update this trip")]))
         else
           match parsed with
           | UpdateInvalid flattened =>
               ret (status_json 400 (JObj [("error", flattened)]))
           | UpdateValid new_title new_capacity =>
               updatedTrip <-
                 Trip_findByIdAndUpdate id new_title new_capacity ;;
               ret (json (match updatedTrip with
                          | Some t' => trip_json t'
                          | None => JNull
                          end))
           end
     end)
    (fun error =>
       console_error "Error updating trip:" error ;;
       ret (status_json 500 (JObj [("error", JStr "Failed to update trip")])))).

End TripDocumentRoutes.

(** ** components/NotificationItem.tsx: [formatTimeAgo]

    Dates are milliseconds since the epoch; [None] is an invalid date,
    for which every comparison is false.  [toLocaleDateString] is the
    browser's. *)

Definition string_of_Z (z : Z) : string :=
  NilEmpty.string_of_int (Z.to_int z).

Definition formatTimeAgo (toLocaleDateString : option Z -> string)
    (now : Z) (date : option Z) : string :=
  match date with
  | None => toLocaleDateString None
  | Some d =>
      let diffInSeconds := ((now - d) / 1000)%Z in
      if (diffInSeconds <? 60)%Z then "Just now"
      else if (diffInSeconds <? 3600)%Z then
        string_of_Z (diffInSeconds / 60) ++ "m ago"
      else if (diffInSeconds <? 86400)%Z then
        string_of_Z (diffInSeconds / 3600) ++ "h ago"
      else if (diffInSeconds <? 604800)%Z then
        string_of_Z (diffInSeconds / 86400) ++ "d ago"
      else toLocaleDateString date
  end.

(** ** contexts/NotificationContext.tsx: the client's local state

    A notification as the browser holds it.  A document fetched from
    the list route has every field; the event pushed on the socket
    carries [id], not [_id], and no [read], so both are absent
    ([None]) on the object the [new_notification] handler stores.

    The three actions update the local state only once their request
    has resolved ([resolved]; a missing token or a failed request
    leaves the state as it is).  [seen] is the [notifications] of the
    render that made the call, which the counter updates read instead
    of the state being replaced. *)

Module Client.

Record Notification := {
  _id : option string;
  type : NotificationType;
  title : string;
  message : string;
  read : option bool
}.

Record State := {
  notifications : list Notification;
  unreadCount : Z
}.

(** The pushed event, as stored. *)
Definition received (e : SocketEvent) : Notification :=
  {| _id := None; type := ev_type e; title := ev_title e;
     message := ev_message e; read := None |}.

(** [!notification.read]. *)
Definition not_read (n : Notification) : bool := negb (isTrue (read n)).

(** [{ ...notification, read: true }]. *)
Definition with_read (n : Notification) : Notification :=
  {| _id := _id n; type := type n; title := title n; message := message n;
     read := Some true |}.

(** [n._id === id]. *)
Definition has_id (id : string) (n : Notification) : bool :=
  match _id n with
  | Some i => String.eqb i id
  | None => false
  end.

(** [notificationIds.includes(notification._id)]. *)
Definition includes (notificationIds : list string) (n : Notification)
  : bool :=
  match _id n with
  | Some i => existsb (String.eqb i) notificationIds
  | None => false
  end.

(** The [new_notification] handler. *)
Definition on_new_notification (e : SocketEvent) (st : State) : State :=
  {| notifications := received e :: notifications st;
     unreadCount := unreadCount st + 1 |}.

Definition markAsRead (resolved : bool) (seen : list Notification)
    (notificationIds : list string) (st : State) : State :=
  if resolved then
    let unreadNotifications :=
      filter (fun id =>
                match find (has_id id) seen with
                | Some notification => not_read notification
                | None => false
                end)
             notificationIds in
    {| notifications :=
         map (fun notification =>
                if includes notificationIds notification
                then with_read notification else notification)
             (notifications st);
       unreadCount :=
         Z.max 0 (unreadCount st - Z.of_nat (length unreadNotifications)) |}
  else st.

Definition markAllAsRead (resolved : bool) (st : State) : State :=
  if resolved then
    {| notifications := map with_read (notifications st); unreadCount := 0 |}
  else st.

Definition deleteNotification (resolved : bool) (seen : list Notification)
    (notificationId : string) (st : State) : State :=
  if resolved then
    let notification := find (has_id notificationId) seen in
    {| notifications :=
         filter (fun n => negb (has_id notificationId n)) (notifications st);
       unreadCount :=
         match notification with
         | Some n =>
             if not_read n then Z.max 0 (unreadCount st - 1)
             else unreadCount st
         | None => unreadCount st
         end |}
  else st.

End Client.

(** ** Vocabulary of the properties *)

(** The number of unread notifications stored for a recipient. *)
Definition unreadCount (uid : ObjectId) (w : World) : nat :=
  length (filter (unread_of uid) (notifications w)).

(** A notification with its mirror flag and modification date erased:
    two documents with the same image differ at most in [emailSent] and
    [updatedAt]. *)
Definition modulo_mirror (n : Notification) : Notification :=
  mark_emailSent_at 0 n.

(** The payload [createNotification] stores: [data || {}]. *)
Definition payload_of (d : NotificationData) : NotificationPayload :=
  match nd_data d with
  | Some p => p
  | None => empty_payload
  end.

Definition accepted (d : NotificationData) : Prop :=
  required (nd_title d) = true /\ required (nd_message d) = true.

(** The document stored for [d], as inserted. *)
Definition inserted_for (d : NotificationData) (n : Notification) : Prop :=
  userId n = nd_userId d /\ type n = nd_type d /\ title n = nd_title d
  /\ message n = nd_message d /\ data n = payload_of d /\ read n = false.

(** The branches of a fan-out, one after another: each branch's outcome,
    and the world after the last. *)
Fixpoint run_each {A : Type} (cs : list (M A)) (w : World)
  : list (Outcome A) * World :=
  match cs with
  | [] => ([], w)
  | c :: rest =>
      let (o, w1) := c w in
      let (os, w2) := run_each rest w1 in
      (o :: os, w2)
  end.

Definition is_ok {A : Type} (o : Outcome A) : bool :=
  match o with Ok _ => true | Throw _ => false end.

Definition count_ok {A : Type} (os : list (Outcome A)) : nat :=
  length (filter is_ok os).

(** What the database, the socket and the mail transport hold: a world
    without its error log and without the list of creates in flight. *)
Definition durable (w : World) : World :=
  {| notifications := notifications w; trips := trips w; users := users w;
     nextId := nextId w; ticks := ticks w; emitted := emitted w;
     outbox := outbox w; console := []; in_flight := [] |}.

(** A computation that reads neither the error log nor the list of
    creates in flight, and leaves that list as it is. *)
Definition unaware {A : Type} (c : M A) : Prop :=
  forall w v, durable w = durable v ->
    fst (c w) = fst (c v)
    /\ durable (snd (c w)) = durable (snd (c v))
    /\ in_flight (snd (c w)) = in_flight w.

(** The unique index on [_id]. *)
Definition unique_ids (w : World) : Prop :=
  NoDup (map _id (notifications w)).

(** Ids are unique and were all handed out by the allocator. *)
Definition well_formed (w : World) : Prop :=
  unique_ids w /\ Forall (fun n => _id n < nextId w) (notifications w).

Definition stored_for (caller : ObjectId) (w : World) (o : ObjectId) : Prop :=
  exists n, In n (notifications w) /\ _id n = o /\ userId n = caller.

(** An id the caller may not act on: malformed, or not the id of one
    of the caller's stored notifications. *)
Definition bad_id (env : Env) (caller : ObjectId) (w : World) (s : string)
  : Prop :=
  match parseObjectId env s with
  | None => True
  | Some o => ~ stored_for caller w o
  end.

(** The documents among [os] that belong to [caller]: the query of the
    mark-read route. *)
Definition owned_in (caller : ObjectId) (os : list ObjectId) (n : Notification)
  : bool :=
  id_in os n && (userId n =? caller).

(** The responses of the mark-read and delete routes, by name. *)
Definition mark_read_rejected : Response :=
  status_json 403
    (JObj [("error",
            JStr "Some notifications do not belong to you or do not exist")]).

Definition mark_read_failed (e : Error) : Response :=
  status_json 500
    (JObj [("error", JStr "Failed to mark notifications as read");
           ("details", JStr (error_message e))]).

Definition mark_read_done (k : nat) : Response :=
  json (JObj [("success", JBool true); ("message", JStr (marked_message k))]).

Definition delete_not_found : Response :=
  status_json 404
    (JObj [("error",
            JStr "Notification not found or does not belong to you")]).

Definition delete_failed (e : Error) : Response :=
  status_json 500
    (JObj [("error", JStr "Failed to delete notification");
           ("details", JStr (error_message e))]).

(** [m'] is a later state of the document [m]: same identity and
    content, flags only raised. *)
Definition later_state (m m' : Notification) : Prop :=
  _id m' = _id m /\ userId m' = userId m /\ type m' = type m
  /\ title m' = title m /\ message m' = message m /\ data m' = data m
  /\ createdAt m' = createdAt m
  /\ (read m = true -> read m' = true)
  /\ (emailSent m = true -> emailSent m' = true).

(** [w'] comes after [w]: every stored notification of [w'] is a later
    state of one stored in [w], or was allocated since. *)
Definition evolves (w w' : World) : Prop :=
  nextId w <= nextId w'
  /\ forall n', In n' (notifications w') ->
       (exists n, In n (notifications w) /\ later_state n n')
       \/ nextId w <= _id n' < nextId w'.

(** A computation that keeps worlds well formed and only moves them
    forward. *)
Definition preserves {A : Type} (c : M A) : Prop :=
  forall w, well_formed w ->
            well_formed (snd (c w)) /\ evolves w (snd (c w)).

(** The entry points of the pipeline: the service's methods, the
    route handlers, and the completion of the creates left in flight. *)
Inductive Call :=
| CallCreateNotification (d : NotificationData)
| CallSendEmailNotification (n : Notification)
| CallNotifyTripJoin (tid : ObjectId) (name : string) (uid : ObjectId)
| CallNotifyTripLeave (tid : ObjectId) (name : string) (uid : ObjectId)
| CallNotifyTripDeleted (tid : ObjectId) (ttl : string) (ps : list ObjectId)
                        (org : string)
| CallNotifyTripUpdate (tid : ObjectId) (ttl : string) (ps : list ObjectId)
                       (org : string) (changes : list string)
| CallGetUnreadCount (uid : ObjectId)
| CallMarkAsRead (ids : list ObjectId)
| CallGetUserNotifications (uid : ObjectId) (page limit : Z)
| GetNotifications (uid : ObjectId) (page limit : option Z)
| GetUnreadCount (uid : ObjectId)
| PutMarkRead (uid : ObjectId) (ids : list string)
| PutMarkAllRead (uid : ObjectId)
| DeleteNotification (uid : ObjectId) (id : string)
| PostTest (uid : ObjectId)
| PostTripJoin (uid : ObjectId) (id : string)
| DeleteTripLeave (uid : ObjectId) (id : string)
| DeleteTrip (uid : ObjectId) (role : Role) (id : string)
| PutTrip (uid : ObjectId) (role : Role) (id : string) (parsed : ParsedUpdate)
| InFlightSettle.

(** The world after a call. *)
Definition run (env : Env) (c : Call) (w : World) : World :=
  match c with
  | CallCreateNotification d => snd (createNotification env d w)
  | CallSendEmailNotification n => snd (sendEmailNotification env n w)
  | CallNotifyTripJoin tid name uid => snd (notifyTripJoin env tid name uid w)
  | CallNotifyTripLeave tid name uid => snd (notifyTripLeave env tid name uid w)
  | CallNotifyTripDeleted tid ttl ps org =>
      snd (notifyTripDeleted env tid ttl ps org w)
  | CallNotifyTripUpdate tid ttl ps org changes =>
      snd (notifyTripUpdate env tid ttl ps org changes w)
  | CallGetUnreadCount uid => snd (getUnreadCount env uid w)
  | CallMarkAsRead ids => snd (markAsRead env ids w)
  | CallGetUserNotifications uid page limit =>
      snd (getUserNotifications env uid page limit w)
  | GetNotifications uid page limit =>
      snd (route_get_notifications env uid page limit w)
  | GetUnreadCount uid => snd (route_unread_count env uid w)
  | PutMarkRead uid ids => snd (route_mark_read env uid ids w)
  | PutMarkAllRead uid => snd (route_mark_all_read env uid w)
  | DeleteNotification uid id => snd (route_delete_notification env uid id w)
  | PostTest uid => snd (route_test_notification env uid w)
  | PostTripJoin uid id => snd (route_trip_join env uid id w)
  | DeleteTripLeave uid id => snd (route_trip_leave env uid id w)
  | DeleteTrip uid role id => snd (route_trip_delete env uid role id w)
  | PutTrip uid role id parsed =>
      snd (route_trip_update env uid role id parsed w)
  | InFlightSettle => settle env w
  end.

(** The worlds the pipeline can produce from an empty notification
    collection (with any trips and users). *)
Inductive reachable (env : Env) : World -> Prop :=
| reachable_start (w : World) :
    notifications w = [] -> reachable env w
| reachable_call (w : World) (c : Call) :
    reachable env w -> reachable env (run env c w).

(** ** Sample worlds *)

(** A stand-in for the bson parser: decimal numerals are ids. *)
Definition parse_decimal (s : string) : option ObjectId :=
  if String.eqb s "" then None
  else option_map Nat.of_uint (NilEmpty.uint_of_string s).

Definition sample_env (transporter : bool) (faults : IoOp -> nat -> bool) : Env :=
  {| emailTransporter := transporter; socketIO := true; production := false;
     parseObjectId := parse_decimal; clock := fun t => t; fails := faults |}.

Definition no_faults : IoOp -> nat -> bool := fun _ _ => false.

(** Every mail send fails. *)
Definition mail_down : IoOp -> nat -> bool :=
  fun op _ => match op with OpSendMail => true | _ => false end.

(** The insert of the second branch of a fan-out without email fails. *)
Definition second_insert_fails : IoOp -> nat -> bool :=
  fun op t => match op with OpNotificationCreate => t =? 1 | _ => false end.

(** Every notification insert fails. *)
Definition inserts_down : IoOp -> nat -> bool :=
  fun op _ => match op with OpNotificationCreate => true | _ => false end.

Definition sample_user (i : ObjectId) (name : string) : User :=
  {| user_id := i; user_name := name; user_email := name ++ "@example.org" |}.

Definition sample_notification (i uid : ObjectId) (rd : bool) : Notification :=
  {| _id := i; userId := uid; type := system; title := "Hello";
     message := "A message"; data := empty_payload; read := rd;
     emailSent := false; createdAt := i; updatedAt := i |}.

(** Organizer 1 runs trip 100, "Alps", capacity 10, with participants
    2, 3 and 4. *)
Definition alps : Trip :=
  {| trip_id := 100; trip_organizerId := 1; trip_title := "Alps";
     trip_capacity := 10; trip_participants := [2; 3; 4] |}.

Definition sample_world (ns : list Notification) : World :=
  {| notifications := ns; trips := [alps];
     users := [sample_user 1 "Olga"; sample_user 2 "Ana";
               sample_user 3 "Ben"; sample_user 4 "Cleo";
               sample_user 5 "Dov"];
     nextId := 1000; ticks := 0; emitted := []; outbox := []; console := [];
     in_flight := [] |}.

Definition sample_data (uid : ObjectId) (email : bool) : NotificationData :=
  {| nd_userId := uid; nd_type := system; nd_title := "Hello";
     nd_message := "A message"; nd_data := None;
     nd_sendEmail := Some email |}.

(** A recipient with five unread notifications (ids 1 to 5) and three
    read ones (ids 6 to 8), and another recipient with two unread ones. *)
Definition five_unread_three_read : list Notification :=
  map (fun i => sample_notification i 2 false) (seq 1 5)
  ++ map (fun i => sample_notification i 2 true) (seq 6 3)
  ++ map (fun i => sample_notification i 3 false) (seq 9 2).

(** A recipient with 45 stored notifications. *)
Definition forty_five : list Notification :=
  map (fun i => sample_notification i 2 false) (seq 1 45).

(** One stored, unread, unmirrored notification of recipient 2. *)
Definition one_fresh : World :=
  sample_world [sample_notification 1 2 false].

(** ** Vocabulary of the further properties *)

(** The document [Notification.create] builds for [d] in world [w]. *)
Definition new_document (env : Env) (d : NotificationData) (w : World)
  : Notification :=
  {| _id := nextId w; userId := nd_userId d; type := nd_type d;
     title := nd_title d; message := nd_message d; data := payload_of d;
     read := false; emailSent := false;
     createdAt := clock env (S (ticks w));
     updatedAt := clock env (S (ticks w)) |}.

(** The world right after that insert. *)
Definition after_insert (env : Env) (d : NotificationData) (w : World)
  : World :=
  set_nextId (S (nextId w))
    (set_notifications (notifications w ++ [new_document env d w]) (tick w)).

(** The mail [sendEmailNotification] hands to the transport. *)
Definition mail_for (u : User) (n : Notification) : Mail :=
  {| mail_to := user_email u; mail_subject := title n;
     mail_html := generateEmailContent n |}.

(** A computation that touches neither trips nor users. *)
Definition keeps_trips {A : Type} (c : M A) : Prop :=
  forall w, trips (snd (c w)) = trips w /\ users (snd (c w)) = users w.

(** A computation that hands nothing to the mail transport. *)
Definition sends_no_mail {A : Type} (c : M A) : Prop :=
  forall w, outbox (snd (c w)) = outbox w.

(** A create that will not reach the email step. *)
Definition without_email (env : Env) (d : NotificationData) : Prop :=
  isTrue (nd_sendEmail d) && emailTransporter env = false.

(** The answers of the trip routes, by name. *)
Definition trip_error (code : nat) (msg : string) : Response :=
  status_json code (JObj [("error", JStr msg)]).

Definition joined_response (t : Trip) : Response :=
  json (JObj [("message", JStr "Successfully joined trip");
              ("trip", trip_summary t)]).

Definition left_response (t : Trip) : Response :=
  json (JObj [("message", JStr "Successfully left trip");
              ("trip", trip_summary t)]).

Definition deleted_response (notified : nat) : Response :=
  json (JObj [("message", JStr "Trip deleted successfully");
              ("notifiedParticipants", JNum (Z.of_nat notified))]).

(** The trip [t] with [uid] added at the end of its participants. *)
Definition joined_by (uid : ObjectId) (t : Trip) : Trip :=
  with_participants t (trip_participants t ++ [uid]).

(** The trip [t] without [uid] among its participants. *)
Definition left_by (uid : ObjectId) (t : Trip) : Trip :=
  with_participants t
    (filter (fun p => negb (p =? uid)) (trip_participants t)).

(** A trip within its capacity, each participant listed once. *)
Definition trip_ok (t : Trip) : Prop :=
  length (trip_participants t) <= trip_capacity t
  /\ NoDup (trip_participants t).

(** The notification the test route creates for its caller. *)
Definition test_notification_data (uid : ObjectId) : NotificationData :=
  {| nd_userId := uid;
     nd_type := system;
     nd_title := "Test Notification";
     nd_message :=
       "This is a test notification to verify the system is working correctly.";
     nd_data := Some {| tripId := None; actorId := None;
                        actorName := None; tripTitle := None;
                        extra := [("testData", JStr "Hello World!")] |};
     nd_sendEmail := Some false |}.

(** The body of a granted list request. *)
Definition list_response (r : NotificationPage) : Response :=
  json (JObj (("success", JBool true) :: page_fields r)).

(** The ids of the notifications the client lists. *)
Definition listed_ids (l : list Client.Notification) : list string :=
  flat_map (fun n => match Client._id n with Some i => [i] | None => [] end) l.

(** The unread notifications the client lists. *)
Definition listed_unread (st : Client.State) : Z :=
  Z.of_nat (length (filter Client.not_read (Client.notifications st))).

(** By how much the client's counter exceeds the unread notifications
    it lists (the server may hold more than one page). *)
Definition unlisted_unread (st : Client.State) : Z :=
  (Client.unreadCount st - listed_unread st)%Z.

(** A client that lists an unread and a read notification of the five
    unread ones the server counts. *)
Definition sample_client : Client.State :=
  {| Client.notifications :=
       [ {| Client._id := Some "a"; Client.type := system;
            Client.title := "Hello"; Client.message := "A message";
            Client.read := Some false |};
         {| Client._id := Some "b"; Client.type := system;
            Client.title := "Hello"; Client.message := "A message";
            Client.read := Some true |} ];
     Client.unreadCount := 5 |}.

(** * Properties *)

Unset Implicit Arguments.

(** ** The monad and the collections *)

Lemma io_run (env : Env) (op : IoOp) (w : World) :
  io env op w =
  (if fails env op (ticks w) then Throw (StoreFailure op) else Ok tt, tick w).
Proof. unfold io. destruct (fails env op (ticks w)); reflexivity. Qed.

Lemma modulo_mirror_mark (t : nat) (n : Notification) :
  modulo_mirror (mark_emailSent_at t n) = modulo_mirror n.
Proof. reflexivity. Qed.

Lemma update_first_mirror (p : Notification -> bool) (t : nat)
    (l : list Notification) :
  map modulo_mirror (update_first p (mark_emailSent_at t) l)
  = map modulo_mirror l.
Proof.
  induction l as [|n l IH]; simpl; [reflexivity|].
  destruct (p n); simpl; [reflexivity | now rewrite IH].
Qed.

Ltac unfold_async :=
  unfold bind, ret, throw, try_catch, get, modify, when, console_error.

(** The insert of [createNotification], case by case. *)
Lemma Notification_create_run (env : Env) (uid : ObjectId)
    (ty : NotificationType) (ttl msg : string) (pl : NotificationPayload)
    (rd es : bool) (w : World) :
  Notification_create env uid ty ttl msg pl rd es w =
  if negb (required ttl) then (Throw (ValidationError "title"), w)
  else if negb (required msg) then (Throw (ValidationError "message"), w)
  else if fails env OpNotificationCreate (ticks w)
  then (Throw (StoreFailure OpNotificationCreate), tick w)
  else
    let n := {| _id := nextId w; userId := uid; type := ty; title := ttl;
                message := msg; data := pl; read := rd; emailSent := es;
                createdAt := clock env (S (ticks w));
                updatedAt := clock env (S (ticks w)) |} in
    (Ok n, set_nextId (S (nextId w))
             (set_notifications (notifications w ++ [n]) (tick w))).
Proof.
  unfold Notification_create.
  destruct (negb (required ttl)); [reflexivity|].
  destruct (negb (required msg)); [reflexivity|].
  unfold_async. rewrite io_run.
  destruct (fails env OpNotificationCreate (ticks w)); reflexivity.
Qed.

(** The email step never throws, and touches stored notifications in
    their mirror flag only. *)
Lemma sendEmailNotification_run (env : Env) (n : Notification) (w : World) :
  exists w',
    sendEmailNotification env n w = (Ok tt, w')
    /\ map modulo_mirror (notifications w')
       = map modulo_mirror (notifications w).
Proof.
  unfold sendEmailNotification, User_findById, sendMail,
    Notification_findByIdAndUpdate_emailSent.
  unfold_async. rewrite io_run.
  destruct (fails env OpUserFind (ticks w)); simpl;
    [eexists; split; reflexivity|].
  destruct (find _ (users w)) as [u|]; simpl;
    [|eexists; split; reflexivity].
  rewrite io_run; simpl.
  destruct (fails env OpSendMail (S (ticks w))); simpl;
    [eexists; split; reflexivity|].
  rewrite io_run; simpl.
  destruct (fails env OpNotificationUpdate (S (S (ticks w)))); simpl;
    (eexists; split; [reflexivity|]); simpl;
    [reflexivity | apply update_first_mirror].
Qed.

(** What [createNotification] does once its insert is through. *)
Lemma createNotification_after_insert (env : Env) (d : NotificationData)
    (w w1 : World) (n : Notification) :
  Notification_create env (nd_userId d) (nd_type d) (nd_title d)
    (nd_message d) (payload_of d) false false w = (Ok n, w1) ->
  exists w',
    createNotification env d w = (Ok n, w')
    /\ map modulo_mirror (notifications w')
       = map modulo_mirror (notifications w1).
Proof.
  intros Hins. unfold createNotification. fold (payload_of d).
  unfold try_catch, bind at 1. rewrite Hins.
  unfold bind at 1.
  assert (Hpush : exists w2,
             when (socketIO env) (modify (push_emitted (socket_payload n))) w1
             = (Ok tt, w2) /\ notifications w2 = notifications w1).
  { unfold when, modify, ret. destruct (socketIO env);
      eexists; split; reflexivity. }
  destruct Hpush as (w2 & -> & Hn2).
  unfold bind at 1, when.
  destruct (isTrue (nd_sendEmail d) && emailTransporter env).
  - destruct (sendEmailNotification_run env n w2) as (w3 & -> & Hn3).
    unfold ret. eexists; split; [reflexivity|]. now rewrite Hn3, Hn2.
  - unfold ret. eexists; split; [reflexivity|]. now rewrite Hn2.
Qed.

Lemma createNotification_insert_throws (env : Env) (d : NotificationData)
    (w w1 : World) (e : Error) :
  Notification_create env (nd_userId d) (nd_type d) (nd_title d)
    (nd_message d) (payload_of d) false false w = (Throw e, w1) ->
  createNotification env d w
  = (Throw e, push_console ("Error creating notification: " ++ error_message e) w1).
Proof.
  intros Hins. unfold createNotification. fold (payload_of d).
  unfold try_catch, bind at 1. rewrite Hins. reflexivity.
Qed.

(** ** Creation and the email mirror *)

Lemma createNotification_no_transport
    (env : Env) (d : NotificationData) (w : World) :
  emailTransporter env = false ->
  required (nd_title d) = true ->
  required (nd_message d) = true ->
  fails env OpNotificationCreate (ticks w) = false ->
  exists n w',
    createNotification env d w = (Ok n, w')
    /\ userId n = nd_userId d /\ emailSent n = false
    /\ notifications w' = (notifications w ++ [n])%list
    /\ console w' = console w.
Proof.
  intros Hno Ht Hm Hf.
  unfold createNotification. fold (payload_of d).
  unfold try_catch, bind at 1.
  rewrite Notification_create_run, Ht, Hm, Hf. simpl.
  rewrite Hno, andb_false_r.
  unfold_async. destruct (socketIO env); simpl;
    (eexists; eexists; split; [reflexivity|]); simpl; auto.
Qed.

(** C3.  A failure of the email step never fails [createNotification]:
    the call returns exactly what its insert returns (the same document,
    or the same error), a returned document is in the store with both
    flags as inserted, up to the mirror flag, and without a mail
    transport a call that asks for email returns a stored document with
    [emailSent = false] and logs no error. *)
Theorem C3_email_failure_does_not_fail_create
    (env : Env) (d : NotificationData) (w : World) :
  fst (createNotification env d w)
  = fst (Notification_create env (nd_userId d) (nd_type d) (nd_title d)
           (nd_message d) (payload_of d) false false w)
  /\ (forall n,
        fst (createNotification env d w) = Ok n ->
        read n = false /\ emailSent n = false
        /\ exists n',
             In n' (notifications (snd (createNotification env d w)))
             /\ modulo_mirror n' = modulo_mirror n)
  /\ (emailTransporter env = false ->
      required (nd_title d) = true ->
      required (nd_message d) = true ->
      fails env OpNotificationCreate (ticks w) = false ->
      exists n w',
        createNotification env d w = (Ok n, w')
        /\ userId n = nd_userId d /\ emailSent n = false
        /\ notifications w' = (notifications w ++ [n])%list
        /\ console w' = console w).
Proof.
  split; [|split; [|apply createNotification_no_transport]];
    destruct (Notification_create env (nd_userId d) (nd_type d) (nd_title d)
                (nd_message d) (payload_of d) false false w)
      as [[n|e] w1] eqn:Hins.
  - destruct (createNotification_after_insert env d w _ _ Hins) as (w' & -> & _).
    reflexivity.
  - now rewrite (createNotification_insert_throws env d w _ _ Hins).
  - destruct (createNotification_after_insert env d w _ _ Hins) as (w' & Hrun & Hmm).
    rewrite Hrun; simpl.
    intros n0 [= <-].
    rewrite Notification_create_run in Hins.
    destruct (negb (required (nd_title d))); [discriminate|].
    destruct (negb (required (nd_message d))); [discriminate|].
    destruct (fails env OpNotificationCreate (ticks w)); [discriminate|].
    injection Hins as Hn Hw1.
    split; [now rewrite <- Hn|]. split; [now rewrite <- Hn|].
    assert (Hin : In (modulo_mirror n) (map modulo_mirror (notifications w'))).
    { rewrite Hmm, <- Hw1. simpl. rewrite map_app, in_app_iff.
      right. simpl. left. now rewrite Hn. }
    apply in_map_iff in Hin. destruct Hin as (n' & Heq & Hin).
    exists n'. now split.
  - rewrite (createNotification_insert_throws env d w _ _ Hins); simpl.
    discriminate.
Qed.

(** Scenario D: [sendEmail = true], no transport configured. *)
Lemma C3_witness_no_transport :
  (emailTransporter (sample_env false no_faults) = false
   /\ fails (sample_env false no_faults) OpNotificationCreate
        (ticks (sample_world [])) = false)
  /\ exists n w',
       createNotification (sample_env false no_faults) (sample_data 2 true)
         (sample_world []) = (Ok n, w')
       /\ userId n = 2 /\ emailSent n = false
       /\ notifications w' = (notifications (sample_world []) ++ [n])%list
       /\ console w' = console (sample_world []).
Proof.
  split; [split; reflexivity|].
  apply (C3_email_failure_does_not_fail_create
           (sample_env false no_faults) (sample_data 2 true) (sample_world []));
    reflexivity.
Defined.

(** ** Fan-out *)

Lemma promise_all_create_run (env : Env) (ds : list NotificationData) :
  (forall t, fails env OpNotificationCreate t = false) ->
  Forall accepted ds ->
  forall w, exists created w',
    Promise_all_createNotification env ds w = (Ok created, w')
    /\ map modulo_mirror (notifications w')
       = map modulo_mirror (notifications w ++ created)
    /\ Forall2 inserted_for ds created.
Proof.
  intros Hins Hacc. induction Hacc as [|d ds [Ht Hm] _ IH]; intros w.
  - exists [], w. simpl. rewrite app_nil_r. repeat split. constructor.
  - pose proof (Notification_create_run env (nd_userId d) (nd_type d)
                  (nd_title d) (nd_message d) (payload_of d) false false w)
      as Hrun.
    rewrite Ht, Hm, Hins in Hrun. simpl in Hrun.
    destruct (createNotification_after_insert env d w _ _ Hrun) as (w1 & Hc & Hmm).
    destruct (IH w1) as (created & w2 & Hall & Hmm2 & Hf2).
    eexists (_ :: created), w2. simpl. rewrite Hc, Hall. split; [reflexivity|].
    split.
    + rewrite Hmm2, map_app, Hmm. simpl.
      rewrite !map_app. simpl. now rewrite <- app_assoc.
    + constructor; [|exact Hf2]. repeat split.
Qed.

Lemma inserted_for_mirror (d : NotificationData) (n n' : Notification) :
  modulo_mirror n' = modulo_mirror n -> inserted_for d n -> inserted_for d n'.
Proof.
  unfold modulo_mirror, mark_emailSent_at, inserted_for.
  intros [= Hid Hu Hty Htt Hmsg Hd Hr Hc] (H1 & H2 & H3 & H4 & H5 & H6).
  repeat split; congruence.
Qed.

Lemma Forall2_inserted_mirror (ds : list NotificationData)
    (c c' : list Notification) :
  map modulo_mirror c' = map modulo_mirror c ->
  Forall2 inserted_for ds c -> Forall2 inserted_for ds c'.
Proof.
  intros Hmap Hf. revert c' Hmap.
  induction Hf as [|d n ds c Hd _ IH]; intros [|n' c'] Hmap;
    try discriminate; [constructor|].
  pose proof (f_equal (hd n) Hmap) as Hn.
  pose proof (f_equal (@tl _) Hmap) as Hc.
  cbn [map hd tl] in Hn, Hc.
  constructor; [exact (inserted_for_mirror d n n' Hn Hd) | exact (IH c' Hc)].
Qed.

(** A fan-out whose inserts all go through appends one document per
    recipient, in order, and leaves older documents alone up to the
    mirror flag. *)
Lemma fan_out_appends (env : Env) (ds : list NotificationData) (w : World) :
  (forall t, fails env OpNotificationCreate t = false) ->
  Forall accepted ds ->
  exists old' created' w' l,
    Promise_all_createNotification env ds w = (Ok l, w')
    /\ notifications w' = (old' ++ created')%list
    /\ map modulo_mirror old' = map modulo_mirror (notifications w)
    /\ Forall2 inserted_for ds created'.
Proof.
  intros Hins Hacc.
  destruct (promise_all_create_run env ds Hins Hacc w) as (created & w' & Hall & Hmm & Hf).
  rewrite map_app in Hmm.
  apply map_eq_app in Hmm. destruct Hmm as (old' & created' & Hsplit & Ho & Hc).
  exists old', created', w', created. repeat split; auto.
  eapply Forall2_inserted_mirror; eauto.
Qed.

Lemma deleted_notification_accepted (tid : ObjectId) (ttl org : string)
    (ps : list ObjectId) :
  Forall accepted (map (deleted_notification tid ttl org) ps).
Proof.
  apply Forall_forall. intros d Hin. apply in_map_iff in Hin.
  destruct Hin as (p & <- & _). split; reflexivity.
Qed.

(** C1.  When the store accepts the inserts, [notifyTripDeleted] on a
    participant list of size P appends exactly P notifications, one per
    participant in list order, each of kind [trip_delete] and each
    carrying the deleted trip's id and title in its [data]; this holds
    whatever the email step does for any participant (unknown address,
    failed send, failed flag update), and older notifications are left
    as they were up to the mirror flag. *)
Theorem C1_trip_deleted_one_notification_per_participant
    (env : Env) (tid : ObjectId) (ttl : string) (ps : list ObjectId)
    (org : string) (w : World) :
  (forall t, fails env OpNotificationCreate t = false) ->
  exists old' created w',
    notifyTripDeleted env tid ttl ps org w = (Ok tt, w')
    /\ notifications w' = (old' ++ created)%list
    /\ map modulo_mirror old' = map modulo_mirror (notifications w)
    /\ length created = length ps
    /\ Forall2 (fun p n =>
                  userId n = p /\ type n = trip_delete
                  /\ tripId (data n) = Some tid
                  /\ tripTitle (data n) = Some ttl
                  /\ read n = false) ps created.
Proof.
  intros Hins.
  destruct (fan_out_appends env
              (map (deleted_notification tid ttl org) ps) w Hins
              (deleted_notification_accepted tid ttl org ps))
    as (old' & created & w' & l & Hall & Hsplit & Hold & Hf).
  exists old', created, w'.
  unfold notifyTripDeleted, notifyTripDeleted_try, try_catch, bind.
  rewrite Hall. unfold ret. repeat split; auto.
  - apply Forall2_length in Hf. now rewrite length_map in Hf.
  - clear - Hf. revert created Hf.
    induction ps as [|p ps IH]; intros created Hf; inversion Hf; subst;
      constructor; [|now apply IH].
    match goal with H : inserted_for _ _ |- _ =>
      destruct H as (H1 & H2 & _ & _ & H5 & H6) end.
    simpl in *. rewrite H5. repeat split; auto.
Qed.

(** Trip 100 with participants 2, 3 and 4, every mail send failing. *)
Lemma C1_witness_mail_down :
  (forall t, fails (sample_env true mail_down) OpNotificationCreate t = false)
  /\ exists old' created w',
       notifyTripDeleted (sample_env true mail_down) 100 "Alps" [2; 3; 4]
         "Olga" (sample_world []) = (Ok tt, w')
       /\ notifications w' = (old' ++ created)%list
       /\ map modulo_mirror old'
          = map modulo_mirror (notifications (sample_world []))
       /\ length created = length [2; 3; 4]
       /\ Forall2 (fun p n =>
                     userId n = p /\ type n = trip_delete
                     /\ tripId (data n) = Some 100
                     /\ tripTitle (data n) = Some "Alps"
                     /\ read n = false) [2; 3; 4] created.
Proof.
  split; [reflexivity|].
  apply (C1_trip_deleted_one_notification_per_participant
           (sample_env true mail_down) 100 "Alps" [2; 3; 4] "Olga"
           (sample_world [])).
  reflexivity.
Defined.

(** Scenario A, through the route: the organizer deletes trip 100 while
    the mail transport is down; the three participants each get a stored
    [trip_delete] notification for "Alps" and the route answers 200. *)
Example scenario_A_route_trip_delete :
  let '(r, w') :=
    route_trip_delete (sample_env true mail_down) 1 organizer "100"
      (sample_world []) in
  r = Ok (json (JObj [("message", JStr "Trip deleted successfully");
                      ("notifiedParticipants", JNum 3)]))
  /\ map userId (notifications w') = [2; 3; 4]
  /\ map type (notifications w') = [trip_delete; trip_delete; trip_delete]
  /\ map (fun n => tripTitle (data n)) (notifications w')
     = [Some "Alps"; Some "Alps"; Some "Alps"]
  /\ map emailSent (notifications w') = [false; false; false]
  /\ trips w' = [].
Proof. vm_compute. repeat split. Qed.

(** A [try] block whose handler only logs never throws, and logs what
    it caught. *)
Lemma try_catch_logs (c : M unit) (prefix : string) (w : World) :
  match c w with
  | (Ok _, w1) =>
      try_catch c (fun error => console_error prefix error) w = (Ok tt, w1)
  | (Throw e, w1) =>
      try_catch c (fun error => console_error prefix error) w
      = (Ok tt, push_console (prefix ++ " " ++ error_message e) w1)
  end.
Proof.
  unfold try_catch, console_error, modify.
  destruct (c w) as [[[]|e] w1]; reflexivity.
Qed.

Lemma try_catch_never_throws (c : M unit) (prefix : string) (w : World) :
  exists w', try_catch c (fun error => console_error prefix error) w = (Ok tt, w').
Proof.
  pose proof (try_catch_logs c prefix w) as H.
  destruct (c w) as [[[]|e] w1]; eauto.
Qed.

(** One create adds one document when it succeeds and none when it
    throws. *)
Lemma createNotification_length (env : Env) (d : NotificationData) (w : World) :
  length (notifications (snd (createNotification env d w)))
  = length (notifications w)
    + (if is_ok (fst (createNotification env d w)) then 1 else 0).
Proof.
  destruct (Notification_create env (nd_userId d) (nd_type d) (nd_title d)
              (nd_message d) (payload_of d) false false w)
    as [[n|e] w1] eqn:Hins.
  - destruct (createNotification_after_insert env d w _ _ Hins)
      as (w' & Hrun & Hmm).
    rewrite Hrun; simpl.
    apply (f_equal (@length _)) in Hmm. rewrite !length_map in Hmm.
    rewrite Hmm. rewrite Notification_create_run in Hins.
    destruct (negb (required (nd_title d))); [discriminate|].
    destruct (negb (required (nd_message d))); [discriminate|].
    destruct (fails env OpNotificationCreate (ticks w)); [discriminate|].
    injection Hins as _ <-. simpl. now rewrite length_app.
  - rewrite (createNotification_insert_throws env d w _ _ Hins); simpl.
    rewrite Notification_create_run in Hins.
    destruct (negb (required (nd_title d)));
      [injection Hins as _ <-; simpl; lia|].
    destruct (negb (required (nd_message d)));
      [injection Hins as _ <-; simpl; lia|].
    destruct (fails env OpNotificationCreate (ticks w)); [|discriminate].
    injection Hins as _ <-; simpl; lia.
Qed.

Lemma run_each_create_length (env : Env) (ds : list NotificationData)
    (w : World) :
  length (notifications (snd (run_each (map (createNotification env) ds) w)))
  = length (notifications w)
    + count_ok (fst (run_each (map (createNotification env) ds) w)).
Proof.
  revert w. induction ds as [|d ds IH]; intros w; simpl; [unfold count_ok; simpl; lia|].
  pose proof (createNotification_length env d w) as Hd.
  destruct (createNotification env d w) as [o w1]. specialize (IH w1).
  destruct (run_each (map (createNotification env) ds) w1) as [os w2].
  simpl in *. rewrite IH, Hd. unfold count_ok. simpl.
  destruct (is_ok o); simpl; lia.
Qed.

(** *** A create does not look at the log or at the creates in flight *)

Lemma unaware_ret {A : Type} (a : A) : unaware (ret a).
Proof. intros w v R. repeat split. exact R. Qed.

Lemma unaware_throw {A : Type} (e : Error) : unaware (@throw A e).
Proof. intros w v R. repeat split. exact R. Qed.

Lemma unaware_bind {A B : Type} (c : M A) (k : A -> M B) :
  unaware c -> (forall a, unaware (k a)) -> unaware (bind c k).
Proof.
  intros Hc Hk w v R. unfold bind. destruct (Hc w v R) as (Hf & Hd & Hi).
  destruct (c w) as [[a|e] w1], (c v) as [[a'|e'] v1];
    cbn [fst snd] in *; try discriminate.
  - injection Hf as <-. destruct (Hk a w1 v1 Hd) as (Hf2 & Hd2 & Hi2).
    split; [exact Hf2|]. split; [exact Hd2 | congruence].
  - injection Hf as <-. split; [reflexivity|]. split; [exact Hd | exact Hi].
Qed.

Lemma unaware_try_catch {A : Type} (c : M A) (h : Error -> M A) :
  unaware c -> (forall e, unaware (h e)) -> unaware (try_catch c h).
Proof.
  intros Hc Hh w v R. unfold try_catch. destruct (Hc w v R) as (Hf & Hd & Hi).
  destruct (c w) as [[a|e] w1], (c v) as [[a'|e'] v1];
    cbn [fst snd] in *; try discriminate.
  - split; [exact Hf|]. split; [exact Hd | exact Hi].
  - injection Hf as <-. destruct (Hh e w1 v1 Hd) as (Hf2 & Hd2 & Hi2).
    split; [exact Hf2|]. split; [exact Hd2 | congruence].
Qed.

Lemma unaware_when (b : bool) (c : M unit) : unaware c -> unaware (when b c).
Proof. intros Hc. destruct b; [exact Hc | apply unaware_ret]. Qed.

(** The worlds at hand differ in their log and creates in flight
    only. *)
Ltac same_durable w v R :=
  destruct w, v; cbn [durable notifications trips users nextId ticks emitted
                        outbox console in_flight] in R;
  injection R as -> -> -> -> -> -> ->.

Ltac unaware_op :=
  let w := fresh "w" in
  let v := fresh "v" in
  let R := fresh "R" in
  intros w v R; same_durable w v R;
  unfold_async; unfold io; simpl;
  repeat match goal with
         | |- context [if ?b then _ else _] => destruct b; simpl
         end;
  repeat split.

Lemma unaware_console_error (prefix : string) (e : Error) :
  unaware (console_error prefix e).
Proof. unfold console_error. unaware_op. Qed.

Lemma unaware_push_emitted (e : SocketEvent) :
  unaware (modify (push_emitted e)).
Proof. unaware_op. Qed.

Lemma unaware_Notification_create (env : Env) (uid : ObjectId)
    (ty : NotificationType) (ttl msg : string) (pl : NotificationPayload)
    (rd es : bool) :
  unaware (Notification_create env uid ty ttl msg pl rd es).
Proof. unfold Notification_create. unaware_op. Qed.

Lemma unaware_User_findById (env : Env) (id : ObjectId) :
  unaware (User_findById env id).
Proof. unfold User_findById. unaware_op. Qed.

Lemma unaware_sendMail (env : Env) (m : Mail) : unaware (sendMail env m).
Proof. unfold sendMail. unaware_op. Qed.

Lemma unaware_findByIdAndUpdate_emailSent (env : Env) (id : ObjectId) :
  unaware (Notification_findByIdAndUpdate_emailSent env id).
Proof. unfold Notification_findByIdAndUpdate_emailSent. unaware_op. Qed.

Ltac unaware_step :=
  lazymatch goal with
  | |- unaware (ret _) => apply unaware_ret
  | |- unaware (throw _) => apply unaware_throw
  | |- unaware (console_error _ _) => apply unaware_console_error
  | |- unaware (Notification_create _ _ _ _ _ _ _ _) =>
      apply unaware_Notification_create
  | |- unaware (Notification_findByIdAndUpdate_emailSent _ _) =>
      apply unaware_findByIdAndUpdate_emailSent
  | |- unaware (User_findById _ _) => apply unaware_User_findById
  | |- unaware (sendMail _ _) => apply unaware_sendMail
  | |- unaware (modify (push_emitted _)) => apply unaware_push_emitted
  | |- unaware (when _ _) => apply unaware_when
  | |- unaware (bind _ _) => apply unaware_bind; [|intro]
  | |- unaware (try_catch _ _) => apply unaware_try_catch; [|intro]
  | |- unaware (match ?x with _ => _ end) => destruct x
  end.

Lemma unaware_sendEmailNotification (env : Env) (n : Notification) :
  unaware (sendEmailNotification env n).
Proof. unfold sendEmailNotification. repeat unaware_step. Qed.

Lemma unaware_createNotification (env : Env) (d : NotificationData) :
  unaware (createNotification env d).
Proof.
  unfold createNotification. repeat unaware_step.
  apply unaware_sendEmailNotification.
Qed.

Lemma createNotification_in_flight (env : Env) (d : NotificationData)
    (w : World) :
  in_flight (snd (createNotification env d w)) = in_flight w.
Proof. now destruct (unaware_createNotification env d w w eq_refl). Qed.

(** *** [Promise.all] over the creates, and the creates left in flight *)

Lemma run_each_create_unaware (env : Env) (ds : list NotificationData)
    (w v : World) :
  durable w = durable v ->
  fst (run_each (map (createNotification env) ds) w)
  = fst (run_each (map (createNotification env) ds) v)
  /\ durable (snd (run_each (map (createNotification env) ds) w))
     = durable (snd (run_each (map (createNotification env) ds) v)).
Proof.
  revert w v. induction ds as [|d ds IH]; intros w v R; [split; [reflexivity | exact R]|].
  cbn [map run_each].
  destruct (unaware_createNotification env d w v R) as (Hf & Hd & _).
  destruct (createNotification env d w) as [o w1],
           (createNotification env d v) as [o' v1].
  cbn [fst snd] in Hf, Hd. subst o'.
  destruct (IH w1 v1 Hd) as (Hf2 & Hd2).
  destruct (run_each (map (createNotification env) ds) w1) as [os w2],
           (run_each (map (createNotification env) ds) v1) as [os' v2].
  cbn [fst snd] in *. split; [now rewrite Hf2 | exact Hd2].
Qed.

Lemma run_in_flight_run_each (env : Env) (ds : list NotificationData)
    (w : World) :
  run_in_flight env ds w = snd (run_each (map (createNotification env) ds) w).
Proof.
  revert w. induction ds as [|d ds IH]; intros w; [reflexivity|].
  cbn [run_in_flight map run_each]. rewrite IH.
  destruct (createNotification env d w) as [o w1]. cbn [snd].
  now destruct (run_each (map (createNotification env) ds) w1).
Qed.

Lemma run_in_flight_keeps (env : Env) (ds : list NotificationData) (w : World) :
  in_flight (run_in_flight env ds w) = in_flight w.
Proof.
  revert w. induction ds as [|d ds IH]; intros w; [reflexivity|].
  cbn [run_in_flight]. rewrite IH. apply createNotification_in_flight.
Qed.

Lemma settle_settles (env : Env) (w : World) : in_flight (settle env w) = [].
Proof. unfold settle. now rewrite run_in_flight_keeps. Qed.

(** [Promise.all] fulfils exactly when every create of the sequential
    run does, and then its world is that run's; otherwise the creates
    after the first that fails are in flight. *)
Lemma Promise_all_run (env : Env) (ds : list NotificationData) (w : World) :
  let seq := run_each (map (createNotification env) ds) w in
  let p := Promise_all_createNotification env ds w in
  is_ok (fst p) = forallb is_ok (fst seq)
  /\ (is_ok (fst p) = true -> snd p = snd seq)
  /\ exists settled pending,
       ds = (settled ++ pending)%list
       /\ in_flight (snd p) = (in_flight w ++ pending)%list
       /\ (is_ok (fst p) = true -> pending = []).
Proof.
  revert w. induction ds as [|d ds IH]; intros w; cbn zeta.
  - split; [reflexivity|]. split; [reflexivity|].
    exists [], []. cbn. rewrite app_nil_r. auto.
  - cbn [map run_each Promise_all_createNotification].
    pose proof (createNotification_in_flight env d w) as Hin.
    destruct (createNotification env d w) as [[n|e] w1]; cbn [snd] in Hin.
    + specialize (IH w1). cbn zeta in IH.
      destruct IH as (Hok & Hsame & settled & pending & Hds & Hfl & Hnone).
      destruct (run_each (map (createNotification env) ds) w1) as [os w2].
      destruct (Promise_all_createNotification env ds w1) as [[l|e] w3];
        cbn [fst snd is_ok forallb andb] in *.
      * split; [exact Hok|]. split; [exact Hsame|].
        exists (d :: settled), pending. rewrite Hds, Hfl, Hin. auto.
      * split; [exact Hok|]. split; [exact Hsame|].
        exists (d :: settled), pending. rewrite Hds, Hfl, Hin. auto.
    + destruct (run_each (map (createNotification env) ds) w1) as [os w2].
      cbn [fst snd is_ok forallb andb in_flight set_in_flight].
      split; [reflexivity|]. split; [discriminate|].
      exists [d], ds. rewrite Hin. repeat split. discriminate.
Qed.

(** Once the creates left in flight have settled, the database, the
    socket and the mail transport hold what the sequential run leaves
    there. *)
Lemma Promise_all_settled (env : Env) (ds : list NotificationData)
    (w v : World) :
  in_flight w = [] ->
  durable v = durable (snd (Promise_all_createNotification env ds w)) ->
  in_flight v = in_flight (snd (Promise_all_createNotification env ds w)) ->
  durable (settle env v)
  = durable (snd (run_each (map (createNotification env) ds) w)).
Proof.
  revert w. induction ds as [|d ds IH]; intros w Hnone Hd Hi.
  - cbn in Hd, Hi. unfold settle. rewrite Hi, Hnone. cbn [run_in_flight].
    exact Hd.
  - cbn [map run_each Promise_all_createNotification] in *.
    pose proof (createNotification_in_flight env d w) as Hin.
    destruct (createNotification env d w) as [[n|e] w1]; cbn [snd] in Hin.
    + rewrite Hnone in Hin. specialize (IH w1 Hin).
      destruct (run_each (map (createNotification env) ds) w1) as [os w2].
      destruct (Promise_all_createNotification env ds w1) as [[l|e] w3];
        cbn [fst snd] in *; now apply IH.
    + cbn [snd in_flight set_in_flight] in Hd, Hi.
      rewrite Hin, Hnone in Hi. cbn [app] in Hi.
      unfold settle. rewrite Hi, run_in_flight_run_each.
      destruct (run_each_create_unaware env ds (set_in_flight [] v) w1)
        as (_ & Hd2); [exact Hd|].
      rewrite Hd2.
      now destruct (run_each (map (createNotification env) ds) w1).
Qed.

(** What a fan-out builder does around its [Promise.all]. *)
Lemma fan_out_run (env : Env) (ds : list NotificationData) (prefix : string)
    (w : World) :
  let seq := run_each (map (createNotification env) ds) w in
  exists w',
    try_catch (Promise_all_createNotification env ds ;; ret tt)
              (fun error => console_error prefix error) w = (Ok tt, w')
    /\ (forallb is_ok (fst seq) = true -> w' = snd seq)
    /\ (forallb is_ok (fst seq) = false ->
        exists e, In (prefix ++ " " ++ error_message e) (console w'))
    /\ (forall d, In d (in_flight w') -> In d (in_flight w) \/ In d ds)
    /\ (in_flight w = [] ->
        in_flight (settle env w') = []
        /\ durable (settle env w') = durable (snd seq)
        /\ notifications (settle env w') = notifications (snd seq)
        /\ length (notifications (settle env w'))
           = length (notifications w) + count_ok (fst seq)).
Proof.
  intros seq. subst seq.
  destruct (Promise_all_run env ds w)
    as (Hok & Hsame & settled & pending & Hds & Hfl & _).
  pose proof (Promise_all_settled env ds w) as Hsettled.
  pose proof (run_each_create_length env ds w) as Hlen.
  assert (Hpending : forall d,
             In d (in_flight (snd (Promise_all_createNotification env ds w))) ->
             In d (in_flight w) \/ In d ds).
  { intros d Hd. rewrite Hfl in Hd. apply in_app_or in Hd.
    destruct Hd as [Hd|Hd]; [now left|]. right. rewrite Hds.
    apply in_or_app. now right. }
  unfold try_catch, bind, ret, console_error, modify.
  destruct (Promise_all_createNotification env ds w) as [[l|e] w1];
    cbn [fst snd is_ok] in *;
    (eexists; split; [reflexivity|]).
  - split; [intros _; now apply Hsame|].
    split; [intros Hf; congruence|].
    split; [exact Hpending|].
    intros Hnone.
    assert (Hd : durable (settle env w1)
                 = durable (snd (run_each (map (createNotification env) ds) w)))
      by (apply Hsettled; auto).
    split; [apply settle_settles|]. split; [exact Hd|].
    pose proof (f_equal notifications Hd) as Hn. cbn [durable notifications] in Hn.
    split; [exact Hn | now rewrite Hn].
  - split; [intros Hf; congruence|].
    split; [intros _; exists e; cbn [console push_console];
            rewrite in_app_iff; right; now left|].
    split; [exact Hpending|].
    intros Hnone.
    assert (Hd : durable (settle env
                            (push_console (prefix ++ " " ++ error_message e) w1))
                 = durable (snd (run_each (map (createNotification env) ds) w)))
      by (apply Hsettled; auto).
    split; [apply settle_settles|]. split; [exact Hd|].
    pose proof (f_equal notifications Hd) as Hn. cbn [durable notifications] in Hn.
    split; [exact Hn | now rewrite Hn].
Qed.

(** C8, as the code has it.  A fan-out ([notifyTripDeleted],
    [notifyTripUpdate]) never raises, however many creates fail, and it
    returns no value at all.  When no create fails, every create has
    settled when it returns.  When one fails, [Promise.all] rejects,
    the builder writes the error to the log and returns, and the
    creates that have not settled are left in flight (they are creates
    of this fan-out, or were in flight before); each of them still
    runs to its end, so once they have settled the store holds what
    running the creates one after another leaves there: exactly one
    new notification per create that succeeded. *)
Theorem C8_fan_out_never_raises
    (env : Env) (tid : ObjectId) (ttl : string) (ps : list ObjectId)
    (org : string) (changes : list string) (w : World) :
  (let ds := map (deleted_notification tid ttl org) ps in
   let seq := run_each (map (createNotification env) ds) w in
   exists w',
     notifyTripDeleted env tid ttl ps org w = (Ok tt, w')
     /\ (forallb is_ok (fst seq) = true -> w' = snd seq)
     /\ (forallb is_ok (fst seq) = false ->
         exists e, In ("Error notifying trip deletion: " ++ error_message e)
                      (console w'))
     /\ (forall d, In d (in_flight w') -> In d (in_flight w) \/ In d ds)
     /\ (in_flight w = [] ->
         in_flight (settle env w') = []
         /\ durable (settle env w') = durable (snd seq)
         /\ notifications (settle env w') = notifications (snd seq)
         /\ length (notifications (settle env w'))
            = length (notifications w) + count_ok (fst seq)))
  /\ (let ds := map (update_notification tid ttl org changes) ps in
      let seq := run_each (map (createNotification env) ds) w in
      exists w',
        notifyTripUpdate env tid ttl ps org changes w = (Ok tt, w')
        /\ (forallb is_ok (fst seq) = true -> w' = snd seq)
        /\ (forallb is_ok (fst seq) = false ->
            exists e, In ("Error notifying trip update: " ++ error_message e)
                         (console w'))
        /\ (forall d, In d (in_flight w') -> In d (in_flight w) \/ In d ds)
        /\ (in_flight w = [] ->
            in_flight (settle env w') = []
            /\ durable (settle env w') = durable (snd seq)
            /\ notifications (settle env w') = notifications (snd seq)
            /\ length (notifications (settle env w'))
               = length (notifications w) + count_ok (fst seq))).
Proof.
  split.
  - exact (fan_out_run env (map (deleted_notification tid ttl org) ps)
             "Error notifying trip deletion:" w).
  - exact (fan_out_run env (map (update_notification tid ttl org changes) ps)
             "Error notifying trip update:" w).
Qed.

(** C8 as stated fails: with the insert for participant 3 failing, the
    fan-out returns the same empty value as a run without any failure;
    no list of failed recipients comes back, although participant 3
    gets no notification, also once every create has settled. *)
Lemma C8_counterexample_nothing_returned :
  let failing :=
    notifyTripDeleted (sample_env false second_insert_fails) 100 "Alps"
      [2; 3; 4] "Olga" (sample_world []) in
  let clean :=
    notifyTripDeleted (sample_env false no_faults) 100 "Alps"
      [2; 3; 4] "Olga" (sample_world []) in
  fst failing = fst clean
  /\ fst failing = Ok tt
  /\ map userId
       (notifications
          (settle (sample_env false second_insert_fails) (snd failing)))
     = [2; 4].
Proof. vm_compute. repeat split. Qed.

(** ** Unread counts *)

Lemma getUnreadCount_run (env : Env) (uid : ObjectId) (w : World) :
  getUnreadCount env uid w =
  (if fails env OpNotificationCount (ticks w)
   then Throw (StoreFailure OpNotificationCount)
   else Ok (unreadCount uid w), tick w).
Proof.
  unfold getUnreadCount, Notification_countDocuments. unfold_async.
  rewrite io_run. destruct (fails env OpNotificationCount (ticks w)); reflexivity.
Qed.

Lemma mark_all_leaves_none_unread (uid : ObjectId) (t : nat)
    (l : list Notification) :
  filter (unread_of uid)
         (map (fun n => if unread_of uid n then mark_read_at t n else n) l)
  = [].
Proof.
  induction l as [|n l IH]; simpl; [reflexivity|].
  destruct (unread_of uid n) eqn:Hu.
  - unfold unread_of at 1. simpl. rewrite andb_false_r. exact IH.
  - rewrite Hu. exact IH.
Qed.

Lemma mark_all_frame (uid uid' : ObjectId) (t : nat) (l : list Notification) :
  uid' <> uid ->
  filter (unread_of uid')
         (map (fun n => if unread_of uid n then mark_read_at t n else n) l)
  = filter (unread_of uid') l.
Proof.
  intros Hne. induction l as [|n l IH]; simpl; [reflexivity|].
  destruct (unread_of uid n) eqn:Hu.
  - unfold unread_of in Hu. apply andb_prop in Hu. destruct Hu as [Hu _].
    apply Nat.eqb_eq in Hu.
    assert (Hn : (userId n =? uid') = false)
      by (apply Nat.eqb_neq; congruence).
    assert (H1 : unread_of uid' (mark_read_at t n) = false)
      by (unfold unread_of; simpl; now rewrite Hn).
    assert (H2 : unread_of uid' n = false)
      by (unfold unread_of; now rewrite Hn).
    rewrite H1, H2. exact IH.
  - now rewrite IH.
Qed.

Lemma route_mark_all_read_run (env : Env) (uid : ObjectId) (w : World) :
  exists resp w',
    route_mark_all_read env uid w = (Ok resp, w')
    /\ (status resp = 200 \/ status resp = 500)
    /\ (status resp = 200 <-> fails env OpNotificationUpdate (ticks w) = false)
    /\ (status resp = 200 ->
        notifications w'
        = map (fun n => if unread_of uid n
                        then mark_read_at (clock env (S (ticks w))) n else n)
              (notifications w))
    /\ (status resp = 500 -> notifications w' = notifications w).
Proof.
  unfold route_mark_all_read, Notification_updateMany_read. unfold_async.
  rewrite io_run.
  destruct (fails env OpNotificationUpdate (ticks w)); simpl;
    eexists; eexists; (split; [reflexivity|]); simpl;
    repeat split; auto; try discriminate; intros; discriminate.
Qed.

(** C6.  Once the mark-all-read request of recipient [uid] has
    completed, [uid] has no unread notification, [getUnreadCount] can
    only answer 0 for [uid], and every other recipient's unread count is
    what it was. *)
Theorem C6_mark_all_read_zeroes_only_the_caller
    (env : Env) (uid : ObjectId) (w w' : World) (resp : Response) :
  route_mark_all_read env uid w = (Ok resp, w') ->
  status resp = 200 ->
  unreadCount uid w' = 0
  /\ (forall k w'', getUnreadCount env uid w' = (Ok k, w'') -> k = 0)
  /\ (forall uid', uid' <> uid -> unreadCount uid' w' = unreadCount uid' w).
Proof.
  intros Hrun Hok.
  destruct (route_mark_all_read_run env uid w)
    as (resp0 & w0 & Hrun0 & _ & _ & Hnew & _).
  rewrite Hrun in Hrun0. injection Hrun0 as <- <-.
  specialize (Hnew Hok).
  assert (Hzero : unreadCount uid w' = 0).
  { unfold unreadCount. rewrite Hnew, mark_all_leaves_none_unread. reflexivity. }
  split; [exact Hzero|]. split.
  - intros k w'' Hk. rewrite getUnreadCount_run in Hk.
    destruct (fails env OpNotificationCount (ticks w')); [discriminate|].
    injection Hk as <- _. exact Hzero.
  - intros uid' Hne. unfold unreadCount. rewrite Hnew.
    now rewrite mark_all_frame.
Qed.

(** Recipient 2 marks all read; recipient 3 keeps two unread. *)
Lemma C6_witness_two_recipients :
  let w := sample_world five_unread_three_read in
  exists resp w',
    route_mark_all_read (sample_env false no_faults) 2 w = (Ok resp, w')
    /\ status resp = 200
    /\ unreadCount 2 w = 5 /\ unreadCount 3 w = 2
    /\ unreadCount 2 w' = 0 /\ unreadCount 3 w' = 2.
Proof.
  intros w.
  destruct (route_mark_all_read_run (sample_env false no_faults) 2 w)
    as (resp & w' & Hrun & _ & H200 & _).
  assert (Hok : status resp = 200) by (apply H200; reflexivity).
  exists resp, w'. split; [exact Hrun|]. split; [exact Hok|].
  destruct (C6_mark_all_read_zeroes_only_the_caller
              (sample_env false no_faults) 2 w w' resp Hrun Hok)
    as (Hz & _ & Hframe).
  split; [reflexivity|]. split; [reflexivity|]. split; [exact Hz|].
  rewrite (Hframe 3); [reflexivity | discriminate].
Defined.

(** ** Pagination *)

Lemma insert_desc_length (n : Notification) (l : list Notification) :
  length (insert_desc n l) = S (length l).
Proof.
  induction l as [|m l IH]; simpl; [reflexivity|].
  destruct (createdAt m <? createdAt n); simpl; [reflexivity | now rewrite IH].
Qed.

Lemma sort_createdAt_desc_length (l : list Notification) :
  length (sort_createdAt_desc l) = length l.
Proof.
  induction l as [|n l IH]; simpl; [reflexivity|].
  unfold sort_createdAt_desc in *. simpl. now rewrite insert_desc_length, IH.
Qed.

(** [Math.ceil(total / limit)] is the number of pages: the least [p]
    with [total <= p * limit]. *)
Lemma math_ceil_div_spec (total_ : nat) (limit : Z) :
  (1 <= limit)%Z ->
  exists pages,
    math_ceil_div total_ limit = Some pages
    /\ ((pages - 1) * limit < Z.of_nat total_ <= pages * limit)%Z.
Proof.
  intros Hl. unfold math_ceil_div.
  destruct (limit =? 0)%Z eqn:H0; [apply Z.eqb_eq in H0; lia|].
  eexists; split; [reflexivity|].
  pose proof (Z.mul_div_le (- Z.of_nat total_) limit ltac:(lia)) as Hle.
  pose proof (Z.mul_succ_div_gt (- Z.of_nat total_) limit ltac:(lia)) as Hgt.
  nia.
Qed.

Lemma getUserNotifications_run (env : Env) (uid : ObjectId) (page limit : Z)
    (w : World) :
  (0 <= (page - 1) * limit)%Z ->
  fails env OpNotificationFind (ticks w) = false ->
  fails env OpNotificationCount (S (ticks w)) = false ->
  fails env OpNotificationCount (S (S (ticks w))) = false ->
  getUserNotifications env uid page limit w =
  (Ok {| np_notifications :=
           skip_limit ((page - 1) * limit) limit
             (sort_createdAt_desc (filter (owned_by uid) (notifications w)));
         np_pagination :=
           {| pg_page := page; pg_limit := limit;
              pg_total := length (filter (owned_by uid) (notifications w));
              pg_pages :=
                math_ceil_div
                  (length (filter (owned_by uid) (notifications w))) limit |};
         np_unreadCount := unreadCount uid w |},
   tick (tick (tick w))).
Proof.
  intros Hskip H1 H2 H3.
  unfold getUserNotifications, Notification_find_page,
    Notification_countDocuments.
  unfold bind at 1. unfold bind at 1. rewrite io_run, H1.
  destruct ((page - 1) * limit <? 0)%Z eqn:Hneg; [apply Z.ltb_lt in Hneg; lia|].
  unfold_async. rewrite io_run. simpl. rewrite H2.
  rewrite getUnreadCount_run. simpl. rewrite H3. reflexivity.
Qed.

(** C5, as the code has it.  [getUserNotifications] returns the page's
    items, newest first, with [pagination = { page, limit, total, pages }]
    where [pages] is the ceiling of [total / limit]; it computes no
    [hasNextPage] or [hasPrevPage], but [page * limit < total] holds
    exactly when [page < pages]. *)
Theorem C5_list_returns_page_and_page_count
    (env : Env) (uid : ObjectId) (page limit : Z) (w : World) :
  (1 <= page)%Z -> (1 <= limit)%Z ->
  fails env OpNotificationFind (ticks w) = false ->
  fails env OpNotificationCount (S (ticks w)) = false ->
  fails env OpNotificationCount (S (S (ticks w))) = false ->
  let mine := filter (owned_by uid) (notifications w) in
  let skip := Z.to_nat ((page - 1) * limit) in
  exists r w' pages,
    getUserNotifications env uid page limit w = (Ok r, w')
    /\ notifications w' = notifications w
    /\ np_notifications r
       = firstn (Z.to_nat limit) (skipn skip (sort_createdAt_desc mine))
    /\ length (np_notifications r)
       = Nat.min (Z.to_nat limit) (length mine - skip)
    /\ np_pagination r
       = {| pg_page := page; pg_limit := limit; pg_total := length mine;
            pg_pages := Some pages |}
    /\ ((pages - 1) * limit < Z.of_nat (length mine) <= pages * limit)%Z
    /\ ((page * limit < Z.of_nat (length mine))%Z <-> (page < pages)%Z)
    /\ np_unreadCount r = unreadCount uid w.
Proof.
  intros Hp Hl H1 H2 H3 mine skip.
  destruct (math_ceil_div_spec (length mine) limit Hl) as (pages & Hpages & Hb).
  eexists; exists (tick (tick (tick w))), pages.
  rewrite getUserNotifications_run by (auto; nia).
  split; [reflexivity|]. simpl. split; [reflexivity|].
  assert (Hsl : skip_limit ((page - 1) * limit) limit (sort_createdAt_desc mine)
                = firstn (Z.to_nat limit) (skipn skip (sort_createdAt_desc mine))).
  { unfold skip_limit. destruct (limit =? 0)%Z eqn:H0;
      [apply Z.eqb_eq in H0; lia|].
    now rewrite Zabs2Nat.abs_nat_nonneg by lia. }
  fold mine. rewrite Hsl, Hpages.
  split; [reflexivity|]. split.
  { rewrite length_firstn, length_skipn, sort_createdAt_desc_length.
    reflexivity. }
  split; [reflexivity|]. split; [exact Hb|]. split; [|reflexivity].
  split; intros; nia.
Qed.

(** Scenario B, page 2 of 45 with 20 a page. *)
Lemma C5_witness_page_two :
  ((1 <= 2)%Z /\ (1 <= 20)%Z)
  /\ exists r w',
       getUserNotifications (sample_env false no_faults) 2 2 20
         (sample_world forty_five) = (Ok r, w')
       /\ length (np_notifications r) = 20
       /\ np_pagination r
          = {| pg_page := 2; pg_limit := 20; pg_total := 45;
               pg_pages := Some 3%Z |}.
Proof.
  split; [lia|].
  destruct (C5_list_returns_page_and_page_count
              (sample_env false no_faults) 2 2 20 (sample_world forty_five))
    as (r & w' & pages & Hrun & _ & _ & Hlen & Hpg & Hb & _);
    [lia | lia | reflexivity | reflexivity | reflexivity |].
  exists r, w'. split; [exact Hrun|]. split; [exact Hlen|].
  rewrite Hpg. f_equal. f_equal.
  change (Z.of_nat (length (filter (owned_by 2)
            (notifications (sample_world forty_five))))) with 45%Z in Hb.
  lia.
Defined.

(** Scenario B by evaluation: page 2 has 20 items and a next page, page
    3 has the last 5. *)
Example scenario_B_pages :
  let list p :=
    fst (getUserNotifications (sample_env false no_faults) 2 p 20
           (sample_world forty_five)) in
  (exists r, list 2%Z = Ok r
     /\ length (np_notifications r) = 20 /\ pg_total (np_pagination r) = 45
     /\ pg_pages (np_pagination r) = Some 3%Z
     /\ map _id (np_notifications r) = rev (seq 6 20))
  /\ (exists r, list 3%Z = Ok r
        /\ length (np_notifications r) = 5
        /\ pg_pages (np_pagination r) = Some 3%Z
        /\ map _id (np_notifications r) = rev (seq 1 5)).
Proof.
  split; eexists; (split; [vm_compute; reflexivity|]); repeat split.
Qed.

(** C5 as stated fails: the [pagination] object of the list response
    has the keys [page], [limit], [total] and [pages], and neither
    [hasNextPage] nor [hasPrevPage]. *)
Lemma C5_counterexample_no_hasNextPage :
  exists fields pfields,
    fst (route_get_notifications (sample_env false no_faults) 2
           (Some 2%Z) (Some 20%Z) (sample_world forty_five))
    = Ok (json (JObj fields))
    /\ json_field "pagination" fields = Some (JObj pfields)
    /\ map fst pfields = ["page"; "limit"; "total"; "pages"]
    /\ json_field "hasNextPage" pfields = None
    /\ json_field "hasPrevPage" pfields = None
    /\ json_field "hasNextPage" fields = None.
Proof.
  eexists; eexists. split; [vm_compute; reflexivity|].
  repeat split.
Qed.

(** ** Ownership checks of the notification routes *)

Lemma to_objectIds_run (env : Env) (ids : list string) (w : World) :
  (exists os,
     to_objectIds env ids w = (Ok os, w)
     /\ map (parseObjectId env) ids = map Some os)
  \/ (exists s,
        In s ids /\ parseObjectId env s = None
        /\ to_objectIds env ids w
           = (Throw (InvalidId ("Invalid notification ID: " ++ s)), w)).
Proof.
  induction ids as [|s ids IH]; simpl.
  - left. exists []. split; reflexivity.
  - destruct (parseObjectId env s) as [o|] eqn:Hs.
    + unfold bind, ret.
      destruct IH as [(os & -> & Hmap) | (s' & Hin & Hnone & ->)].
      * left. exists (o :: os). simpl. now rewrite Hmap.
      * right. exists s'. auto.
    + right. exists s. auto.
Qed.

Lemma filter_orb_length {A : Type} (f g : A -> bool) (l : list A) :
  length (filter (fun x => f x || g x) l)
  <= length (filter f l) + length (filter g l).
Proof.
  induction l as [|a l IH]; simpl; [lia|].
  destruct (f a), (g a); simpl; lia.
Qed.

Lemma filter_none {A : Type} (f : A -> bool) (l : list A) :
  (forall a, In a l -> f a = false) -> filter f l = [].
Proof.
  induction l as [|a l IH]; intros H; simpl; [reflexivity|].
  rewrite (H a (or_introl eq_refl)). apply IH. intros b Hb. apply H. now right.
Qed.

(** With unique ids, at most one stored document has a given id. *)
Lemma at_most_one_by_id (q : Notification -> bool) (i : ObjectId)
    (l : list Notification) :
  NoDup (map _id l) ->
  length (filter (fun n => (_id n =? i) && q n) l) <= 1.
Proof.
  induction l as [|n l IH]; simpl; intros Hnd; [lia|].
  inversion Hnd as [|? ? Hnotin Hnd']; subst.
  destruct (_id n =? i) eqn:Hi; simpl; [|now apply IH].
  apply Nat.eqb_eq in Hi.
  rewrite filter_none.
  - destruct (q n); simpl; lia.
  - intros m Hm. destruct (_id m =? i) eqn:Hmi; [|reflexivity].
    apply Nat.eqb_eq in Hmi. exfalso. apply Hnotin.
    rewrite Hi, <- Hmi. now apply in_map.
Qed.

Lemma same_id_same_document (l : list Notification) (n m : Notification) :
  NoDup (map _id l) -> In n l -> In m l -> _id n = _id m -> n = m.
Proof.
  induction l as [|a l IH]; simpl; intros Hnd Hn Hm Heq; [contradiction|].
  inversion Hnd as [|? ? Hnotin Hnd']; subst.
  destruct Hn as [->|Hn], Hm as [->|Hm]; auto.
  - exfalso. apply Hnotin. rewrite Heq. now apply in_map.
  - exfalso. apply Hnotin. rewrite <- Heq. now apply in_map.
Qed.

Lemma owned_in_cons (caller i : ObjectId) (os : list ObjectId)
    (l : list Notification) :
  filter (owned_in caller (i :: os)) l
  = filter (fun n => ((_id n =? i) && (userId n =? caller))
                     || owned_in caller os n) l.
Proof.
  apply filter_ext. intros n. unfold owned_in, id_in. simpl.
  destruct (_id n =? i), (existsb (Nat.eqb (_id n)) os), (userId n =? caller);
    reflexivity.
Qed.

(** The ownership query finds at most one document per requested id,
    and as many as requested only if every requested id is a document of
    the caller. *)
Lemma owned_in_bound (caller : ObjectId) (os : list ObjectId)
    (l : list Notification) :
  NoDup (map _id l) ->
  length (filter (owned_in caller os) l) <= length os.
Proof.
  intros Hnd. induction os as [|i os IH].
  - rewrite filter_none; [simpl; lia|]. intros; reflexivity.
  - rewrite owned_in_cons.
    pose proof (filter_orb_length
                  (fun n => (_id n =? i) && (userId n =? caller))
                  (owned_in caller os) l).
    pose proof (at_most_one_by_id (fun n => userId n =? caller) i l Hnd).
    simpl. lia.
Qed.

Lemma owned_in_all (caller : ObjectId) (os : list ObjectId) (w : World) :
  unique_ids w ->
  length (filter (owned_in caller os) (notifications w)) = length os ->
  Forall (stored_for caller w) os.
Proof.
  unfold unique_ids. intros Hnd. induction os as [|i os IH]; intros Hlen.
  - constructor.
  - rewrite owned_in_cons in Hlen.
    pose proof (filter_orb_length
                  (fun n => (_id n =? i) && (userId n =? caller))
                  (owned_in caller os) (notifications w)) as Hor.
    pose proof (at_most_one_by_id (fun n => userId n =? caller) i
                  (notifications w) Hnd) as Hone.
    pose proof (owned_in_bound caller os (notifications w) Hnd) as Hb.
    simpl in Hlen. constructor.
    + destruct (filter (fun n => (_id n =? i) && (userId n =? caller))
                       (notifications w)) as [|n rest] eqn:Hf;
        [simpl in *; lia|].
      assert (Hin : In n (filter (fun n => (_id n =? i) && (userId n =? caller))
                                 (notifications w)))
        by (rewrite Hf; now left).
      apply filter_In in Hin. destruct Hin as [Hin Hq].
      apply andb_prop in Hq. destruct Hq as [Hi Hu].
      apply Nat.eqb_eq in Hi, Hu. exists n. auto.
    + apply IH. lia.
Qed.

(** The mark-read route, branch by branch. *)
Lemma route_mark_read_run (env : Env) (caller : ObjectId) (ids : list string)
    (w : World) :
  ids <> [] ->
  route_mark_read env caller ids w =
  match to_objectIds env ids w with
  | (Throw e, _) =>
      (Ok (mark_read_failed e),
       push_console ("Error marking notifications as read: "
                     ++ error_message e) w)
  | (Ok os, _) =>
      if fails env OpNotificationFind (ticks w) then
        (Ok (mark_read_failed (StoreFailure OpNotificationFind)),
         push_console ("Error marking notifications as read: "
                       ++ error_message (StoreFailure OpNotificationFind))
                      (tick w))
      else if negb (length (filter (owned_in caller os) (notifications w))
                    =? length os) then
        (Ok mark_read_rejected, tick w)
      else if fails env OpNotificationUpdate (S (ticks w)) then
        (Ok (mark_read_failed (StoreFailure OpNotificationUpdate)),
         push_console ("Error marking notifications as read: "
                       ++ error_message (StoreFailure OpNotificationUpdate))
                      (tick (tick w)))
      else
        (Ok (mark_read_done (length os)),
         set_notifications
           (map (fun n => if id_in os n
                          then mark_read_at (clock env (S (S (ticks w)))) n
                          else n)
                (notifications w))
           (tick (tick w)))
  end.
Proof.
  intros Hne. destruct ids as [|s ids]; [congruence|].
  unfold route_mark_read. unfold try_catch, bind at 1.
  destruct (to_objectIds_run env (s :: ids) w)
    as [(os & Hrun & _) | (s' & _ & _ & Hrun)]; rewrite Hrun.
  - unfold Notification_find, markAsRead, Notification_updateMany_read.
    unfold_async. rewrite io_run.
    destruct (fails env OpNotificationFind (ticks w)); [reflexivity|].
    cbn [fst snd notifications tick ticks]. fold (owned_in caller os).
    destruct (negb (length (filter (owned_in caller os) (notifications w))
                    =? length os)); [reflexivity|].
    rewrite io_run. cbn [ticks tick].
    destruct (fails env OpNotificationUpdate (S (ticks w))); reflexivity.
  - reflexivity.
Qed.

Lemma parsed_member (env : Env) (ids : list string) (os : list ObjectId)
    (s : string) :
  map (parseObjectId env) ids = map Some os ->
  In s ids -> exists o, parseObjectId env s = Some o /\ In o os.
Proof.
  intros Hmap Hin. apply (in_map (parseObjectId env)) in Hin.
  rewrite Hmap in Hin. apply in_map_iff in Hin.
  destruct Hin as (o & Ho & Hino). exists o. auto.
Qed.

Lemma marked_are_read (os : list ObjectId) (t : nat) (l : list Notification)
    (n' : Notification) :
  In n' (map (fun n => if id_in os n then mark_read_at t n else n) l) ->
  id_in os n' = true -> read n' = true.
Proof.
  intros Hin Hid. apply in_map_iff in Hin. destruct Hin as (n & <- & _).
  destruct (id_in os n) eqn:Hn; [reflexivity|].
  congruence.
Qed.

(** C9.  The mark-read route is all-or-nothing over its id list: it
    answers 200 only if every requested id parses and is the id of a
    stored notification of the caller, and then every requested
    notification is read; with any other answer no stored notification
    has changed; and one malformed, unknown or foreign id in the request
    is enough for the request to be refused with nothing changed. *)
Theorem C9_mark_read_is_all_or_nothing
    (env : Env) (caller : ObjectId) (ids : list string) (w : World) :
  unique_ids w ->
  exists resp w',
    route_mark_read env caller ids w = (Ok resp, w')
    /\ (status resp = 200 ->
        exists os t,
          map (parseObjectId env) ids = map Some os
          /\ Forall (stored_for caller w) os
          /\ notifications w'
             = map (fun n => if id_in os n then mark_read_at t n else n)
                   (notifications w)
          /\ (forall n', In n' (notifications w') ->
                         id_in os n' = true -> read n' = true))
    /\ (status resp <> 200 -> notifications w' = notifications w)
    /\ ((exists s, In s ids /\ bad_id env caller w s) ->
        status resp <> 200 /\ notifications w' = notifications w).
Proof.
  intros Hu.
  assert (Hmain : exists resp w',
    route_mark_read env caller ids w = (Ok resp, w')
    /\ (status resp = 200 ->
        exists os t,
          map (parseObjectId env) ids = map Some os
          /\ Forall (stored_for caller w) os
          /\ notifications w'
             = map (fun n => if id_in os n then mark_read_at t n else n)
                   (notifications w)
          /\ (forall n', In n' (notifications w') ->
                         id_in os n' = true -> read n' = true))
    /\ (status resp <> 200 -> notifications w' = notifications w)).
  { destruct ids as [|s ids].
    - eexists; eexists. split; [reflexivity|]. simpl.
      split; [discriminate | reflexivity].
    - rewrite route_mark_read_run by discriminate.
      destruct (to_objectIds_run env (s :: ids) w)
        as [(os & Hrun & Hmap) | (s' & _ & _ & Hrun)]; rewrite Hrun.
      + destruct (fails env OpNotificationFind (ticks w));
          [eexists; eexists; split; [reflexivity|]; simpl;
           split; [discriminate | reflexivity]|].
        destruct (length (filter (owned_in caller os) (notifications w))
                  =? length os) eqn:Hlen; simpl;
          [|eexists; eexists; split; [reflexivity|]; simpl;
            split; [discriminate | reflexivity]].
        apply Nat.eqb_eq in Hlen.
        destruct (fails env OpNotificationUpdate (S (ticks w)));
          [eexists; eexists; split; [reflexivity|]; simpl;
           split; [discriminate | reflexivity]|].
        eexists; eexists. split; [reflexivity|]. simpl. split.
        * intros _. exists os, (clock env (S (S (ticks w)))).
          split; [exact Hmap|]. split; [now apply owned_in_all|].
          split; [reflexivity|]. intros n'. apply marked_are_read.
        * congruence.
      + eexists; eexists. split; [reflexivity|]. simpl.
        split; [discriminate | reflexivity]. }
  destruct Hmain as (resp & w' & Hrun & Hok & Hko).
  exists resp, w'. split; [exact Hrun|]. split; [exact Hok|].
  split; [exact Hko|].
  intros (s & Hin & Hbad).
  assert (Hne : status resp <> 200).
  { intros H200. destruct (Hok H200) as (os & t & Hmap & Hall & _).
    destruct (parsed_member env ids os s Hmap Hin) as (o & Ho & Hino).
    unfold bad_id in Hbad. rewrite Ho in Hbad. apply Hbad.
    rewrite Forall_forall in Hall. now apply Hall. }
  split; [exact Hne | now apply Hko].
Qed.

(** Recipient 2 asks for its notifications 1 and 2 (granted), then for
    1 and recipient 3's notification 9 (refused, nothing marked). *)
Lemma C9_witness_granted_and_refused :
  let env := sample_env false no_faults in
  let w := sample_world five_unread_three_read in
  unique_ids w
  /\ (exists w', route_mark_read env 2 ["1"; "2"] w = (Ok (mark_read_done 2), w')
                 /\ unreadCount 2 w' = 3)
  /\ bad_id env 2 w "9"
  /\ (exists resp w',
        route_mark_read env 2 ["1"; "9"] w = (Ok resp, w')
        /\ status resp <> 200 /\ notifications w' = notifications w).
Proof.
  intros env w.
  assert (Hu : unique_ids w).
  { unfold unique_ids. vm_compute.
    repeat (constructor; [simpl; intuition discriminate|]). constructor. }
  assert (Hbad : bad_id env 2 w "9").
  { unfold bad_id. change (parseObjectId env "9") with (Some 9).
    intros (n & Hin & Hid & Huid). vm_compute in Hin.
    repeat (destruct Hin as [<-|Hin]; [discriminate|]). exact Hin. }
  split; [exact Hu|]. split; [eexists; split; reflexivity|].
  split; [exact Hbad|].
  destruct (C9_mark_read_is_all_or_nothing env 2 ["1"; "9"] w Hu)
    as (resp & w' & Hrun & _ & _ & Hrefused).
  exists resp, w'. split; [exact Hrun|].
  apply Hrefused. exists "9". split; [simpl; auto | exact Hbad].
Defined.

(** ** The answer of mark-read *)

(** A granted mark-read request answers with the number of ids it was
    sent. *)
Lemma route_mark_read_reports_request_length
    (env : Env) (caller : ObjectId) (ids : list string) (w w' : World)
    (resp : Response) :
  route_mark_read env caller ids w = (Ok resp, w') ->
  status resp = 200 ->
  resp = mark_read_done (length ids).
Proof.
  intros Hrun H200. destruct ids as [|s ids].
  - injection Hrun as <- _. discriminate.
  - rewrite route_mark_read_run in Hrun by discriminate.
    destruct (to_objectIds_run env (s :: ids) w)
      as [(os & Hto & Hmap) | (s' & _ & _ & Hto)]; rewrite Hto in Hrun.
    + apply (f_equal (@length _)) in Hmap. rewrite !length_map in Hmap.
      destruct (fails env OpNotificationFind (ticks w));
        [injection Hrun as <- _; discriminate|].
      destruct (negb (length (filter (owned_in caller os) (notifications w))
                      =? length os));
        [injection Hrun as <- _; discriminate|].
      destruct (fails env OpNotificationUpdate (S (ticks w)));
        injection Hrun as <- _; [discriminate|].
      now rewrite Hmap.
    + injection Hrun as <- _. discriminate.
Qed.

(** C4 on the code (Scenario C).  Recipient 2 has five unread and three
    read notifications and marks two unread ones (1, 2) and one already
    read (6): the route answers "3 notifications marked as read", the
    number of ids requested, although only two changed; the unread count
    goes from 5 to 3. *)
Theorem C4_scenario_C_reports_three :
  let env := sample_env false no_faults in
  let w := sample_world five_unread_three_read in
  exists w',
    route_mark_read env 2 ["1"; "2"; "6"] w
    = (Ok (json (JObj [("success", JBool true);
                       ("message", JStr "3 notifications marked as read")])),
       w')
    /\ unreadCount 2 w = 5
    /\ unreadCount 2 w' = 3
    /\ length (filter (fun n => id_in [1; 2; 6] n && negb (read n))
                      (notifications w)) = 2.
Proof.
  intros env w. eexists. split; [vm_compute; reflexivity|].
  repeat split.
Qed.

(** ** No probing of other recipients' ids *)

(** The delete route, branch by branch. *)
Lemma route_delete_notification_run (env : Env) (caller : ObjectId)
    (s : string) (w : World) :
  route_delete_notification env caller s w =
  match parseObjectId env s with
  | None =>
      (Ok (status_json 400 (JObj [("error", JStr "Invalid notification ID")])),
       w)
  | Some id =>
      if fails env OpNotificationFind (ticks w) then
        (Ok (delete_failed (StoreFailure OpNotificationFind)),
         push_console ("Error deleting notification: "
                       ++ error_message (StoreFailure OpNotificationFind))
                      (tick w))
      else
        match find (fun n => (_id n =? id) && (userId n =? caller))
                   (notifications w) with
        | None => (Ok delete_not_found, tick w)
        | Some _ =>
            if fails env OpNotificationDelete (S (ticks w)) then
              (Ok (delete_failed (StoreFailure OpNotificationDelete)),
               push_console
                 ("Error deleting notification: "
                  ++ error_message (StoreFailure OpNotificationDelete))
                 (tick (tick w)))
            else
              (Ok (json (JObj [("success", JBool true);
                               ("message",
                                JStr "Notification deleted successfully")])),
               set_notifications
                 (remove_first (fun n => _id n =? id) (notifications w))
                 (tick (tick w)))
        end
  end.
Proof.
  unfold route_delete_notification.
  destruct (parseObjectId env s) as [id|]; [|reflexivity].
  unfold Notification_findOne, Notification_findByIdAndDelete.
  unfold_async. rewrite io_run.
  destruct (fails env OpNotificationFind (ticks w)); [reflexivity|].
  cbn [fst snd notifications tick ticks].
  destruct (find _ (notifications w)); [|reflexivity].
  rewrite io_run. cbn [ticks tick].
  destruct (fails env OpNotificationDelete (S (ticks w))); reflexivity.
Qed.

Lemma find_none_iff {A : Type} (f : A -> bool) (l : list A) :
  (forall a, In a l -> f a = false) -> find f l = None.
Proof.
  induction l as [|a l IH]; intros H; simpl; [reflexivity|].
  rewrite (H a (or_introl eq_refl)). apply IH. intros b Hb. apply H. now right.
Qed.

(** Parsing a request in which one well-formed id replaces another:
    the same error, or the same ids but for the replaced one. *)
Lemma to_objectIds_swap (env : Env) (pre post : list string) (s1 s2 : string)
    (i1 i2 : ObjectId) (w : World) :
  parseObjectId env s1 = Some i1 ->
  parseObjectId env s2 = Some i2 ->
  (exists pre' post',
     to_objectIds env (pre ++ s1 :: post) w = (Ok (pre' ++ i1 :: post')%list, w)
     /\ to_objectIds env (pre ++ s2 :: post) w = (Ok (pre' ++ i2 :: post')%list, w)
     /\ map (parseObjectId env) (pre ++ post) = map Some (pre' ++ post'))
  \/ (exists e,
        to_objectIds env (pre ++ s1 :: post) w = (Throw e, w)
        /\ to_objectIds env (pre ++ s2 :: post) w = (Throw e, w)
        /\ exists s, In s (pre ++ post)%list /\ parseObjectId env s = None).
Proof.
  intros H1 H2. induction pre as [|s pre IH]; simpl.
  - rewrite H1, H2. unfold bind, ret.
    destruct (to_objectIds_run env post w)
      as [(os & -> & Hmap) | (s' & Hin & Hnone & ->)].
    + left. exists [], os. simpl. auto.
    + right. eexists. split; [reflexivity|]. split; [reflexivity|]. eauto.
  - destruct (parseObjectId env s) as [o|] eqn:Hs.
    + unfold bind, ret.
      destruct IH as [(pre' & post' & -> & -> & Hmap)
                     | (e & -> & -> & s' & Hin & Hnone)].
      * left. exists (o :: pre'), post'. simpl. now rewrite Hmap.
      * right. exists e. split; [reflexivity|]. split; [reflexivity|].
        exists s'. auto.
    + right. eexists. split; [reflexivity|]. split; [reflexivity|].
      exists s. auto.
Qed.

Lemma id_in_app (os1 os2 : list ObjectId) (i : ObjectId) (n : Notification) :
  id_in (os1 ++ i :: os2) n
  = (_id n =? i) || id_in (os1 ++ os2) n.
Proof.
  unfold id_in. rewrite !existsb_app. cbn [existsb].
  destruct (_id n =? i); cbn [orb]; [apply orb_true_r | reflexivity].
Qed.

(** An id that selects none of the caller's documents adds nothing to
    the ownership query. *)
Lemma owned_in_useless_id (caller i : ObjectId) (os1 os2 : list ObjectId)
    (l : list Notification) :
  (forall n, In n l -> _id n = i -> userId n <> caller) ->
  filter (owned_in caller (os1 ++ i :: os2)) l
  = filter (owned_in caller (os1 ++ os2)) l.
Proof.
  intros Hnone. induction l as [|n l IH]; simpl; [reflexivity|].
  rewrite IH by (intros m Hm; apply Hnone; now right).
  assert (Heq : owned_in caller (os1 ++ i :: os2) n
                = owned_in caller (os1 ++ os2) n).
  { unfold owned_in. rewrite id_in_app.
    destruct (_id n =? i) eqn:Hi; [|reflexivity].
    apply Nat.eqb_eq in Hi.
    assert (Hu : (userId n =? caller) = false)
      by (apply Nat.eqb_neq; apply Hnone; [now left | exact Hi]).
    rewrite Hu, !andb_false_r. reflexivity. }
  now rewrite Heq.
Qed.

Lemma mark_read_swap_rejected (env : Env) (caller i : ObjectId)
    (os1 os2 : list ObjectId) (w : World) :
  unique_ids w ->
  (forall n, In n (notifications w) -> _id n = i -> userId n <> caller) ->
  negb (length (filter (owned_in caller (os1 ++ i :: os2)) (notifications w))
        =? length (os1 ++ i :: os2)) = true.
Proof.
  intros Hu Hnone. rewrite owned_in_useless_id by exact Hnone.
  pose proof (owned_in_bound caller (os1 ++ os2) (notifications w) Hu) as Hb.
  apply negb_true_iff, Nat.eqb_neq.
  rewrite !length_app in *. simpl. lia.
Qed.

(** C2.  For a caller, an id [s1] of a notification stored for someone
    else and an id [s2] stored for nobody are interchangeable: the
    delete route gives the same answer and leaves the same state for
    both, and so does the mark-read route for any request in which one
    replaces the other.  When the lookup goes through, that answer is
    the route's refusal for an id that is unknown or not the caller's:
    404 "Notification not found or does not belong to you" from delete,
    403 "Some notifications do not belong to you or do not exist" from
    mark-read, with nothing changed in the store. *)
Theorem C2_foreign_id_answers_as_missing_id
    (env : Env) (caller : ObjectId) (w : World) (s1 s2 : string)
    (i1 i2 : ObjectId) (n1 : Notification) (pre post : list string) :
  unique_ids w ->
  parseObjectId env s1 = Some i1 ->
  In n1 (notifications w) -> _id n1 = i1 -> userId n1 <> caller ->
  parseObjectId env s2 = Some i2 ->
  (forall n, In n (notifications w) -> _id n <> i2) ->
  route_delete_notification env caller s1 w
  = route_delete_notification env caller s2 w
  /\ route_mark_read env caller (pre ++ s1 :: post) w
     = route_mark_read env caller (pre ++ s2 :: post) w
  /\ (fails env OpNotificationFind (ticks w) = false ->
      route_delete_notification env caller s1 w = (Ok delete_not_found, tick w)
      /\ (Forall (fun s => parseObjectId env s <> None) (pre ++ post) ->
          route_mark_read env caller (pre ++ s1 :: post) w
          = (Ok mark_read_rejected, tick w))).
Proof.
  intros Hu Hs1 Hin1 Hid1 Hown1 Hs2 Hfresh.
  assert (Hforeign : forall n, In n (notifications w) -> _id n = i1 ->
                               userId n <> caller).
  { intros n Hn Hid.
    rewrite (same_id_same_document (notifications w) n n1 Hu Hn Hin1)
      by congruence. exact Hown1. }
  assert (Hmissing : forall n, In n (notifications w) -> _id n = i2 ->
                               userId n <> caller).
  { intros n Hn Hid. exfalso. exact (Hfresh n Hn Hid). }
  assert (Hfind : forall i,
             (forall n, In n (notifications w) -> _id n = i ->
                        userId n <> caller) ->
             find (fun n => (_id n =? i) && (userId n =? caller))
                  (notifications w) = None).
  { intros i Hi. apply find_none_iff. intros n Hn.
    destruct (_id n =? i) eqn:Hid; [|reflexivity].
    apply Nat.eqb_eq in Hid. simpl. apply Nat.eqb_neq. now apply Hi. }
  assert (Hdel : forall s i,
             parseObjectId env s = Some i ->
             (forall n, In n (notifications w) -> _id n = i ->
                        userId n <> caller) ->
             route_delete_notification env caller s w =
             if fails env OpNotificationFind (ticks w) then
               (Ok (delete_failed (StoreFailure OpNotificationFind)),
                push_console
                  ("Error deleting notification: "
                   ++ error_message (StoreFailure OpNotificationFind))
                  (tick w))
             else (Ok delete_not_found, tick w)).
  { intros s i Hs Hi. rewrite route_delete_notification_run, Hs.
    now rewrite (Hfind i Hi). }
  assert (Hne : forall s, (pre ++ s :: post)%list <> [])
    by (intros s; destruct pre; discriminate).
  split; [now rewrite (Hdel s1 i1), (Hdel s2 i2)|].
  split.
  - rewrite !route_mark_read_run by apply Hne.
    destruct (to_objectIds_swap env pre post s1 s2 i1 i2 w Hs1 Hs2)
      as [(pre' & post' & -> & -> & _) | (e & -> & -> & _)]; [|reflexivity].
    destruct (fails env OpNotificationFind (ticks w)); [reflexivity|].
    now rewrite !mark_read_swap_rejected.
  - intros Hf. split; [now rewrite (Hdel s1 i1), Hf|].
    intros Hparse. rewrite route_mark_read_run by apply Hne.
    destruct (to_objectIds_swap env pre post s1 s2 i1 i2 w Hs1 Hs2)
      as [(pre' & post' & -> & _ & _) | (e & _ & _ & s & Hin & Hnone)].
    + rewrite Hf. now rewrite mark_read_swap_rejected.
    + rewrite Forall_forall in Hparse. now destruct (Hparse s Hin).
Qed.

(** Recipient 2 probes id 9 (stored for recipient 3) and id 77 (stored
    for nobody). *)
Lemma C2_witness_probe :
  let env := sample_env false no_faults in
  let w := sample_world five_unread_three_read in
  (unique_ids w /\ In (sample_notification 9 3 false) (notifications w)
   /\ (forall n, In n (notifications w) -> _id n <> 77))
  /\ route_delete_notification env 2 "9" w
     = route_delete_notification env 2 "77" w
  /\ route_mark_read env 2 ["1"; "9"] w = route_mark_read env 2 ["1"; "77"] w
  /\ route_delete_notification env 2 "9" w = (Ok delete_not_found, tick w)
  /\ route_mark_read env 2 ["1"; "9"] w = (Ok mark_read_rejected, tick w).
Proof.
  intros env w.
  assert (Hu : unique_ids w).
  { unfold unique_ids. vm_compute.
    repeat (constructor; [simpl; intuition discriminate|]). constructor. }
  assert (Hin : In (sample_notification 9 3 false) (notifications w))
    by (vm_compute; intuition).
  assert (Hfresh : forall n, In n (notifications w) -> _id n <> 77).
  { intros n Hn. vm_compute in Hn.
    repeat (destruct Hn as [<-|Hn]; [discriminate|]). contradiction. }
  split; [auto|].
  destruct (C2_foreign_id_answers_as_missing_id env 2 w "9" "77" 9 77
              (sample_notification 9 3 false) ["1"] [] Hu eq_refl Hin eq_refl
              ltac:(discriminate) eq_refl Hfresh)
    as (Hdel & Hmark & Hnf).
  destruct (Hnf eq_refl) as (Hd404 & Hm403).
  split; [exact Hdel|]. split; [exact Hmark|]. split; [exact Hd404|].
  apply Hm403. repeat constructor; discriminate.
Defined.

(** ** The two flags only go up *)

Lemma later_state_refl (n : Notification) : later_state n n.
Proof. unfold later_state. repeat split; auto. Qed.

Lemma later_state_trans (a b c : Notification) :
  later_state a b -> later_state b c -> later_state a c.
Proof.
  unfold later_state.
  intros (A1 & A2 & A3 & A4 & A5 & A6 & A7 & A8 & A9)
         (B1 & B2 & B3 & B4 & B5 & B6 & B7 & B8 & B9).
  repeat split; try congruence; auto.
Qed.

Lemma evolves_refl (w : World) : evolves w w.
Proof.
  split; [lia|]. intros n Hn. left. exists n. split; [exact Hn|].
  apply later_state_refl.
Qed.

Lemma evolves_trans (w1 w2 w3 : World) :
  evolves w1 w2 -> evolves w2 w3 -> evolves w1 w3.
Proof.
  intros [Hle12 H12] [Hle23 H23]. split; [lia|].
  intros n3 Hn3. destruct (H23 n3 Hn3) as [(n2 & Hn2 & Hl23) | Hfresh].
  - destruct (H12 n2 Hn2) as [(n1 & Hn1 & Hl12) | Hfresh].
    + left. exists n1. split; [exact Hn1|].
      eapply later_state_trans; eauto.
    + right. destruct Hl23 as (Hid & _). lia.
  - right. lia.
Qed.

Lemma frame_step (w w' : World) :
  notifications w' = notifications w -> nextId w' = nextId w ->
  well_formed w -> well_formed w' /\ evolves w w'.
Proof.
  intros Hn Hi [Hu Hb]. split.
  - split; [unfold unique_ids; now rewrite Hn | now rewrite Hn, Hi].
  - split; [lia|]. intros n' Hn'. rewrite Hn in Hn'. left. exists n'.
    split; [exact Hn' | apply later_state_refl].
Qed.

(** Anything that leaves the collection and the allocator alone. *)
Lemma preserves_frame {A : Type} (c : M A) :
  (forall w, notifications (snd (c w)) = notifications w
             /\ nextId (snd (c w)) = nextId w) ->
  preserves c.
Proof.
  intros H w Hw. destruct (H w) as [Hn Hi]. now apply frame_step.
Qed.

Lemma preserves_ret {A : Type} (a : A) : preserves (ret a).
Proof. apply preserves_frame. intros w. split; reflexivity. Qed.

Lemma preserves_throw {A : Type} (e : Error) : preserves (@throw A e).
Proof. apply preserves_frame. intros w. split; reflexivity. Qed.

Lemma preserves_io (env : Env) (op : IoOp) : preserves (io env op).
Proof.
  apply preserves_frame. intros w. rewrite io_run. split; reflexivity.
Qed.

Lemma preserves_console_error (prefix : string) (e : Error) :
  preserves (console_error prefix e).
Proof. apply preserves_frame. intros w. split; reflexivity. Qed.

Lemma preserves_bind {A B : Type} (c : M A) (k : A -> M B) :
  preserves c -> (forall a, preserves (k a)) -> preserves (bind c k).
Proof.
  intros Hc Hk w Hw. unfold bind. destruct (Hc w Hw) as [Hw1 He1].
  destruct (c w) as [[a|e] w1]; simpl in *; [|now split].
  destruct (Hk a w1 Hw1) as [Hw2 He2]. split; [exact Hw2|].
  eapply evolves_trans; eauto.
Qed.

Lemma preserves_try_catch {A : Type} (c : M A) (h : Error -> M A) :
  preserves c -> (forall e, preserves (h e)) -> preserves (try_catch c h).
Proof.
  intros Hc Hh w Hw. unfold try_catch. destruct (Hc w Hw) as [Hw1 He1].
  destruct (c w) as [[a|e] w1]; simpl in *; [now split|].
  destruct (Hh e w1 Hw1) as [Hw2 He2]. split; [exact Hw2|].
  eapply evolves_trans; eauto.
Qed.

Lemma preserves_when (b : bool) (c : M unit) :
  preserves c -> preserves (when b c).
Proof. intros Hc. destruct b; [exact Hc | apply preserves_ret]. Qed.

(** Reads. *)
Lemma preserves_read {A : Type} (env : Env) (op : IoOp) (f : World -> A) :
  preserves (io env op ;; w <- get ;; ret (f w)).
Proof.
  apply preserves_frame. intros w. unfold_async. rewrite io_run.
  destruct (fails env op (ticks w)); split; reflexivity.
Qed.

Lemma preserves_Notification_create (env : Env) (uid : ObjectId)
    (ty : NotificationType) (ttl msg : string) (pl : NotificationPayload)
    (rd es : bool) :
  preserves (Notification_create env uid ty ttl msg pl rd es).
Proof.
  intros w Hw. rewrite Notification_create_run.
  destruct (negb (required ttl)); [now apply frame_step|].
  destruct (negb (required msg)); [now apply frame_step|].
  destruct (fails env OpNotificationCreate (ticks w));
    [now apply frame_step|].
  destruct Hw as [Hu Hb].
  simpl. split; [split|split].
  - unfold unique_ids in *. simpl. rewrite map_app. simpl.
    apply NoDup_app; [exact Hu | repeat constructor; auto |].
    intros i Hi [<-|[]]. apply in_map_iff in Hi.
    destruct Hi as (n & Hid & Hn). rewrite Forall_forall in Hb.
    specialize (Hb n Hn). lia.
  - simpl. apply Forall_app. split.
    + eapply Forall_impl; [|exact Hb]. simpl. intros; lia.
    + repeat constructor.
  - simpl. lia.
  - simpl. intros n' Hn'. apply in_app_iff in Hn'.
    destruct Hn' as [Hn'|[<-|[]]].
    + left. exists n'. split; [exact Hn' | apply later_state_refl].
    + right. simpl. lia.
Qed.

(** Updates that rewrite documents in place. *)
Lemma preserves_rewrite (w : World) (l' : list Notification) :
  well_formed w ->
  map _id l' = map _id (notifications w) ->
  (forall n', In n' l' -> exists n, In n (notifications w) /\ later_state n n') ->
  forall w', notifications w' = l' -> nextId w' = nextId w ->
  well_formed w' /\ evolves w w'.
Proof.
  intros [Hu Hb] Hids Hlater w' Hn Hi. split; [split|split].
  - unfold unique_ids in *. now rewrite Hn, Hids.
  - rewrite Hn, Hi. apply Forall_forall. intros n' Hn'.
    destruct (Hlater n' Hn') as (n & Hin & Hid & _).
    rewrite Forall_forall in Hb. rewrite Hid. now apply Hb.
  - lia.
  - intros n' Hn'. rewrite Hn in Hn'. left. now apply Hlater.
Qed.

Lemma later_state_mark_read (t : nat) (n : Notification) :
  later_state n (mark_read_at t n).
Proof. unfold later_state. simpl. repeat split; auto. Qed.

Lemma later_state_mark_emailSent (t : nat) (n : Notification) :
  later_state n (mark_emailSent_at t n).
Proof. unfold later_state. simpl. repeat split; auto. Qed.

Lemma preserves_updateMany_read (env : Env) (q : Notification -> bool) :
  preserves (Notification_updateMany_read env q).
Proof.
  intros w Hw. unfold Notification_updateMany_read. unfold_async.
  rewrite io_run.
  destruct (fails env OpNotificationUpdate (ticks w)); simpl.
  - now apply frame_step.
  - apply (preserves_rewrite w
             (map (fun n => if q n
                            then mark_read_at (clock env (S (ticks w))) n
                            else n)
                  (notifications w)));
      [exact Hw | | | reflexivity | reflexivity].
    + rewrite map_map. apply map_ext. intros n. now destruct (q n).
    + intros n' Hn'. apply in_map_iff in Hn'. destruct Hn' as (n & <- & Hn).
      exists n. split; [exact Hn|].
      destruct (q n); [apply later_state_mark_read | apply later_state_refl].
Qed.

Lemma update_first_ids (p : Notification -> bool) (t : nat)
    (l : list Notification) :
  map _id (update_first p (mark_emailSent_at t) l) = map _id l.
Proof.
  induction l as [|n l IH]; simpl; [reflexivity|].
  destruct (p n); simpl; [reflexivity | now rewrite IH].
Qed.

Lemma update_first_later (p : Notification -> bool) (t : nat)
    (l : list Notification) (n' : Notification) :
  In n' (update_first p (mark_emailSent_at t) l) ->
  exists n, In n l /\ later_state n n'.
Proof.
  induction l as [|m l IH]; simpl; [contradiction|].
  destruct (p m); simpl.
  - intros [<-|Hn'].
    + exists m. split; [now left | apply later_state_mark_emailSent].
    + exists n'. split; [now right | apply later_state_refl].
  - intros [<-|Hn'].
    + exists m. split; [now left | apply later_state_refl].
    + destruct (IH Hn') as (n & Hn & Hl). exists n. split; [now right | exact Hl].
Qed.

Lemma preserves_findByIdAndUpdate_emailSent (env : Env) (id : ObjectId) :
  preserves (Notification_findByIdAndUpdate_emailSent env id).
Proof.
  intros w Hw. unfold Notification_findByIdAndUpdate_emailSent. unfold_async.
  rewrite io_run.
  destruct (fails env OpNotificationUpdate (ticks w)); simpl.
  - now apply frame_step.
  - apply (preserves_rewrite w
             (update_first (fun n => _id n =? id)
                (mark_emailSent_at (clock env (S (ticks w))))
                (notifications w)));
      [exact Hw | | | reflexivity | reflexivity].
    + apply update_first_ids.
    + apply update_first_later.
Qed.

Lemma remove_first_In {A : Type} (p : A -> bool) (l : list A) (a : A) :
  In a (remove_first p l) -> In a l.
Proof.
  induction l as [|b l IH]; simpl; [auto|].
  destruct (p b); simpl; [auto|]. intros [->|H]; auto.
Qed.

Lemma remove_first_NoDup {A B : Type} (g : A -> B) (p : A -> bool)
    (l : list A) :
  NoDup (map g l) -> NoDup (map g (remove_first p l)).
Proof.
  induction l as [|b l IH]; simpl; intros Hnd; [exact Hnd|].
  inversion Hnd as [|? ? Hnotin Hnd']; subst.
  destruct (p b); simpl; [exact Hnd'|].
  constructor; [|now apply IH].
  intros Hin. apply Hnotin. apply in_map_iff in Hin.
  destruct Hin as (a & Ha & Hin). apply in_map_iff. exists a.
  split; [exact Ha | eapply remove_first_In; eauto].
Qed.

Lemma preserves_findByIdAndDelete (env : Env) (id : ObjectId) :
  preserves (Notification_findByIdAndDelete env id).
Proof.
  intros w Hw. unfold Notification_findByIdAndDelete. unfold_async.
  rewrite io_run.
  destruct (fails env OpNotificationDelete (ticks w)); simpl.
  - now apply frame_step.
  - destruct Hw as [Hu Hb]. split; [split|split]; simpl.
    + unfold unique_ids in *. simpl. now apply remove_first_NoDup.
    + apply Forall_forall. intros n Hn. apply remove_first_In in Hn.
      rewrite Forall_forall in Hb. now apply Hb.
    + lia.
    + intros n' Hn'. apply remove_first_In in Hn'. left. exists n'.
      split; [exact Hn' | apply later_state_refl].
Qed.

Ltac frame_op :=
  apply preserves_frame; intros ?w; unfold_async; rewrite ?io_run;
  repeat match goal with
         | |- context [fails ?e ?op ?t] => destruct (fails e op t)
         | |- context [if ?b then _ else _] => destruct b
         end;
  split; reflexivity.

Lemma preserves_User_findById (env : Env) (id : ObjectId) :
  preserves (User_findById env id).
Proof. apply preserves_read. Qed.

Lemma preserves_Trip_findById_populate (env : Env) (id : ObjectId) :
  preserves (Trip_findById_populate env id).
Proof. unfold Trip_findById_populate. frame_op. Qed.

Lemma preserves_Notification_find (env : Env) (q : Notification -> bool) :
  preserves (Notification_find env q).
Proof. apply preserves_read. Qed.

Lemma preserves_Notification_findOne (env : Env) (q : Notification -> bool) :
  preserves (Notification_findOne env q).
Proof. apply preserves_read. Qed.

Lemma preserves_Notification_countDocuments (env : Env)
    (q : Notification -> bool) :
  preserves (Notification_countDocuments env q).
Proof. apply preserves_read. Qed.

Lemma preserves_Notification_find_page (env : Env) (q : Notification -> bool)
    (s l : Z) :
  preserves (Notification_find_page env q s l).
Proof. unfold Notification_find_page. frame_op. Qed.

Lemma preserves_Trip_save (env : Env) (t : Trip) : preserves (Trip_save env t).
Proof. unfold Trip_save. frame_op. Qed.

Lemma preserves_Trip_findByIdAndDelete (env : Env) (id : ObjectId) :
  preserves (Trip_findByIdAndDelete env id).
Proof. unfold Trip_findByIdAndDelete. frame_op. Qed.

Lemma preserves_Trip_findById (env : Env) (id : ObjectId) :
  preserves (Trip_findById env id).
Proof. apply preserves_read. Qed.

Lemma preserves_Trip_findByIdAndUpdate (env : Env) (id : ObjectId)
    (new_title : option string) (new_capacity : option nat) :
  preserves (Trip_findByIdAndUpdate env id new_title new_capacity).
Proof. unfold Trip_findByIdAndUpdate. frame_op. Qed.

Lemma preserves_requireRole (roles : list Role) (role : Role)
    (next : M Response) :
  preserves next -> preserves (requireRole roles role next).
Proof.
  intros H. unfold requireRole.
  destruct (negb (existsb (Role_eqb role) roles));
    [apply preserves_frame; intros w; split; reflexivity | exact H].
Qed.

Lemma preserves_sendMail (env : Env) (m : Mail) : preserves (sendMail env m).
Proof. unfold sendMail. frame_op. Qed.

Lemma preserves_push_emitted (e : SocketEvent) :
  preserves (modify (push_emitted e)).
Proof. frame_op. Qed.

Lemma preserves_to_objectIds (env : Env) (ids : list string) :
  preserves (to_objectIds env ids).
Proof.
  apply preserves_frame. intros w.
  destruct (to_objectIds_run env ids w) as [(os & -> & _) | (s & _ & _ & ->)];
    split; reflexivity.
Qed.

Lemma preserves_cast_id (env : Env) (param : string) :
  preserves (cast_id env param).
Proof.
  unfold cast_id. destruct (parseObjectId env param);
    [apply preserves_ret | apply preserves_throw].
Qed.

(** Composite code is handled by structure. *)
Ltac preserve_step :=
  lazymatch goal with
  | |- preserves (ret _) => apply preserves_ret
  | |- preserves (throw _) => apply preserves_throw
  | |- preserves (io _ _) => apply preserves_io
  | |- preserves (console_error _ _) => apply preserves_console_error
  | |- preserves (Notification_create _ _ _ _ _ _ _ _) =>
      apply preserves_Notification_create
  | |- preserves (Notification_updateMany_read _ _) =>
      apply preserves_updateMany_read
  | |- preserves (Notification_findByIdAndUpdate_emailSent _ _) =>
      apply preserves_findByIdAndUpdate_emailSent
  | |- preserves (Notification_findByIdAndDelete _ _) =>
      apply preserves_findByIdAndDelete
  | |- preserves (User_findById _ _) => apply preserves_User_findById
  | |- preserves (Trip_findById_populate _ _) =>
      apply preserves_Trip_findById_populate
  | |- preserves (Notification_find _ _) => apply preserves_Notification_find
  | |- preserves (Notification_findOne _ _) =>
      apply preserves_Notification_findOne
  | |- preserves (Notification_countDocuments _ _) =>
      apply preserves_Notification_countDocuments
  | |- preserves (Notification_find_page _ _ _ _) =>
      apply preserves_Notification_find_page
  | |- preserves (Trip_save _ _) => apply preserves_Trip_save
  | |- preserves (Trip_findById _ _) => apply preserves_Trip_findById
  | |- preserves (Trip_findByIdAndUpdate _ _ _ _) =>
      apply preserves_Trip_findByIdAndUpdate
  | |- preserves (requireRole _ _ _) => apply preserves_requireRole
  | |- preserves (Trip_findByIdAndDelete _ _) =>
      apply preserves_Trip_findByIdAndDelete
  | |- preserves (sendMail _ _) => apply preserves_sendMail
  | |- preserves (modify (push_emitted _)) => apply preserves_push_emitted
  | |- preserves (to_objectIds _ _) => apply preserves_to_objectIds
  | |- preserves (cast_id _ _) => apply preserves_cast_id
  | |- preserves (when _ _) => apply preserves_when
  | |- preserves (bind _ _) => apply preserves_bind; [|intro]
  | |- preserves (try_catch _ _) => apply preserves_try_catch; [|intro]
  | |- preserves (match ?x with _ => _ end) => destruct x
  end.

Ltac preserve := repeat preserve_step.

Lemma preserves_sendEmailNotification (env : Env) (n : Notification) :
  preserves (sendEmailNotification env n).
Proof. unfold sendEmailNotification. preserve. Qed.

Lemma preserves_createNotification (env : Env) (d : NotificationData) :
  preserves (createNotification env d).
Proof.
  unfold createNotification. preserve.
  apply preserves_sendEmailNotification.
Qed.

Lemma preserves_fan_out (env : Env) (ds : list NotificationData) :
  preserves (Promise_all_createNotification env ds).
Proof.
  induction ds as [|d ds IH]; [apply preserves_ret|].
  intros w Hw. cbn [Promise_all_createNotification].
  destruct (preserves_createNotification env d w Hw) as [Hw1 He1].
  destruct (createNotification env d w) as [[n|e] w1]; cbn [snd] in *.
  - destruct (IH w1 Hw1) as [Hw2 He2].
    destruct (Promise_all_createNotification env ds w1) as [[l|e'] w2];
      cbn [snd] in *; (split; [exact Hw2 | eapply evolves_trans; eauto]).
  - destruct (frame_step w1 (set_in_flight (in_flight w1 ++ ds) w1)
                eq_refl eq_refl Hw1) as [Hw2 He2].
    split; [exact Hw2 | eapply evolves_trans; eauto].
Qed.

(** The creates in flight settle like any other create. *)
Lemma settle_preserves (env : Env) (w : World) :
  well_formed w -> well_formed (settle env w) /\ evolves w (settle env w).
Proof.
  intros Hw. unfold settle.
  destruct (frame_step w (set_in_flight [] w) eq_refl eq_refl Hw)
    as [Hw0 He0].
  revert Hw0 He0. generalize (set_in_flight [] w) as v.
  induction (in_flight w) as [|d ds IH]; intros v Hv Hev; [now split|].
  cbn [run_in_flight].
  destruct (preserves_createNotification env d v Hv) as [Hv1 He1].
  apply IH; [exact Hv1 | eapply evolves_trans; eauto].
Qed.

Lemma preserves_notifyTripJoin (env : Env) (tid : ObjectId) (name : string)
    (uid : ObjectId) :
  preserves (notifyTripJoin env tid name uid).
Proof.
  unfold notifyTripJoin, notifyTripJoin_try. preserve.
  apply preserves_createNotification.
Qed.

Lemma preserves_notifyTripLeave (env : Env) (tid : ObjectId) (name : string)
    (uid : ObjectId) :
  preserves (notifyTripLeave env tid name uid).
Proof.
  unfold notifyTripLeave, notifyTripLeave_try. preserve.
  apply preserves_createNotification.
Qed.

Lemma preserves_notifyTripDeleted (env : Env) (tid : ObjectId) (ttl : string)
    (ps : list ObjectId) (org : string) :
  preserves (notifyTripDeleted env tid ttl ps org).
Proof.
  unfold notifyTripDeleted, notifyTripDeleted_try. preserve.
  apply preserves_fan_out.
Qed.

Lemma preserves_notifyTripUpdate (env : Env) (tid : ObjectId) (ttl : string)
    (ps : list ObjectId) (org : string) (changes : list string) :
  preserves (notifyTripUpdate env tid ttl ps org changes).
Proof.
  unfold notifyTripUpdate, notifyTripUpdate_try. preserve.
  apply preserves_fan_out.
Qed.

Lemma preserves_getUserNotifications (env : Env) (uid : ObjectId)
    (page limit : Z) :
  preserves (getUserNotifications env uid page limit).
Proof. unfold getUserNotifications, getUnreadCount. preserve. Qed.

(** Every entry point keeps the world well formed and moves it forward. *)
Lemma run_preserves (env : Env) (c : Call) (w : World) :
  well_formed w -> well_formed (run env c w) /\ evolves w (run env c w).
Proof.
  revert w.
  destruct c; simpl;
    try match goal with
        | |- forall w, well_formed w -> well_formed (snd (?f w)) /\ _ =>
            change (preserves f)
        end.
  - apply preserves_createNotification.
  - apply preserves_sendEmailNotification.
  - apply preserves_notifyTripJoin.
  - apply preserves_notifyTripLeave.
  - apply preserves_notifyTripDeleted.
  - apply preserves_notifyTripUpdate.
  - apply (preserves_Notification_countDocuments env).
  - unfold markAsRead. preserve.
  - apply preserves_getUserNotifications.
  - unfold route_get_notifications. preserve.
    apply preserves_getUserNotifications.
  - unfold route_unread_count, getUnreadCount. preserve.
  - unfold route_mark_read, markAsRead. preserve.
  - unfold route_mark_all_read. preserve.
  - unfold route_delete_notification. preserve.
  - unfold route_test_notification. preserve.
    apply preserves_createNotification.
  - unfold route_trip_join. preserve.
    apply preserves_notifyTripJoin.
  - unfold route_trip_leave. preserve.
    apply preserves_notifyTripLeave.
  - unfold route_trip_delete. preserve.
    apply preserves_notifyTripDeleted.
  - unfold route_trip_update. preserve.
  - apply settle_preserves.
Qed.

(** Unique ids are an invariant of the pipeline. *)
Lemma reachable_well_formed (env : Env) (w : World) :
  reachable env w -> well_formed w.
Proof.
  induction 1 as [w Hempty | w c _ IH].
  - split; [unfold unique_ids|]; rewrite Hempty; constructor.
  - now apply run_preserves.
Qed.

Lemma one_fresh_well_formed : well_formed one_fresh.
Proof.
  split.
  - unfold unique_ids. simpl. repeat constructor. intros [].
  - simpl. repeat constructor.
Qed.

(** C7.  [read] and [emailSent] are monotonic and independent.  The
    insert of [createNotification] stores both as [false]; across every
    entry point of the pipeline (create, email dispatch, the event
    builders, mark-read, mark-all-read, delete, the queries and the trip
    routes) a notification that is still stored keeps its identity,
    recipient and content, and a flag that was [true] stays [true]; and
    either flag can be raised while the other stays down. *)
Theorem C7_read_and_emailSent_only_go_up :
  (forall env d w n w1,
      Notification_create env (nd_userId d) (nd_type d) (nd_title d)
        (nd_message d) (payload_of d) false false w = (Ok n, w1) ->
      read n = false /\ emailSent n = false
      /\ notifications w1 = (notifications w ++ [n])%list
      /\ fst (createNotification env d w) = Ok n)
  /\ (forall env c w,
        well_formed w ->
        well_formed (run env c w)
        /\ forall n n',
             In n (notifications w) ->
             In n' (notifications (run env c w)) ->
             _id n' = _id n ->
             later_state n n')
  /\ (exists env c n',
        In n' (notifications (run env c one_fresh))
        /\ _id n' = 1 /\ read n' = true /\ emailSent n' = false)
  /\ (exists env c n',
        In n' (notifications (run env c one_fresh))
        /\ _id n' = 1 /\ read n' = false /\ emailSent n' = true).
Proof.
  split; [|split; [|split]].
  - intros env d w n w1 Hins.
    destruct (createNotification_after_insert env d w w1 n Hins)
      as (w' & Hrun & _).
    rewrite Hrun. rewrite Notification_create_run in Hins.
    destruct (negb (required (nd_title d))); [discriminate|].
    destruct (negb (required (nd_message d))); [discriminate|].
    destruct (fails env OpNotificationCreate (ticks w)); [discriminate|].
    injection Hins as <- <-. repeat split.
  - intros env c w Hw.
    destruct (run_preserves env c w Hw) as [Hw' [_ Hev]].
    split; [exact Hw'|]. intros n n' Hn Hn' Hid.
    destruct (Hev n' Hn') as [(n0 & Hn0 & Hlater) | Hfresh].
    + assert (n0 = n) as <-.
      { destruct Hw as [Hu _]. apply (same_id_same_document _ _ _ Hu Hn0 Hn).
        destruct Hlater as (Hid0 & _). congruence. }
      exact Hlater.
    + destruct Hw as [_ Hb]. rewrite Forall_forall in Hb.
      specialize (Hb n Hn). lia.
  - exists (sample_env true no_faults), (PutMarkAllRead 2).
    eexists. split; [vm_compute; left; reflexivity|]. repeat split.
  - exists (sample_env true no_faults),
      (CallSendEmailNotification (sample_notification 1 2 false)).
    eexists. split; [vm_compute; left; reflexivity|]. repeat split.
Qed.

(** Recipient 2 marks everything read: notification 1 goes from unread
    to read and is otherwise the same document. *)
Lemma C7_witness_mark_all_read :
  well_formed one_fresh
  /\ later_state (sample_notification 1 2 false)
       (mark_read_at 1 (sample_notification 1 2 false)).
Proof.
  split; [exact one_fresh_well_formed|].
  destruct C7_read_and_emailSent_only_go_up as (_ & Hmono & _).
  destruct (Hmono (sample_env true no_faults) (PutMarkAllRead 2) one_fresh
              one_fresh_well_formed) as [_ Hlater].
  apply Hlater; [left; reflexivity | left; reflexivity | reflexivity].
Defined.

(** ** The event builders never raise *)

Lemma Trip_findById_populate_run (env : Env) (id : ObjectId) (w : World) :
  Trip_findById_populate env id w =
  (if fails env OpTripFind (ticks w) then Throw (StoreFailure OpTripFind)
   else Ok (match find (fun t => trip_id t =? id) (trips w) with
            | None => None
            | Some t =>
                Some (t, find (fun u => user_id u =? trip_organizerId t)
                              (users w))
            end),
   tick w).
Proof.
  unfold Trip_findById_populate. unfold_async. rewrite io_run.
  destruct (fails env OpTripFind (ticks w)); reflexivity.
Qed.

Lemma notifyTripJoin_never_throws (env : Env) (tid : ObjectId) (name : string)
    (uid : ObjectId) (w : World) :
  exists w', notifyTripJoin env tid name uid w = (Ok tt, w').
Proof. apply try_catch_never_throws. Qed.

Lemma notifyTripLeave_never_throws (env : Env) (tid : ObjectId) (name : string)
    (uid : ObjectId) (w : World) :
  exists w', notifyTripLeave env tid name uid w = (Ok tt, w').
Proof. apply try_catch_never_throws. Qed.

Lemma notifyTripDeleted_never_throws (env : Env) (tid : ObjectId)
    (ttl : string) (ps : list ObjectId) (org : string) (w : World) :
  exists w', notifyTripDeleted env tid ttl ps org w = (Ok tt, w').
Proof. apply try_catch_never_throws. Qed.

Lemma notifyTripUpdate_never_throws (env : Env) (tid : ObjectId)
    (ttl : string) (ps : list ObjectId) (org : string) (changes : list string)
    (w : World) :
  exists w', notifyTripUpdate env tid ttl ps org changes w = (Ok tt, w').
Proof. apply try_catch_never_throws. Qed.

(** A builder logs what its [try] block throws. *)
Lemma builder_logs (c : M unit) (prefix : string) (w w1 : World) (e : Error) :
  c w = (Throw e, w1) ->
  try_catch c (fun error => console_error prefix error) w
  = (Ok tt, push_console (prefix ++ " " ++ error_message e) w1).
Proof.
  intros H. pose proof (try_catch_logs c prefix w) as Hl.
  now rewrite H in Hl.
Qed.

(** Without the trip, join and leave builders stop after the lookup. *)
Lemma notify_without_trip (env : Env) (tid : ObjectId) (name : string)
    (uid : ObjectId) (w : World) :
  find (fun t => trip_id t =? tid) (trips w) = None ->
  let stopped prefix :=
    if fails env OpTripFind (ticks w)
    then (Ok tt, push_console (prefix ++ " " ++ error_message (StoreFailure OpTripFind))
                              (tick w))
    else (Ok tt, tick w) in
  notifyTripJoin env tid name uid w = stopped "Error notifying trip join:"
  /\ notifyTripLeave env tid name uid w = stopped "Error notifying trip leave:".
Proof.
  intros Hnone stopped. subst stopped.
  unfold notifyTripJoin, notifyTripJoin_try, notifyTripLeave,
    notifyTripLeave_try, try_catch, bind.
  rewrite Trip_findById_populate_run, Hnone.
  destruct (fails env OpTripFind (ticks w)); split; reflexivity.
Qed.

Lemma member_iff (uid : ObjectId) (ps : list ObjectId) :
  existsb (Nat.eqb uid) ps = true <-> In uid ps.
Proof.
  rewrite existsb_exists. split.
  - intros (x & Hx & He). apply Nat.eqb_eq in He. now subst x.
  - intros H. exists uid. split; [exact H | apply Nat.eqb_refl].
Qed.

(** The join route, branch by branch. *)
Lemma route_trip_join_run (env : Env) (uid : ObjectId) (param : string)
    (w : World) :
  route_trip_join env uid param w =
  let failed (e : Error) (w0 : World) :=
    (Ok (trip_error 500 "Server error"),
     push_console ("Error joining trip: " ++ error_message e) w0) in
  match parseObjectId env param with
  | None => failed (InvalidId "Cast to ObjectId failed") w
  | Some id =>
      if fails env OpTripFind (ticks w) then
        failed (StoreFailure OpTripFind) (tick w)
      else
        match find (fun t => trip_id t =? id) (trips w) with
        | None => (Ok (trip_error 404 "Trip not found"), tick w)
        | Some trip =>
            if trip_capacity trip <=? length (trip_participants trip) then
              (Ok (trip_error 400 "Trip is full"), tick w)
            else if existsb (Nat.eqb uid) (trip_participants trip) then
              (Ok (trip_error 400 "Already joined this trip"), tick w)
            else if fails env OpUserFind (S (ticks w)) then
              failed (StoreFailure OpUserFind) (tick (tick w))
            else
              match find (fun u => user_id u =? uid) (users w) with
              | None => (Ok (trip_error 404 "User not found"), tick (tick w))
              | Some tr =>
                  if fails env OpTripSave (S (S (ticks w))) then
                    failed (StoreFailure OpTripSave) (tick (tick (tick w)))
                  else
                    (Ok (joined_response (joined_by uid trip)),
                     snd (notifyTripJoin env (trip_id trip) (user_name tr) uid
                            (set_trips
                               (update_first
                                  (fun t => trip_id t =? trip_id trip)
                                  (fun _ => joined_by uid trip) (trips w))
                               (tick (tick (tick w))))))
              end
        end
  end.
Proof.
  unfold route_trip_join, cast_id.
  destruct (parseObjectId env param) as [id|]; [|reflexivity].
  unfold try_catch, bind at 1. unfold ret at 1.
  unfold bind at 1. rewrite Trip_findById_populate_run.
  destruct (fails env OpTripFind (ticks w)); [reflexivity|].
  destruct (find _ (trips w)) as [trip|]; [|reflexivity].
  destruct (trip_capacity trip <=? length (trip_participants trip));
    [reflexivity|].
  destruct (existsb (Nat.eqb uid) (trip_participants trip)); [reflexivity|].
  unfold bind at 1. unfold User_findById. unfold bind at 1.
  rewrite io_run. cbn [ticks tick].
  destruct (fails env OpUserFind (S (ticks w))); [reflexivity|].
  unfold bind at 1, get, ret at 1. cbn [users tick].
  destruct (find _ (users w)) as [tr|]; [|reflexivity].
  unfold bind at 1. unfold Trip_save. unfold bind at 1.
  rewrite io_run. cbn [ticks tick].
  destruct (fails env OpTripSave (S (S (ticks w)))); [reflexivity|].
  unfold bind at 1, get, modify. unfold bind at 1.
  match goal with
  | |- context [notifyTripJoin ?e ?a ?b ?c ?w0] =>
      destruct (notifyTripJoin_never_throws e a b c w0) as (w3 & Hn)
  end.
  cbn [trip_id with_participants trips tick fst snd] in *.
  unfold joined_by. cbn [trip_id with_participants].
  rewrite Hn. reflexivity.
Qed.

(** The leave route, branch by branch. *)
Lemma route_trip_leave_run (env : Env) (uid : ObjectId) (param : string)
    (w : World) :
  route_trip_leave env uid param w =
  let failed (e : Error) (w0 : World) :=
    (Ok (trip_error 500 "Server error"),
     push_console ("Error leaving trip: " ++ error_message e) w0) in
  match parseObjectId env param with
  | None => failed (InvalidId "Cast to ObjectId failed") w
  | Some id =>
      if fails env OpTripFind (ticks w) then
        failed (StoreFailure OpTripFind) (tick w)
      else
        match find (fun t => trip_id t =? id) (trips w) with
        | None => (Ok (trip_error 404 "Trip not found"), tick w)
        | Some trip =>
            if negb (existsb (Nat.eqb uid) (trip_participants trip)) then
              (Ok (trip_error 400 "Not part of this trip"), tick w)
            else if fails env OpUserFind (S (ticks w)) then
              failed (StoreFailure OpUserFind) (tick (tick w))
            else
              match find (fun u => user_id u =? uid) (users w) with
              | None => (Ok (trip_error 404 "User not found"), tick (tick w))
              | Some tr =>
                  if fails env OpTripSave (S (S (ticks w))) then
                    failed (StoreFailure OpTripSave) (tick (tick (tick w)))
                  else
                    (Ok (left_response (left_by uid trip)),
                     snd (notifyTripLeave env (trip_id trip) (user_name tr) uid
                            (set_trips
                               (update_first
                                  (fun t => trip_id t =? trip_id trip)
                                  (fun _ => left_by uid trip) (trips w))
                               (tick (tick (tick w))))))
              end
        end
  end.
Proof.
  unfold route_trip_leave, cast_id.
  destruct (parseObjectId env param) as [id|]; [|reflexivity].
  unfold try_catch, bind at 1. unfold ret at 1.
  unfold bind at 1. rewrite Trip_findById_populate_run.
  destruct (fails env OpTripFind (ticks w)); [reflexivity|].
  destruct (find _ (trips w)) as [trip|]; [|reflexivity].
  destruct (negb (existsb (Nat.eqb uid) (trip_participants trip)));
    [reflexivity|].
  unfold bind at 1. unfold User_findById. unfold bind at 1.
  rewrite io_run. cbn [ticks tick].
  destruct (fails env OpUserFind (S (ticks w))); [reflexivity|].
  unfold bind at 1, get, ret at 1. cbn [users tick].
  destruct (find _ (users w)) as [tr|]; [|reflexivity].
  unfold bind at 1. unfold Trip_save. unfold bind at 1.
  rewrite io_run. cbn [ticks tick].
  destruct (fails env OpTripSave (S (S (ticks w)))); [reflexivity|].
  unfold bind at 1, get, modify. unfold bind at 1.
  match goal with
  | |- context [notifyTripLeave ?e ?a ?b ?c ?w0] =>
      destruct (notifyTripLeave_never_throws e a b c w0) as (w3 & Hn)
  end.
  cbn [trip_id with_participants trips tick fst snd] in *.
  unfold left_by. cbn [trip_id with_participants].
  rewrite Hn. reflexivity.
Qed.

(** [requireRole(['organizer','admin'])] lets organizers and admins
    through and answers everybody else itself. *)
Lemma requireRole_run (role : Role) (next : M Response) (w : World) :
  requireRole [organizer; admin] role next w
  = match role with
    | traveler => (Ok (trip_error 403 "Forbidden"), w)
    | _ => next w
    end.
Proof. destruct role; reflexivity. Qed.

Lemma requireRole_passes (role : Role) (next : M Response) (w : World) :
  role <> traveler -> requireRole [organizer; admin] role next w = next w.
Proof. intros Hr. rewrite requireRole_run. destruct role; congruence. Qed.

(** The delete route past [requireRole], branch by branch. *)
Lemma route_trip_delete_run (env : Env) (uid : ObjectId) (role : Role)
    (param : string) (w : World) :
  role <> traveler ->
  route_trip_delete env uid role param w =
  let failed (e : Error) (w0 : World) :=
    (Ok (trip_error 500 "Failed to delete trip"),
     push_console ("Error deleting trip: " ++ error_message e) w0) in
  match parseObjectId env param with
  | None => failed (InvalidId "Cast to ObjectId failed") w
  | Some id =>
      if fails env OpTripFind (ticks w) then
        failed (StoreFailure OpTripFind) (tick w)
      else
        match find (fun t => trip_id t =? id) (trips w) with
        | None => (Ok (trip_error 404 "Trip not found"), tick w)
        | Some trip =>
            match find (fun u => user_id u =? trip_organizerId trip)
                       (users w) with
            | None =>
                failed (TypeError "Cannot read properties of null (reading '_id')")
                       (tick w)
            | Some org =>
                if negb (user_id org =? uid) && negb (is_admin role) then
                  (Ok (trip_error 403 "Not authorized to delete this trip"),
                   tick w)
                else if fails env OpTripDelete (S (ticks w)) then
                  failed (StoreFailure OpTripDelete) (tick (tick w))
                else
                  (Ok (deleted_response (length (trip_participants trip))),
                   let w1 :=
                     set_trips (remove_first (fun t => trip_id t =? id) (trips w))
                               (tick (tick w)) in
                   if 0 <? length (trip_participants trip) then
                     snd (notifyTripDeleted env (trip_id trip) (trip_title trip)
                            (trip_participants trip)
                            (name_or_Organizer (user_name org)) w1)
                   else w1)
            end
        end
  end.
Proof.
  intros Hrole. unfold route_trip_delete.
  rewrite requireRole_passes by exact Hrole. unfold cast_id.
  destruct (parseObjectId env param) as [id|]; [|reflexivity].
  unfold try_catch, bind at 1. unfold ret at 1.
  unfold bind at 1. rewrite Trip_findById_populate_run.
  destruct (fails env OpTripFind (ticks w)); [reflexivity|].
  destruct (find _ (trips w)) as [trip|]; [|reflexivity].
  destruct (find _ (users w)) as [org|]; [|reflexivity].
  destruct (negb (user_id org =? uid) && negb (is_admin role)); [reflexivity|].
  unfold bind at 1. unfold Trip_findByIdAndDelete. unfold bind at 1.
  rewrite io_run. cbn [ticks tick].
  destruct (fails env OpTripDelete (S (ticks w))); [reflexivity|].
  unfold bind at 1, get, modify. unfold bind at 1. cbn [trips tick].
  unfold when.
  destruct (0 <? length (trip_participants trip)); [|reflexivity].
  match goal with
  | |- context [notifyTripDeleted ?e ?a ?b ?c ?d ?w0] =>
      destruct (notifyTripDeleted_never_throws e a b c d w0) as (w3 & Hn)
  end.
  rewrite Hn. reflexivity.
Qed.

(** The update route past [requireRole], branch by branch. *)
Lemma route_trip_update_run (env : Env) (uid : ObjectId) (role : Role)
    (param : string) (parsed : ParsedUpdate) (w : World) :
  role <> traveler ->
  route_trip_update env uid role param parsed w =
  let failed (e : Error) (w0 : World) :=
    (Ok (trip_error 500 "Failed to update trip"),
     push_console ("Error updating trip: " ++ error_message e) w0) in
  match parseObjectId env param with
  | None => failed (InvalidId "Cast to ObjectId failed") w
  | Some id =>
      if fails env OpTripFind (ticks w) then
        failed (StoreFailure OpTripFind) (tick w)
      else
        match find (fun t => trip_id t =? id) (trips w) with
        | None => (Ok (trip_error 404 "Trip not found"), tick w)
        | Some trip =>
            if negb (trip_organizerId trip =? uid) && negb (is_admin role) then
              (Ok (trip_error 403 "Not authorized to update this trip"),
               tick w)
            else
              match parsed with
              | UpdateInvalid flattened =>
                  (Ok (status_json 400 (JObj [("error", flattened)])), tick w)
              | UpdateValid new_title new_capacity =>
                  if fails env OpTripSave (S (ticks w)) then
                    failed (StoreFailure OpTripSave) (tick (tick w))
                  else
                    (Ok (json (trip_json
                                 (apply_update new_title new_capacity trip))),
                     set_trips
                       (update_first (fun t => trip_id t =? id)
                          (apply_update new_title new_capacity) (trips w))
                       (tick (tick w)))
              end
        end
  end.
Proof.
  intros Hrole. unfold route_trip_update.
  rewrite requireRole_passes by exact Hrole. unfold cast_id.
  destruct (parseObjectId env param) as [id|]; [|reflexivity].
  unfold Trip_findById, Trip_findByIdAndUpdate. unfold_async. rewrite io_run.
  destruct (fails env OpTripFind (ticks w)); [reflexivity|].
  cbn [fst snd trips tick ticks].
  destruct (find _ (trips w)) as [trip|] eqn:Ht; [|reflexivity].
  destruct (negb (trip_organizerId trip =? uid) && negb (is_admin role));
    [reflexivity|].
  destruct parsed as [flattened|new_title new_capacity]; [reflexivity|].
  rewrite io_run. cbn [ticks tick].
  destruct (fails env OpTripSave (S (ticks w))); [reflexivity|].
  cbn [fst snd trips tick]. rewrite Ht. reflexivity.
Qed.

(** The leave, delete and update routes and the notification step. *)
Lemma route_trip_leave_after_save (env : Env) (uid : ObjectId) (param : string)
    (id : ObjectId) (trip : Trip) (tr : User) (w : World) :
  parseObjectId env param = Some id ->
  fails env OpTripFind (ticks w) = false ->
  find (fun t => trip_id t =? id) (trips w) = Some trip ->
  In uid (trip_participants trip) ->
  fails env OpUserFind (S (ticks w)) = false ->
  find (fun u => user_id u =? uid) (users w) = Some tr ->
  fails env OpTripSave (S (S (ticks w))) = false ->
  fst (route_trip_leave env uid param w)
  = Ok (left_response (left_by uid trip)).
Proof.
  intros Hp Hf1 Ht Hin Hf2 Hu Hf3.
  rewrite route_trip_leave_run. cbv zeta. rewrite Hp, Hf1, Ht.
  apply member_iff in Hin. rewrite Hin. cbn [negb].
  rewrite Hf2, Hu, Hf3. reflexivity.
Qed.

Lemma route_trip_delete_after_delete (env : Env) (uid : ObjectId) (role : Role)
    (param : string) (id : ObjectId) (trip : Trip) (org : User) (w : World) :
  parseObjectId env param = Some id ->
  fails env OpTripFind (ticks w) = false ->
  find (fun t => trip_id t =? id) (trips w) = Some trip ->
  find (fun u => user_id u =? trip_organizerId trip) (users w) = Some org ->
  role = admin \/ (role = organizer /\ user_id org = uid) ->
  fails env OpTripDelete (S (ticks w)) = false ->
  fst (route_trip_delete env uid role param w)
  = Ok (deleted_response (length (trip_participants trip))).
Proof.
  intros Hp Hf1 Ht Ho Hallowed Hf2.
  assert (Hrole : role <> traveler)
    by (destruct Hallowed as [->|[-> _]]; discriminate).
  assert (Hauth : negb (user_id org =? uid) && negb (is_admin role) = false).
  { destruct Hallowed as [->|[_ <-]].
    - apply andb_false_r.
    - now rewrite Nat.eqb_refl. }
  rewrite route_trip_delete_run by exact Hrole. cbv zeta.
  rewrite Hp, Hf1, Ht, Ho, Hauth, Hf2. reflexivity.
Qed.

Lemma route_trip_update_silent (env : Env) (uid : ObjectId) (role : Role)
    (param : string) (parsed : ParsedUpdate) (w : World) :
  let w' := snd (route_trip_update env uid role param parsed w) in
  notifications w' = notifications w /\ emitted w' = emitted w
  /\ outbox w' = outbox w /\ in_flight w' = in_flight w.
Proof.
  cbv zeta. destruct (Role_eqb role traveler) eqn:Hr.
  { assert (role = traveler) as ->
      by (destruct role; cbn in Hr; congruence).
    repeat split. }
  assert (Hrole : role <> traveler) by (intros ->; discriminate).
  rewrite route_trip_update_run by exact Hrole. cbv zeta.
  destruct (parseObjectId env param); [|repeat split].
  destruct (fails env OpTripFind (ticks w)); [repeat split|].
  destruct (find _ (trips w)); [|repeat split].
  destruct (negb (trip_organizerId t =? uid) && negb (is_admin role));
    [repeat split|].
  destruct parsed; [repeat split|].
  destruct (fails env OpTripSave (S (ticks w))); repeat split.
Qed.

(** The join route answers 200 once the traveler is saved on the trip,
    whatever happens in the notification step. *)
Lemma route_trip_join_after_save (env : Env) (uid : ObjectId) (param : string)
    (id : ObjectId) (trip : Trip) (tr : User) (w : World) :
  parseObjectId env param = Some id ->
  fails env OpTripFind (ticks w) = false ->
  find (fun t => trip_id t =? id) (trips w) = Some trip ->
  length (trip_participants trip) < trip_capacity trip ->
  existsb (Nat.eqb uid) (trip_participants trip) = false ->
  fails env OpUserFind (S (ticks w)) = false ->
  find (fun u => user_id u =? uid) (users w) = Some tr ->
  fails env OpTripSave (S (S (ticks w))) = false ->
  fst (route_trip_join env uid param w)
  = Ok (json (JObj [("message", JStr "Successfully joined trip");
                    ("trip",
                     trip_summary
                       (with_participants trip
                          (trip_participants trip ++ [uid])))])).
Proof.
  intros Hp Hf1 Ht Hcap Hnew Hf2 Hu Hf3.
  unfold route_trip_join, cast_id. rewrite Hp.
  unfold try_catch, bind at 1. unfold ret at 1.
  unfold bind at 1. rewrite Trip_findById_populate_run, Hf1, Ht.
  assert (Hfull : (trip_capacity trip <=? length (trip_participants trip))
                  = false) by (apply Nat.leb_gt; exact Hcap).
  rewrite Hfull, Hnew.
  unfold bind at 1. unfold User_findById. unfold bind at 1.
  rewrite io_run. cbn [ticks tick]. rewrite Hf2.
  unfold bind at 1, get, ret at 1. cbn [users tick]. rewrite Hu.
  unfold bind at 1. unfold Trip_save. unfold bind at 1.
  rewrite io_run. cbn [ticks tick]. rewrite Hf3.
  unfold bind at 1, get, modify. unfold bind at 1.
  match goal with
  | |- context [notifyTripJoin ?e ?a ?b ?c ?w0] =>
      destruct (notifyTripJoin_never_throws e a b c w0) as (w3 & Hn)
  end.
  rewrite Hn. reflexivity.
Qed.

(** C10, as the code has it.  None of the four event builders ever
    raises; whatever their [try] block throws (a failed trip lookup, a
    failed insert, a missing organizer, a rejected [Promise.all]) is
    caught and written to the error log, and the email step never
    throws at all; [notifyTripJoin] and [notifyTripLeave], which look
    the trip up, create no notification when it is not there, and log
    nothing when the lookup itself went through.  So the join, leave
    and delete routes answer 200 as soon as their own reads and writes
    have gone through, whatever the notification step does; and the
    update route calls no builder: it leaves notifications, pushes and
    mail as they are. *)
Theorem C10_builders_never_raise (env : Env) (w : World) :
  (forall tid name uid,
      exists w', notifyTripJoin env tid name uid w = (Ok tt, w'))
  /\ (forall tid name uid,
        exists w', notifyTripLeave env tid name uid w = (Ok tt, w'))
  /\ (forall tid ttl ps org,
        exists w', notifyTripDeleted env tid ttl ps org w = (Ok tt, w'))
  /\ (forall tid ttl ps org changes,
        exists w', notifyTripUpdate env tid ttl ps org changes w = (Ok tt, w'))
  /\ (forall tid name uid e w1,
        notifyTripJoin_try env tid name uid w = (Throw e, w1) ->
        notifyTripJoin env tid name uid w
        = (Ok tt, push_console ("Error notifying trip join: "
                                ++ error_message e) w1))
  /\ (forall tid name uid e w1,
        notifyTripLeave_try env tid name uid w = (Throw e, w1) ->
        notifyTripLeave env tid name uid w
        = (Ok tt, push_console ("Error notifying trip leave: "
                                ++ error_message e) w1))
  /\ (forall tid ttl ps org e w1,
        notifyTripDeleted_try env tid ttl ps org w = (Throw e, w1) ->
        exists w',
          notifyTripDeleted env tid ttl ps org w = (Ok tt, w')
          /\ In ("Error notifying trip deletion: " ++ error_message e)
                (console w'))
  /\ (forall tid ttl ps org changes e w1,
        notifyTripUpdate_try env tid ttl ps org changes w = (Throw e, w1) ->
        exists w',
          notifyTripUpdate env tid ttl ps org changes w = (Ok tt, w')
          /\ In ("Error notifying trip update: " ++ error_message e)
                (console w'))
  /\ (forall n, exists w', sendEmailNotification env n w = (Ok tt, w'))
  /\ (forall tid name uid,
        find (fun t => trip_id t =? tid) (trips w) = None ->
        notifications (snd (notifyTripJoin env tid name uid w))
        = notifications w
        /\ notifications (snd (notifyTripLeave env tid name uid w))
           = notifications w)
  /\ (forall tid name uid,
        find (fun t => trip_id t =? tid) (trips w) = None ->
        fails env OpTripFind (ticks w) = false ->
        notifyTripJoin env tid name uid w = (Ok tt, tick w)
        /\ notifyTripLeave env tid name uid w = (Ok tt, tick w))
  /\ (forall uid param id trip tr,
        parseObjectId env param = Some id ->
        fails env OpTripFind (ticks w) = false ->
        find (fun t => trip_id t =? id) (trips w) = Some trip ->
        length (trip_participants trip) < trip_capacity trip ->
        existsb (Nat.eqb uid) (trip_participants trip) = false ->
        fails env OpUserFind (S (ticks w)) = false ->
        find (fun u => user_id u =? uid) (users w) = Some tr ->
        fails env OpTripSave (S (S (ticks w))) = false ->
        fst (route_trip_join env uid param w)
        = Ok (json (JObj [("message", JStr "Successfully joined trip");
                          ("trip",
                           trip_summary
                             (with_participants trip
                                (trip_participants trip ++ [uid])))])))
  /\ (forall uid param id trip tr,
        parseObjectId env param = Some id ->
        fails env OpTripFind (ticks w) = false ->
        find (fun t => trip_id t =? id) (trips w) = Some trip ->
        In uid (trip_participants trip) ->
        fails env OpUserFind (S (ticks w)) = false ->
        find (fun u => user_id u =? uid) (users w) = Some tr ->
        fails env OpTripSave (S (S (ticks w))) = false ->
        fst (route_trip_leave env uid param w)
        = Ok (json (JObj [("message", JStr "Successfully left trip");
                          ("trip",
                           trip_summary
                             (with_participants trip
                                (filter (fun p => negb (p =? uid))
                                        (trip_participants trip))))])))
  /\ (forall uid role param id trip org,
        parseObjectId env param = Some id ->
        fails env OpTripFind (ticks w) = false ->
        find (fun t => trip_id t =? id) (trips w) = Some trip ->
        find (fun u => user_id u =? trip_organizerId trip) (users w)
        = Some org ->
        role = admin \/ (role = organizer /\ user_id org = uid) ->
        fails env OpTripDelete (S (ticks w)) = false ->
        fst (route_trip_delete env uid role param w)
        = Ok (json (JObj [("message", JStr "Trip deleted successfully");
                          ("notifiedParticipants",
                           JNum (Z.of_nat
                                   (length (trip_participants trip))))])))
  /\ (forall uid role param parsed,
        notifications (snd (route_trip_update env uid role param parsed w))
        = notifications w
        /\ emitted (snd (route_trip_update env uid role param parsed w))
           = emitted w
        /\ outbox (snd (route_trip_update env uid role param parsed w))
           = outbox w).
Proof.
  split; [intros; apply notifyTripJoin_never_throws|].
  split; [intros; apply notifyTripLeave_never_throws|].
  split; [intros; apply notifyTripDeleted_never_throws|].
  split; [intros; apply notifyTripUpdate_never_throws|].
  split.
  { intros tid name uid e w1 H. unfold notifyTripJoin.
    now rewrite (builder_logs _ _ _ _ _ H). }
  split.
  { intros tid name uid e w1 H. unfold notifyTripLeave.
    now rewrite (builder_logs _ _ _ _ _ H). }
  split.
  { intros tid ttl ps org e w1 H. unfold notifyTripDeleted.
    rewrite (builder_logs _ _ _ _ _ H). eexists. split; [reflexivity|].
    cbn [console push_console]. rewrite in_app_iff. right. now left. }
  split.
  { intros tid ttl ps org changes e w1 H. unfold notifyTripUpdate.
    rewrite (builder_logs _ _ _ _ _ H). eexists. split; [reflexivity|].
    cbn [console push_console]. rewrite in_app_iff. right. now left. }
  split.
  { intros n. destruct (sendEmailNotification_run env n w) as (w' & Hrun & _).
    now exists w'. }
  split.
  { intros tid name uid H.
    destruct (notify_without_trip env tid name uid w H) as [-> ->].
    destruct (fails env OpTripFind (ticks w)); split; reflexivity. }
  split.
  { intros tid name uid H H0.
    destruct (notify_without_trip env tid name uid w H) as [-> ->].
    rewrite H0. split; reflexivity. }
  split.
  { intros. now apply (route_trip_join_after_save env uid param id trip tr w). }
  split.
  { intros. now apply (route_trip_leave_after_save env uid param id trip tr w). }
  split.
  { intros.
    now apply (route_trip_delete_after_delete env uid role param id trip org w). }
  intros uid role param parsed.
  destruct (route_trip_update_silent env uid role param parsed w)
    as (Hn & He & Ho & _).
  auto.
Qed.

(** Traveler 5 joins trip 100, participant 2 leaves it and organizer 1
    deletes it while no notification can be stored: each route still
    answers 200. *)
Lemma C10_witness_join_with_store_down :
  let env := sample_env true inserts_down in
  let w := sample_world [] in
  (parseObjectId env "100" = Some 100
   /\ find (fun t => trip_id t =? 100) (trips w) = Some alps
   /\ length (trip_participants alps) < trip_capacity alps
   /\ In 2 (trip_participants alps)
   /\ fails env OpNotificationCreate 4 = true)
  /\ fst (route_trip_join env 5 "100" w)
     = Ok (json (JObj [("message", JStr "Successfully joined trip");
                       ("trip",
                        trip_summary
                          (with_participants alps
                             (trip_participants alps ++ [5])))]))
  /\ fst (route_trip_leave env 2 "100" w)
     = Ok (json (JObj [("message", JStr "Successfully left trip");
                       ("trip",
                        trip_summary (with_participants alps [3; 4]))]))
  /\ fst (route_trip_delete env 1 organizer "100" w)
     = Ok (json (JObj [("message", JStr "Trip deleted successfully");
                       ("notifiedParticipants", JNum 3)]))
  /\ notifications (snd (route_trip_delete env 1 organizer "100" w)) = []
  /\ notifications (snd (notifyTripJoin env 999 "Dov" 5 w)) = notifications w.
Proof.
  intros env w.
  destruct (C10_builders_never_raise env w)
    as (_ & _ & _ & _ & _ & _ & _ & _ & _ & Hmissing & _ & Hjoin & Hleave
        & Hdelete & _).
  split; [repeat split; simpl; auto; lia|]. split.
  { apply (Hjoin 5 "100" 100 alps (sample_user 5 "Dov"));
      try reflexivity; simpl; lia. }
  split.
  { apply (Hleave 2 "100" 100 alps (sample_user 2 "Ana"));
      try reflexivity. simpl. auto. }
  split.
  { apply (Hdelete 1 organizer "100" 100 alps (sample_user 1 "Olga"));
      try reflexivity. right. split; reflexivity. }
  split; [reflexivity|].
  apply (Hmissing 999 "Dov" 5). reflexivity.
Defined.

(** C10 as stated fails: [notifyTripDeleted] for a trip that is not
    stored (any more) creates its notifications all the same, and
    [notifyTripJoin] for a missing trip returns without logging
    anything. *)
Lemma C10_counterexample_missing_trip :
  let env := sample_env false no_faults in
  let w := sample_world [] in
  find (fun t => trip_id t =? 999) (trips w) = None
  /\ map userId
       (notifications (snd (notifyTripDeleted env 999 "Gone" [2; 3] "Olga" w)))
     = [2; 3]
  /\ notifyTripJoin env 999 "Ana" 2 w = (Ok tt, tick w)
  /\ console (tick w) = [].
Proof. vm_compute. repeat split. Qed.

(** The fan-out of C8 with the second insert failing: the failure is
    in the log, not in a returned value; the third create is in flight
    at the return, and once it has settled the store has gained the two
    notifications of the creates that succeeded. *)
Lemma C8_witness_failure_is_logged :
  let env := sample_env false second_insert_fails in
  let w := sample_world [] in
  let w' := snd (notifyTripDeleted env 100 "Alps" [2; 3; 4] "Olga" w) in
  in_flight w = []
  /\ (exists e,
        In ("Error notifying trip deletion: " ++ error_message e)
           (console w'))
  /\ in_flight (settle env w') = []
  /\ length (notifications (settle env w')) = 2.
Proof.
  intros env w w'.
  destruct (C8_fan_out_never_raises env 100 "Alps" [2; 3; 4] "Olga" [] w)
    as [(w0 & Hrun & _ & Hlog & _ & Hsettled) _].
  subst w'. rewrite Hrun. cbn [snd].
  destruct (Hsettled eq_refl) as (Hnone & _ & _ & Hlen).
  split; [reflexivity|]. split; [apply Hlog; reflexivity|].
  split; [exact Hnone|]. rewrite Hlen. reflexivity.
Defined.

(** * Further properties of the pipeline *)

(** ** More on creation, push and mail *)

Lemma sendEmailNotification_cases (env : Env) (n : Notification) (w : World) :
  sendEmailNotification env n w =
  if fails env OpUserFind (ticks w) then
    (Ok tt,
     push_console ("Error sending email notification: "
                   ++ error_message (StoreFailure OpUserFind)) (tick w))
  else
    match find (fun u => user_id u =? userId n) (users w) with
    | None => (Ok tt, tick w)
    | Some u =>
        if fails env OpSendMail (S (ticks w)) then
          (Ok tt,
           push_console ("Error sending email notification: "
                         ++ error_message (StoreFailure OpSendMail))
                        (tick (tick w)))
        else if fails env OpNotificationUpdate (S (S (ticks w))) then
          (Ok tt,
           push_console ("Error sending email notification: "
                         ++ error_message (StoreFailure OpNotificationUpdate))
                        (tick (push_outbox (mail_for u n) (tick (tick w)))))
        else
          (Ok tt,
           set_notifications
             (update_first (fun m => _id m =? _id n)
                (mark_emailSent_at (clock env (S (S (S (ticks w))))))
                (notifications w))
             (tick (push_outbox (mail_for u n) (tick (tick w)))))
    end.
Proof.
  unfold sendEmailNotification, User_findById, sendMail,
    Notification_findByIdAndUpdate_emailSent.
  unfold_async. rewrite io_run.
  destruct (fails env OpUserFind (ticks w)); [reflexivity|].
  cbn [fst snd users tick ticks].
  destruct (find _ (users w)) as [u|]; [|reflexivity].
  rewrite io_run. cbn [ticks tick].
  destruct (fails env OpSendMail (S (ticks w))); [reflexivity|].
  cbn [fst snd]. rewrite io_run. cbn [ticks tick push_outbox].
  destruct (fails env OpNotificationUpdate (S (S (ticks w)))); reflexivity.
Qed.

Lemma count_unread_mirror (uid : ObjectId) (l l' : list Notification) :
  map modulo_mirror l = map modulo_mirror l' ->
  length (filter (unread_of uid) l) = length (filter (unread_of uid) l').
Proof.
  revert l'. induction l as [|n l IH]; intros [|n' l'] Hmap;
    try discriminate; [reflexivity|].
  pose proof (f_equal (hd n) Hmap) as Hn.
  pose proof (f_equal (@tl _) Hmap) as Hl.
  cbn [map hd tl] in Hn, Hl.
  assert (Hu : unread_of uid n = unread_of uid n').
  { unfold unread_of.
    change (userId n) with (userId (modulo_mirror n)).
    change (read n) with (read (modulo_mirror n)).
    now rewrite Hn. }
  simpl. rewrite Hu. destruct (unread_of uid n'); simpl; now rewrite (IH l' Hl).
Qed.

(** A create whose insert goes through: what it returns and what it
    leaves behind. *)
Lemma createNotification_stores (env : Env) (d : NotificationData) (w : World) :
  accepted d ->
  fails env OpNotificationCreate (ticks w) = false ->
  exists w',
    createNotification env d w = (Ok (new_document env d w), w')
    /\ map modulo_mirror (notifications w')
       = map modulo_mirror (notifications w ++ [new_document env d w])
    /\ emitted w'
       = (if socketIO env
          then emitted w ++ [socket_payload (new_document env d w)]
          else emitted w)%list
    /\ trips w' = trips w /\ users w' = users w
    /\ nextId w' = S (nextId w)
    /\ (isTrue (nd_sendEmail d) && emailTransporter env = false ->
        outbox w' = outbox w
        /\ notifications w' = (notifications w ++ [new_document env d w])%list).
Proof.
  intros [Ht Hm] Hf.
  unfold createNotification. fold (payload_of d).
  unfold try_catch, bind at 1.
  rewrite Notification_create_run, Ht, Hm, Hf. cbn [negb].
  fold (new_document env d w). fold (after_insert env d w).
  unfold bind at 1.
  set (w2 := if socketIO env
             then push_emitted (socket_payload (new_document env d w))
                    (after_insert env d w)
             else after_insert env d w).
  assert (Hpush : when (socketIO env)
                    (modify (push_emitted (socket_payload (new_document env d w))))
                    (after_insert env d w) = (Ok tt, w2)).
  { subst w2. unfold when, modify, ret. now destruct (socketIO env). }
  rewrite Hpush. unfold bind at 1, when.
  assert (Hw2 : notifications w2 = (notifications w ++ [new_document env d w])%list
                /\ emitted w2
                   = (if socketIO env
                      then emitted w ++ [socket_payload (new_document env d w)]
                      else emitted w)%list
                /\ trips w2 = trips w /\ users w2 = users w
                /\ nextId w2 = S (nextId w) /\ outbox w2 = outbox w).
  { subst w2. destruct (socketIO env); repeat split. }
  destruct Hw2 as (Hn2 & He2 & Ht2 & Hu2 & Hi2 & Ho2).
  destruct (isTrue (nd_sendEmail d) && emailTransporter env).
  - rewrite sendEmailNotification_cases.
    destruct (fails env OpUserFind (ticks w2));
      [|destruct (find _ (users w2));
        [destruct (fails env OpSendMail (S (ticks w2)));
         [|destruct (fails env OpNotificationUpdate (S (S (ticks w2))))]|]];
      unfold ret; (eexists; split; [reflexivity|]); cbn [snd];
      cbn [notifications emitted trips users nextId outbox push_console tick
           push_outbox set_notifications];
      rewrite ?update_first_mirror, ?Hn2, ?He2;
      repeat split; auto; discriminate.
  - unfold ret. eexists; split; [reflexivity|]. rewrite Hn2.
    repeat split; auto.
Qed.

(** A returned document means the insert went through. *)
Lemma createNotification_ok_inv (env : Env) (d : NotificationData)
    (w w' : World) (n : Notification) :
  createNotification env d w = (Ok n, w') ->
  accepted d /\ fails env OpNotificationCreate (ticks w) = false
  /\ n = new_document env d w.
Proof.
  intros Hrun.
  pose proof (Notification_create_run env (nd_userId d) (nd_type d)
                (nd_title d) (nd_message d) (payload_of d) false false w) as Hc.
  destruct (required (nd_title d)) eqn:Ht; cbn [negb] in Hc;
    [|rewrite (createNotification_insert_throws env d w _ _ Hc) in Hrun;
      discriminate].
  destruct (required (nd_message d)) eqn:Hm; cbn [negb] in Hc;
    [|rewrite (createNotification_insert_throws env d w _ _ Hc) in Hrun;
      discriminate].
  destruct (fails env OpNotificationCreate (ticks w)) eqn:Hf;
    [rewrite (createNotification_insert_throws env d w _ _ Hc) in Hrun;
     discriminate|].
  destruct (createNotification_stores env d w (conj Ht Hm) Hf) as (w0 & Hrun0 & _).
  rewrite Hrun in Hrun0. injection Hrun0 as -> _.
  split; [split; assumption|]. split; reflexivity.
Qed.

(** X1.  [createNotification] with an empty title or an empty message
    fails Mongoose's validation: the call throws a validation error
    after logging it, and nothing else happens: no database call, no
    document, no push, no mail. *)
Theorem X1_create_rejects_empty_title_or_message
    (env : Env) (d : NotificationData) (w : World) :
  required (nd_title d) = false \/ required (nd_message d) = false ->
  exists path,
    createNotification env d w
    = (Throw (ValidationError path),
       push_console ("Error creating notification: "
                     ++ error_message (ValidationError path)) w).
Proof.
  intros Hbad.
  pose proof (Notification_create_run env (nd_userId d) (nd_type d)
                (nd_title d) (nd_message d) (payload_of d) false false w) as Hc.
  destruct (required (nd_title d)) eqn:Ht; cbn [negb] in Hc.
  - destruct Hbad as [Hbad|Hbad]; [discriminate|].
    rewrite Hbad in Hc. cbn [negb] in Hc. exists "message".
    exact (createNotification_insert_throws env d w _ _ Hc).
  - exists "title". exact (createNotification_insert_throws env d w _ _ Hc).
Qed.

Lemma X1_witness_empty_title :
  let d := {| nd_userId := 2; nd_type := system; nd_title := "";
              nd_message := "A message"; nd_data := None;
              nd_sendEmail := Some true |} in
  required (nd_title d) = false
  /\ exists path,
       createNotification (sample_env true no_faults) d (sample_world [])
       = (Throw (ValidationError path),
          push_console ("Error creating notification: "
                        ++ error_message (ValidationError path))
                       (sample_world [])).
Proof.
  intros d. split; [reflexivity|].
  apply (X1_create_rejects_empty_title_or_message
           (sample_env true no_faults) d (sample_world [])).
  left. reflexivity.
Defined.

(** X2.  The real-time push carries the stored record.  A successful
    create with a socket server attached emits exactly one event, to
    the recipient's room, and the store holds a document with the
    event's id and the same type, title, message, data and creation
    date; without a socket server, and when the create fails, nothing
    is emitted. *)
Theorem X2_push_matches_stored_record
    (env : Env) (d : NotificationData) (w w' : World) :
  (forall n,
      createNotification env d w = (Ok n, w') ->
      emitted w'
      = (if socketIO env then emitted w ++ [socket_payload n] else emitted w)%list
      /\ ev_room (socket_payload n) = nd_userId d
      /\ exists n',
           In n' (notifications w')
           /\ _id n' = ev_id (socket_payload n)
           /\ userId n' = ev_room (socket_payload n)
           /\ type n' = ev_type (socket_payload n)
           /\ title n' = ev_title (socket_payload n)
           /\ message n' = ev_message (socket_payload n)
           /\ data n' = ev_data (socket_payload n)
           /\ createdAt n' = ev_createdAt (socket_payload n))
  /\ (forall e, createNotification env d w = (Throw e, w') ->
                emitted w' = emitted w).
Proof.
  split.
  - intros n Hrun.
    destruct (createNotification_ok_inv env d w w' n Hrun) as (Hacc & Hf & ->).
    destruct (createNotification_stores env d w Hacc Hf)
      as (w0 & Hrun0 & Hmm & Hem & _).
    rewrite Hrun in Hrun0. injection Hrun0 as <-.
    split; [exact Hem|]. split; [reflexivity|].
    assert (Hin : In (modulo_mirror (new_document env d w))
                     (map modulo_mirror (notifications w'))).
    { rewrite Hmm, map_app, in_app_iff. right. now left. }
    apply in_map_iff in Hin. destruct Hin as (n' & Heq & Hin).
    exists n'. split; [exact Hin|].
    unfold modulo_mirror, mark_emailSent_at in Heq.
    injection Heq as H1 H2 H3 H4 H5 H6 H7 H8.
    cbn. repeat split; assumption.
  - intros e Hrun.
    pose proof (Notification_create_run env (nd_userId d) (nd_type d)
                  (nd_title d) (nd_message d) (payload_of d) false false w) as Hc.
    destruct (negb (required (nd_title d))) eqn:Ht;
      [rewrite (createNotification_insert_throws env d w _ _ Hc) in Hrun;
       now injection Hrun as _ <-|].
    destruct (negb (required (nd_message d))) eqn:Hm;
      [rewrite (createNotification_insert_throws env d w _ _ Hc) in Hrun;
       now injection Hrun as _ <-|].
    destruct (fails env OpNotificationCreate (ticks w)) eqn:Hf;
      [rewrite (createNotification_insert_throws env d w _ _ Hc) in Hrun;
       now injection Hrun as _ <-|].
    apply negb_false_iff in Ht, Hm.
    destruct (createNotification_stores env d w (conj Ht Hm) Hf)
      as (w0 & Hrun0 & _).
    rewrite Hrun in Hrun0. discriminate.
Qed.

Lemma X2_witness_push :
  let env := sample_env true mail_down in
  let run := createNotification env (sample_data 2 true) (sample_world []) in
  exists n,
    fst run = Ok n
    /\ emitted (snd run) = [socket_payload n]
    /\ ev_room (socket_payload n) = 2.
Proof.
  intros env run.
  destruct (X2_push_matches_stored_record env (sample_data 2 true)
              (sample_world []) (snd run)) as [Hok _].
  eexists. split; [reflexivity|].
  destruct (Hok _ eq_refl) as (Hem & Hroom & _).
  split; [exact Hem | exact Hroom].
Defined.

(** X3.  The email step never throws, and raises [emailSent] only
    after the mail was handed to the transport: either nothing is sent
    and the store is unchanged (recipient unknown, lookup or send
    failed), or exactly one mail went out, to the recipient's address
    with the notification's title as subject, and the store is
    unchanged or has [emailSent] raised on the notification's id. *)
Theorem X3_emailSent_only_after_send
    (env : Env) (n : Notification) (w : World) :
  exists w',
    sendEmailNotification env n w = (Ok tt, w')
    /\ ((outbox w' = outbox w /\ notifications w' = notifications w)
        \/ exists u t,
             find (fun u => user_id u =? userId n) (users w) = Some u
             /\ outbox w' = (outbox w ++ [mail_for u n])%list
             /\ mail_to (mail_for u n) = user_email u
             /\ mail_subject (mail_for u n) = title n
             /\ (notifications w' = notifications w
                 \/ notifications w'
                    = update_first (fun m => _id m =? _id n)
                        (mark_emailSent_at t) (notifications w)))
    /\ (find (fun u => user_id u =? userId n) (users w) = None ->
        outbox w' = outbox w /\ notifications w' = notifications w
        /\ (fails env OpUserFind (ticks w) = false -> console w' = console w)).
Proof.
  rewrite sendEmailNotification_cases.
  destruct (fails env OpUserFind (ticks w)).
  { eexists; split; [reflexivity|]. split; [left; split; reflexivity|].
    intros _. repeat split. discriminate. }
  destruct (find _ (users w)) as [u|] eqn:Hu.
  - destruct (fails env OpSendMail (S (ticks w))).
    { eexists; split; [reflexivity|]. split; [left; split; reflexivity|].
      discriminate. }
    destruct (fails env OpNotificationUpdate (S (S (ticks w))));
      (eexists; split; [reflexivity|]); (split; [|discriminate]);
      right; exists u, (clock env (S (S (S (ticks w)))));
      (split; [reflexivity|]); (split; [reflexivity|]);
      (split; [reflexivity|]); (split; [reflexivity|]);
      [left | right]; reflexivity.
  - eexists; split; [reflexivity|]. split; [left; split; reflexivity|].
    intros _. repeat split.
Qed.

(** A notification for a recipient who is not in the user collection:
    nothing is sent and nothing is logged. *)
Lemma X3_witness_unknown_recipient :
  let env := sample_env true no_faults in
  let n := sample_notification 1 99 false in
  let w := sample_world [n] in
  find (fun u => user_id u =? userId n) (users w) = None
  /\ exists w',
       sendEmailNotification env n w = (Ok tt, w')
       /\ outbox w' = [] /\ notifications w' = [n] /\ console w' = [].
Proof.
  intros env n w. split; [reflexivity|].
  destruct (X3_emailSent_only_after_send env n w) as (w' & Hrun & _ & Hnone).
  destruct (Hnone eq_refl) as (Hout & Hn & Hlog).
  exists w'. split; [exact Hrun|]. split; [exact Hout|].
  split; [exact Hn | exact (Hlog eq_refl)].
Defined.

(** X4.  Creating a notification adds exactly one unread notification
    for its recipient and changes nobody else's unread count; a create
    that throws changes no unread count. *)
Theorem X4_create_adds_one_unread
    (env : Env) (d : NotificationData) (w w' : World) :
  (forall n,
      createNotification env d w = (Ok n, w') ->
      unreadCount (nd_userId d) w' = S (unreadCount (nd_userId d) w)
      /\ forall uid, uid <> nd_userId d -> unreadCount uid w' = unreadCount uid w)
  /\ (forall e,
        createNotification env d w = (Throw e, w') ->
        forall uid, unreadCount uid w' = unreadCount uid w).
Proof.
  split.
  - intros n Hrun.
    destruct (createNotification_ok_inv env d w w' n Hrun) as (Hacc & Hf & ->).
    destruct (createNotification_stores env d w Hacc Hf) as (w0 & Hrun0 & Hmm & _).
    rewrite Hrun in Hrun0. injection Hrun0 as <-.
    assert (Hcount : forall uid,
               unreadCount uid w'
               = unreadCount uid w
                 + (if nd_userId d =? uid then 1 else 0)).
    { intros uid. unfold unreadCount.
      rewrite (count_unread_mirror uid _ _ Hmm), filter_app, length_app.
      f_equal. cbn. unfold unread_of. cbn.
      destruct (nd_userId d =? uid); reflexivity. }
    split.
    + rewrite Hcount, Nat.eqb_refl. lia.
    + intros uid Hne. rewrite Hcount.
      destruct (nd_userId d =? uid) eqn:He;
        [apply Nat.eqb_eq in He; congruence | lia].
  - intros e Hrun uid.
    pose proof (Notification_create_run env (nd_userId d) (nd_type d)
                  (nd_title d) (nd_message d) (payload_of d) false false w) as Hc.
    destruct (negb (required (nd_title d))) eqn:Ht;
      [rewrite (createNotification_insert_throws env d w _ _ Hc) in Hrun;
       now injection Hrun as _ <-|].
    destruct (negb (required (nd_message d))) eqn:Hm;
      [rewrite (createNotification_insert_throws env d w _ _ Hc) in Hrun;
       now injection Hrun as _ <-|].
    destruct (fails env OpNotificationCreate (ticks w)) eqn:Hf;
      [rewrite (createNotification_insert_throws env d w _ _ Hc) in Hrun;
       now injection Hrun as _ <-|].
    apply negb_false_iff in Ht, Hm.
    destruct (createNotification_stores env d w (conj Ht Hm) Hf)
      as (w0 & Hrun0 & _).
    rewrite Hrun in Hrun0. discriminate.
Qed.

Lemma X4_witness_one_more_unread :
  let w := sample_world five_unread_three_read in
  let run := createNotification (sample_env true mail_down)
               (sample_data 3 true) w in
  is_ok (fst run) = true
  /\ unreadCount 3 w = 2 /\ unreadCount 3 (snd run) = 3
  /\ unreadCount 2 (snd run) = unreadCount 2 w.
Proof.
  intros w run.
  destruct (X4_create_adds_one_unread (sample_env true mail_down)
              (sample_data 3 true) w (snd run)) as [Hok _].
  destruct (Hok (new_document (sample_env true mail_down) (sample_data 3 true) w)
              eq_refl) as [Hmine Hothers].
  split; [reflexivity|]. split; [reflexivity|].
  split; [exact Hmine | apply Hothers; discriminate].
Defined.

(** ** What the event builders store *)

Lemma join_message_required (name : string) (t : Trip) :
  required (join_message name t) = true.
Proof. unfold join_message. destruct name; reflexivity. Qed.

Lemma leave_message_required (name : string) (t : Trip) :
  required (leave_message name t) = true.
Proof. unfold leave_message. destruct name; reflexivity. Qed.

(** X5.  [notifyTripJoin] and [notifyTripLeave] notify the organizer,
    not the traveler.  When the trip and its organizer are found and
    the insert goes through, exactly one notification is appended: for
    the trip's organizer, of kind [trip_join] (resp. [trip_leave]),
    unread, with the trip's id and title and the traveler as actor in
    its data, and a message that quotes the trip's title and its
    current number of participants. *)
Theorem X5_join_and_leave_notify_the_organizer
    (env : Env) (tid : ObjectId) (name : string) (uid : ObjectId)
    (trip : Trip) (org : User) (w : World) :
  fails env OpTripFind (ticks w) = false ->
  find (fun t => trip_id t =? tid) (trips w) = Some trip ->
  find (fun u => user_id u =? trip_organizerId trip) (users w) = Some org ->
  fails env OpNotificationCreate (S (ticks w)) = false ->
  let stored (kind : NotificationType) (msg : string) (n : Notification) :=
    userId n = user_id org /\ type n = kind /\ read n = false
    /\ message n = msg
    /\ data n = {| tripId := Some (trip_id trip); actorId := Some uid;
                   actorName := Some name;
                   tripTitle := Some (trip_title trip); extra := [] |} in
  (exists n w',
      notifyTripJoin env tid name uid w = (Ok tt, w')
      /\ map modulo_mirror (notifications w')
         = map modulo_mirror (notifications w ++ [n])
      /\ stored trip_join (join_message name trip) n
      /\ title n = "New Traveler Joined Your Trip")
  /\ (exists n w',
        notifyTripLeave env tid name uid w = (Ok tt, w')
        /\ map modulo_mirror (notifications w')
           = map modulo_mirror (notifications w ++ [n])
        /\ stored trip_leave (leave_message name trip) n
        /\ title n = "Traveler Left Your Trip").
Proof.
  intros Hf Ht Ho Hi stored. subst stored.
  split.
  - unfold notifyTripJoin, notifyTripJoin_try, try_catch, bind.
    rewrite Trip_findById_populate_run, Hf, Ht, Ho.
    match goal with
    | |- context [createNotification env ?d (tick w)] =>
        destruct (createNotification_stores env d (tick w))
          as (w' & Hrun & Hmm & _);
        [split; [reflexivity | apply join_message_required] | exact Hi |];
        rewrite Hrun; exists (new_document env d (tick w)), w'
    end.
    unfold ret. repeat split. exact Hmm.
  - unfold notifyTripLeave, notifyTripLeave_try, try_catch, bind.
    rewrite Trip_findById_populate_run, Hf, Ht, Ho.
    match goal with
    | |- context [createNotification env ?d (tick w)] =>
        destruct (createNotification_stores env d (tick w))
          as (w' & Hrun & Hmm & _);
        [split; [reflexivity | apply leave_message_required] | exact Hi |];
        rewrite Hrun; exists (new_document env d (tick w)), w'
    end.
    unfold ret. repeat split. exact Hmm.
Qed.

Lemma X5_witness_alps :
  let env := sample_env true mail_down in
  let w := sample_world [] in
  (find (fun t => trip_id t =? 100) (trips w) = Some alps
   /\ find (fun u => user_id u =? trip_organizerId alps) (users w)
      = Some (sample_user 1 "Olga"))
  /\ exists n w',
       notifyTripJoin env 100 "Dov" 5 w = (Ok tt, w')
       /\ userId n = 1 /\ type n = trip_join
       /\ message n = join_message "Dov" alps
       /\ map modulo_mirror (notifications w')
          = map modulo_mirror (notifications w ++ [n]).
Proof.
  intros env w. split; [split; reflexivity|].
  destruct (X5_join_and_leave_notify_the_organizer env 100 "Dov" 5 alps
              (sample_user 1 "Olga") w eq_refl eq_refl eq_refl eq_refl)
    as [(n & w' & Hrun & Hmm & (Hu & Hty & _ & Hmsg & _) & _) _].
  exists n, w'. repeat split; assumption.
Defined.

Lemma createNotification_without_email (env : Env) (d : NotificationData)
    (w : World) :
  without_email env d ->
  outbox (snd (createNotification env d w)) = outbox w.
Proof.
  intros Hno.
  pose proof (Notification_create_run env (nd_userId d) (nd_type d)
                (nd_title d) (nd_message d) (payload_of d) false false w) as Hc.
  destruct (negb (required (nd_title d))) eqn:Ht;
    [now rewrite (createNotification_insert_throws env d w _ _ Hc)|].
  destruct (negb (required (nd_message d))) eqn:Hm;
    [now rewrite (createNotification_insert_throws env d w _ _ Hc)|].
  destruct (fails env OpNotificationCreate (ticks w)) eqn:Hf;
    [now rewrite (createNotification_insert_throws env d w _ _ Hc)|].
  apply negb_false_iff in Ht, Hm.
  destruct (createNotification_stores env d w (conj Ht Hm) Hf)
    as (w0 & -> & _ & _ & _ & _ & _ & Hout).
  now destruct (Hout Hno).
Qed.

Lemma fan_out_sends_no_mail (env : Env) (ds : list NotificationData) :
  Forall (without_email env) ds ->
  forall w, outbox (snd (Promise_all_createNotification env ds w))
            = outbox w.
Proof.
  induction 1 as [|d ds Hd _ IH]; intros w; [reflexivity|].
  cbn [Promise_all_createNotification].
  pose proof (createNotification_without_email env d w Hd) as H1.
  destruct (createNotification env d w) as [[n|e] w1]; cbn [snd] in *.
  - specialize (IH w1).
    destruct (Promise_all_createNotification env ds w1) as [[l|e] w2];
      cbn [snd] in *; congruence.
  - exact H1.
Qed.

Lemma fan_out_without_email (env : Env) (ds : list NotificationData) :
  (forall t, fails env OpNotificationCreate t = false) ->
  Forall accepted ds ->
  Forall (without_email env) ds ->
  forall w, exists created w',
    Promise_all_createNotification env ds w = (Ok created, w')
    /\ notifications w' = (notifications w ++ created)%list
    /\ Forall2 inserted_for ds created
    /\ Forall (fun n => emailSent n = false) created.
Proof.
  intros Hins Hacc. induction Hacc as [|d ds Hd _ IH]; intros Hno w.
  - exists [], w. cbn. rewrite app_nil_r. repeat split; constructor.
  - inversion Hno as [|? ? Hd' Hno']; subst.
    destruct (createNotification_stores env d w Hd (Hins _))
      as (w1 & Hrun & _ & _ & _ & _ & _ & Hout).
    destruct (Hout Hd') as [_ Hn1].
    destruct (IH Hno' w1) as (created & w2 & Hall & Hn2 & Hf2 & He2).
    exists (new_document env d w :: created), w2.
    cbn [Promise_all_createNotification]. rewrite Hrun, Hall.
    split; [reflexivity|]. split.
    + rewrite Hn2, Hn1, <- app_assoc. reflexivity.
    + split; constructor; auto. repeat split.
Qed.

(** X6.  [notifyTripUpdate] never sends mail, whatever the
    configuration and whatever fails; and when the store accepts the
    inserts it appends exactly one unread [trip_update] notification
    per participant, in order, carrying the trip's id and title, the
    organizer's name and the list of changes, with [emailSent] left
    [false] and nothing else in the store touched. *)
Theorem X6_trip_update_notifies_without_mail
    (env : Env) (tid : ObjectId) (ttl : string) (ps : list ObjectId)
    (org : string) (changes : list string) (w : World) :
  outbox (snd (notifyTripUpdate env tid ttl ps org changes w)) = outbox w
  /\ ((forall t, fails env OpNotificationCreate t = false) ->
      exists created w',
        notifyTripUpdate env tid ttl ps org changes w = (Ok tt, w')
        /\ notifications w' = (notifications w ++ created)%list
        /\ Forall2 (fun p n =>
                      userId n = p /\ type n = trip_update
                      /\ read n = false /\ emailSent n = false
                      /\ message n = update_message ttl org changes
                      /\ tripId (data n) = Some tid
                      /\ tripTitle (data n) = Some ttl
                      /\ actorName (data n) = Some org
                      /\ json_field "changes" (extra (data n))
                         = Some (JArr (map JStr changes)))
                   ps created).
Proof.
  assert (Hno : Forall (without_email env)
                  (map (update_notification tid ttl org changes) ps)).
  { apply Forall_forall. intros d Hd. apply in_map_iff in Hd.
    destruct Hd as (p & <- & _). reflexivity. }
  assert (Hacc : Forall accepted
                   (map (update_notification tid ttl org changes) ps)).
  { apply Forall_forall. intros d Hd. apply in_map_iff in Hd.
    destruct Hd as (p & <- & _). split; reflexivity. }
  split.
  - pose proof (fan_out_sends_no_mail env _ Hno w) as Hout.
    unfold notifyTripUpdate, notifyTripUpdate_try, try_catch, bind, ret,
      console_error, modify.
    destruct (Promise_all_createNotification _ _ w) as [[l|e] w1];
      cbn [snd] in *; exact Hout.
  - intros Hins.
    destruct (fan_out_without_email env _ Hins Hacc Hno w)
      as (created & w' & Hall & Hn & Hf & He).
    exists created, w'.
    unfold notifyTripUpdate, notifyTripUpdate_try, try_catch, bind.
    rewrite Hall. split; [reflexivity|]. split; [exact Hn|].
    clear Hall Hn Hno Hacc. revert created Hf He.
    induction ps as [|p ps IH]; intros created Hf He;
      inversion Hf as [|d n ds l Hd Hrest]; subst; constructor.
    + inversion He as [|? ? Hes _]; subst.
      destruct Hd as (Hd1 & Hd2 & _ & Hd4 & Hd5 & Hd6).
      cbn in *. rewrite Hd5. repeat split; auto.
    + inversion He; subst. now apply IH.
Qed.

Lemma X6_witness_update :
  let env := sample_env true no_faults in
  (forall t, fails env OpNotificationCreate t = false)
  /\ exists created w',
       notifyTripUpdate env 100 "Alps" [2; 3] "Olga" ["price"; "dates"]
         (sample_world []) = (Ok tt, w')
       /\ notifications w' = created
       /\ map userId created = [2; 3]
       /\ outbox w' = [].
Proof.
  intros env. split; [reflexivity|].
  destruct (X6_trip_update_notifies_without_mail env 100 "Alps" [2; 3] "Olga"
              ["price"; "dates"] (sample_world [])) as [Hout Hrun].
  destruct (Hrun ltac:(reflexivity)) as (created & w' & Hr & Hn & Hf).
  exists created, w'. split; [exact Hr|]. split; [exact Hn|]. split.
  - inversion Hf as [|p1 n1 ps1 l1 H1 Hf1]; subst.
    inversion Hf1 as [|p2 n2 ps2 l2 H2 Hf2]; subst.
    inversion Hf2; subst.
    destruct H1 as [Hu1 _], H2 as [Hu2 _]. cbn [map].
    now rewrite Hu1, Hu2.
  - rewrite Hr in Hout. exact Hout.
Defined.

(** ** The trip routes *)

Lemma keeps_trips_ret {A : Type} (a : A) : keeps_trips (ret a).
Proof. intros w. split; reflexivity. Qed.

Lemma keeps_trips_throw {A : Type} (e : Error) : keeps_trips (@throw A e).
Proof. intros w. split; reflexivity. Qed.

Lemma keeps_trips_console_error (prefix : string) (e : Error) :
  keeps_trips (console_error prefix e).
Proof. intros w. split; reflexivity. Qed.

Lemma keeps_trips_bind {A B : Type} (c : M A) (k : A -> M B) :
  keeps_trips c -> (forall a, keeps_trips (k a)) -> keeps_trips (bind c k).
Proof.
  intros Hc Hk w. unfold bind. destruct (Hc w) as [Ht Hu].
  destruct (c w) as [[a|e] w1]; cbn [snd] in *; [|now split].
  destruct (Hk a w1) as [Ht2 Hu2]. split; congruence.
Qed.

Lemma keeps_trips_try_catch {A : Type} (c : M A) (h : Error -> M A) :
  keeps_trips c -> (forall e, keeps_trips (h e)) ->
  keeps_trips (try_catch c h).
Proof.
  intros Hc Hh w. unfold try_catch. destruct (Hc w) as [Ht Hu].
  destruct (c w) as [[a|e] w1]; cbn [snd] in *; [now split|].
  destruct (Hh e w1) as [Ht2 Hu2]. split; congruence.
Qed.

Lemma keeps_trips_when (b : bool) (c : M unit) :
  keeps_trips c -> keeps_trips (when b c).
Proof. intros Hc. destruct b; [exact Hc | apply keeps_trips_ret]. Qed.

Lemma keeps_trips_createNotification (env : Env) (d : NotificationData) :
  keeps_trips (createNotification env d).
Proof.
  intros w.
  pose proof (Notification_create_run env (nd_userId d) (nd_type d)
                (nd_title d) (nd_message d) (payload_of d) false false w) as Hc.
  destruct (negb (required (nd_title d))) eqn:Ht;
    [now rewrite (createNotification_insert_throws env d w _ _ Hc)|].
  destruct (negb (required (nd_message d))) eqn:Hm;
    [now rewrite (createNotification_insert_throws env d w _ _ Hc)|].
  destruct (fails env OpNotificationCreate (ticks w)) eqn:Hf;
    [now rewrite (createNotification_insert_throws env d w _ _ Hc)|].
  apply negb_false_iff in Ht, Hm.
  destruct (createNotification_stores env d w (conj Ht Hm) Hf)
    as (w0 & -> & _ & _ & Htr & Hus & _).
  now split.
Qed.

Lemma keeps_trips_populate (env : Env) (id : ObjectId) :
  keeps_trips (Trip_findById_populate env id).
Proof.
  intros w. rewrite Trip_findById_populate_run.
  destruct (fails env OpTripFind (ticks w)); split; reflexivity.
Qed.

Lemma keeps_trips_fan_out (env : Env) (ds : list NotificationData) :
  keeps_trips (Promise_all_createNotification env ds).
Proof.
  induction ds as [|d ds IH]; [apply keeps_trips_ret|].
  intros w. cbn [Promise_all_createNotification].
  destruct (keeps_trips_createNotification env d w) as [Ht Hu].
  destruct (createNotification env d w) as [[n|e] w1]; cbn [snd] in *.
  - destruct (IH w1) as [Ht2 Hu2].
    destruct (Promise_all_createNotification env ds w1) as [[l|e'] w2];
      cbn [snd] in *; split; congruence.
  - split; assumption.
Qed.

Ltac keeps_trips_step :=
  lazymatch goal with
  | |- keeps_trips (ret _) => apply keeps_trips_ret
  | |- keeps_trips (throw _) => apply keeps_trips_throw
  | |- keeps_trips (console_error _ _) => apply keeps_trips_console_error
  | |- keeps_trips (createNotification _ _) =>
      apply keeps_trips_createNotification
  | |- keeps_trips (Trip_findById_populate _ _) => apply keeps_trips_populate
  | |- keeps_trips (Promise_all_createNotification _ _) =>
      apply keeps_trips_fan_out
  | |- keeps_trips (when _ _) => apply keeps_trips_when
  | |- keeps_trips (bind _ _) => apply keeps_trips_bind; [|intro]
  | |- keeps_trips (try_catch _ _) => apply keeps_trips_try_catch; [|intro]
  | |- keeps_trips (match ?x with _ => _ end) => destruct x
  end.

(** The event builders touch neither trips nor users. *)
Lemma keeps_trips_notifyTripJoin (env : Env) (tid : ObjectId) (name : string)
    (uid : ObjectId) :
  keeps_trips (notifyTripJoin env tid name uid).
Proof. unfold notifyTripJoin, notifyTripJoin_try. repeat keeps_trips_step. Qed.

Lemma keeps_trips_notifyTripLeave (env : Env) (tid : ObjectId) (name : string)
    (uid : ObjectId) :
  keeps_trips (notifyTripLeave env tid name uid).
Proof. unfold notifyTripLeave, notifyTripLeave_try. repeat keeps_trips_step. Qed.

Lemma keeps_trips_notifyTripDeleted (env : Env) (tid : ObjectId) (ttl : string)
    (ps : list ObjectId) (org : string) :
  keeps_trips (notifyTripDeleted env tid ttl ps org).
Proof.
  unfold notifyTripDeleted, notifyTripDeleted_try. repeat keeps_trips_step.
Qed.

Lemma update_first_Forall {A : Type} (P : A -> Prop) (p : A -> bool) (a' : A)
    (l : list A) :
  Forall P l -> P a' -> Forall P (update_first p (fun _ => a') l).
Proof.
  intros Hl Ha. induction Hl as [|a l Hp Hl IH]; cbn; [constructor|].
  destruct (p a); constructor; auto.
Qed.

Lemma remove_first_Forall {A : Type} (P : A -> Prop) (p : A -> bool)
    (l : list A) :
  Forall P l -> Forall P (remove_first p l).
Proof.
  intros Hl. induction Hl as [|a l Hp Hl IH]; cbn; [constructor|].
  destruct (p a); [exact Hl | constructor; auto].
Qed.

Lemma not_member (uid : ObjectId) (ps : list ObjectId) :
  existsb (Nat.eqb uid) ps = false -> ~ In uid ps.
Proof.
  intros H Hin. assert (existsb (Nat.eqb uid) ps = true) as Ht.
  { apply existsb_exists. exists uid. split; [exact Hin | apply Nat.eqb_refl]. }
  congruence.
Qed.

(** What the join route does, in full. *)
Lemma route_trip_join_effect
    (env : Env) (uid : ObjectId) (param : string) (w : World) :
  exists resp w',
    route_trip_join env uid param w = (Ok resp, w')
    /\ users w' = users w
    /\ (status resp <> 200 ->
        trips w' = trips w /\ notifications w' = notifications w)
    /\ (status resp = 200 ->
        exists id trip,
          parseObjectId env param = Some id
          /\ find (fun t => trip_id t =? id) (trips w) = Some trip
          /\ length (trip_participants trip) < trip_capacity trip
          /\ ~ In uid (trip_participants trip)
          /\ resp = joined_response (joined_by uid trip)
          /\ trips w'
             = update_first (fun t => trip_id t =? trip_id trip)
                 (fun _ => joined_by uid trip) (trips w))
    /\ (forall id trip,
          parseObjectId env param = Some id ->
          fails env OpTripFind (ticks w) = false ->
          find (fun t => trip_id t =? id) (trips w) = Some trip ->
          (trip_capacity trip <= length (trip_participants trip) ->
           resp = trip_error 400 "Trip is full")
          /\ (length (trip_participants trip) < trip_capacity trip ->
              In uid (trip_participants trip) ->
              resp = trip_error 400 "Already joined this trip")).
Proof.
  rewrite route_trip_join_run. cbv zeta.
  assert (Hrefused : forall (resp : Response) (w' : World) (P : Prop),
             status resp <> 200 -> users w' = users w ->
             trips w' = trips w -> notifications w' = notifications w ->
             P ->
             users w' = users w
             /\ (status resp <> 200 ->
                 trips w' = trips w /\ notifications w' = notifications w)
             /\ (status resp = 200 ->
                 exists id trip,
                   parseObjectId env param = Some id
                   /\ find (fun t => trip_id t =? id) (trips w) = Some trip
                   /\ length (trip_participants trip) < trip_capacity trip
                   /\ ~ In uid (trip_participants trip)
                   /\ resp = joined_response (joined_by uid trip)
                   /\ trips w'
                      = update_first (fun t => trip_id t =? trip_id trip)
                          (fun _ => joined_by uid trip) (trips w))
             /\ P).
  { intros resp w' P Hne Hu Ht Hn HP. repeat split; auto.
    intros H200. contradiction. }
  destruct (parseObjectId env param) as [id|].
  2:{ eexists; eexists. split; [reflexivity|].
      apply Hrefused; try reflexivity; [discriminate|].
      intros id0 trip0 H1 H2 H3. exfalso.
      try (injection H1 as <-). congruence. }
  destruct (fails env OpTripFind (ticks w)) eqn:Hf.
  { eexists; eexists. split; [reflexivity|].
    apply Hrefused; try reflexivity; [discriminate|].
      intros id0 trip0 H1 H2 H3. exfalso.
      try (injection H1 as <-). congruence. }
  destruct (find _ (trips w)) as [trip|] eqn:Ht.
  2:{ eexists; eexists. split; [reflexivity|].
      apply Hrefused; try reflexivity; [discriminate|].
      intros id0 trip0 H1 H2 H3. exfalso.
      try (injection H1 as <-). congruence. }
  destruct (trip_capacity trip <=? length (trip_participants trip)) eqn:Hcap.
  { apply Nat.leb_le in Hcap.
    eexists; eexists. split; [reflexivity|].
    apply Hrefused; try reflexivity; [discriminate|].
    intros id0 trip0 H1 _ H3. injection H1 as <-.
    rewrite Ht in H3. injection H3 as <-. split; [reflexivity | lia]. }
  apply Nat.leb_gt in Hcap.
  destruct (existsb (Nat.eqb uid) (trip_participants trip)) eqn:Hin.
  { eexists; eexists. split; [reflexivity|].
    apply Hrefused; try reflexivity; [discriminate|].
    intros id0 trip0 H1 _ H3. injection H1 as <-.
    rewrite Ht in H3. injection H3 as <-. split; [lia | reflexivity]. }
  apply not_member in Hin.
  assert (Hguards : forall resp id0 trip0,
             Some id = Some id0 -> false = false ->
             find (fun t => trip_id t =? id0) (trips w) = Some trip0 ->
             (trip_capacity trip0 <= length (trip_participants trip0) ->
              resp = trip_error 400 "Trip is full")
             /\ (length (trip_participants trip0) < trip_capacity trip0 ->
                 In uid (trip_participants trip0) ->
                 resp = trip_error 400 "Already joined this trip")).
  { intros resp id0 trip0 H1 _ H3. injection H1 as <-.
    rewrite Ht in H3. injection H3 as <-. split; [lia | contradiction]. }
  destruct (fails env OpUserFind (S (ticks w))).
  { eexists; eexists. split; [reflexivity|].
    apply Hrefused; try reflexivity; [discriminate|]. apply Hguards. }
  destruct (find _ (users w)) as [tr|].
  2:{ eexists; eexists. split; [reflexivity|].
      apply Hrefused; try reflexivity; [discriminate|]. apply Hguards. }
  destruct (fails env OpTripSave (S (S (ticks w)))).
  { eexists; eexists. split; [reflexivity|].
    apply Hrefused; try reflexivity; [discriminate|]. apply Hguards. }
  eexists; eexists. split; [reflexivity|].
  match goal with
  | |- context [notifyTripJoin ?e ?a ?b ?c ?w0] =>
      destruct (keeps_trips_notifyTripJoin e a b c w0) as [Htr Hus]
  end.
  split; [rewrite Hus; reflexivity|].
  split; [intros Hne; exfalso; apply Hne; reflexivity|].
  split; [|apply Hguards].
  intros _. exists id, trip. rewrite Htr. repeat split; auto.
Qed.

(** X7.  Joining a trip is all-or-nothing and guarded.  The join route
    always answers; unless it answers 200 no trip and no notification
    has changed; and it answers 200 only for a stored trip that was
    below capacity and did not list the caller, whose stored document
    then lists the caller once more, at the end.  A full trip is
    refused with 400 "Trip is full", a second join with 400 "Already
    joined this trip". *)
Theorem X7_join_is_guarded_and_all_or_nothing
    (env : Env) (uid : ObjectId) (param : string) (w : World) :
  exists resp w',
    route_trip_join env uid param w = (Ok resp, w')
    /\ users w' = users w
    /\ (status resp <> 200 ->
        trips w' = trips w /\ notifications w' = notifications w)
    /\ (status resp = 200 ->
        exists id trip,
          parseObjectId env param = Some id
          /\ find (fun t => trip_id t =? id) (trips w) = Some trip
          /\ length (trip_participants trip) < trip_capacity trip
          /\ ~ In uid (trip_participants trip)
          /\ resp = joined_response (joined_by uid trip)
          /\ trips w'
             = update_first (fun t => trip_id t =? trip_id trip)
                 (fun _ => joined_by uid trip) (trips w))
    /\ (forall id trip,
          parseObjectId env param = Some id ->
          fails env OpTripFind (ticks w) = false ->
          find (fun t => trip_id t =? id) (trips w) = Some trip ->
          (trip_capacity trip <= length (trip_participants trip) ->
           resp = trip_error 400 "Trip is full")
          /\ (length (trip_participants trip) < trip_capacity trip ->
              In uid (trip_participants trip) ->
              resp = trip_error 400 "Already joined this trip")).
Proof. exact (route_trip_join_effect env uid param w). Qed.

Lemma X7_witness_second_join_refused :
  let env := sample_env true no_faults in
  let w := sample_world [] in
  (parseObjectId env "100" = Some 100
   /\ find (fun t => trip_id t =? 100) (trips w) = Some alps
   /\ In 2 (trip_participants alps))
  /\ fst (route_trip_join env 2 "100" w)
     = Ok (trip_error 400 "Already joined this trip")
  /\ trips (snd (route_trip_join env 2 "100" w)) = trips w.
Proof.
  intros env w.
  destruct (X7_join_is_guarded_and_all_or_nothing env 2 "100" w)
    as (resp & w' & Hrun & _ & Hrefused & _ & Hguards).
  destruct (Hguards 100 alps eq_refl eq_refl eq_refl) as [_ Halready].
  assert (Hresp : resp = trip_error 400 "Already joined this trip")
    by (apply Halready; cbn; [lia | auto]).
  split; [repeat split; cbn; auto|].
  rewrite Hrun. cbn [fst snd]. split; [now rewrite Hresp|].
  apply Hrefused. rewrite Hresp. discriminate.
Defined.

(** What the leave route does, in full. *)
Lemma route_trip_leave_effect
    (env : Env) (uid : ObjectId) (param : string) (w : World) :
  exists resp w',
    route_trip_leave env uid param w = (Ok resp, w')
    /\ users w' = users w
    /\ (status resp <> 200 ->
        trips w' = trips w /\ notifications w' = notifications w)
    /\ (status resp = 200 ->
        exists id trip,
          parseObjectId env param = Some id
          /\ find (fun t => trip_id t =? id) (trips w) = Some trip
          /\ In uid (trip_participants trip)
          /\ resp = left_response (left_by uid trip)
          /\ trips w'
             = update_first (fun t => trip_id t =? trip_id trip)
                 (fun _ => left_by uid trip) (trips w))
    /\ (forall id trip,
          parseObjectId env param = Some id ->
          fails env OpTripFind (ticks w) = false ->
          find (fun t => trip_id t =? id) (trips w) = Some trip ->
          ~ In uid (trip_participants trip) ->
          resp = trip_error 400 "Not part of this trip").
Proof.
  rewrite route_trip_leave_run. cbv zeta.
  assert (Hrefused : forall (resp : Response) (w' : World) (P : Prop),
             status resp <> 200 -> users w' = users w ->
             trips w' = trips w -> notifications w' = notifications w ->
             P ->
             users w' = users w
             /\ (status resp <> 200 ->
                 trips w' = trips w /\ notifications w' = notifications w)
             /\ (status resp = 200 ->
                 exists id trip,
                   parseObjectId env param = Some id
                   /\ find (fun t => trip_id t =? id) (trips w) = Some trip
                   /\ In uid (trip_participants trip)
                   /\ resp = left_response (left_by uid trip)
                   /\ trips w'
                      = update_first (fun t => trip_id t =? trip_id trip)
                          (fun _ => left_by uid trip) (trips w))
             /\ P).
  { intros resp w' P Hne Hu Ht Hn HP. repeat split; auto.
    intros H200. contradiction. }
  destruct (parseObjectId env param) as [id|].
  2:{ eexists; eexists. split; [reflexivity|].
      apply Hrefused; try reflexivity; [discriminate|].
      intros id0 trip0 H1 H2 H3. exfalso. congruence. }
  destruct (fails env OpTripFind (ticks w)) eqn:Hf.
  { eexists; eexists. split; [reflexivity|].
    apply Hrefused; try reflexivity; [discriminate|].
    intros id0 trip0 H1 H2 H3. exfalso. congruence. }
  destruct (find _ (trips w)) as [trip|] eqn:Ht.
  2:{ eexists; eexists. split; [reflexivity|].
      apply Hrefused; try reflexivity; [discriminate|].
      intros id0 trip0 H1 H2 H3. exfalso. injection H1 as <-. congruence. }
  destruct (existsb (Nat.eqb uid) (trip_participants trip)) eqn:Hin;
    cbn [negb].
  2:{ eexists; eexists. split; [reflexivity|].
      apply Hrefused; try reflexivity. discriminate. }
  assert (Hmember : In uid (trip_participants trip)).
  { apply existsb_exists in Hin. destruct Hin as (p & Hp & Heq).
    apply Nat.eqb_eq in Heq. now subst p. }
  assert (Hguard : forall resp id0 trip0,
             Some id = Some id0 -> false = false ->
             find (fun t => trip_id t =? id0) (trips w) = Some trip0 ->
             ~ In uid (trip_participants trip0) ->
             resp = trip_error 400 "Not part of this trip").
  { intros resp id0 trip0 H1 _ H3 Hnot. injection H1 as <-.
    rewrite Ht in H3. injection H3 as <-. contradiction. }
  destruct (fails env OpUserFind (S (ticks w))).
  { eexists; eexists. split; [reflexivity|].
    apply Hrefused; try reflexivity; [discriminate|]. apply Hguard. }
  destruct (find _ (users w)) as [tr|].
  2:{ eexists; eexists. split; [reflexivity|].
      apply Hrefused; try reflexivity; [discriminate|]. apply Hguard. }
  destruct (fails env OpTripSave (S (S (ticks w)))).
  { eexists; eexists. split; [reflexivity|].
    apply Hrefused; try reflexivity; [discriminate|]. apply Hguard. }
  eexists; eexists. split; [reflexivity|].
  match goal with
  | |- context [notifyTripLeave ?e ?a ?b ?c ?w0] =>
      destruct (keeps_trips_notifyTripLeave e a b c w0) as [Htr Hus]
  end.
  split; [rewrite Hus; reflexivity|].
  split; [intros Hne; exfalso; apply Hne; reflexivity|].
  split; [|apply Hguard].
  intros _. exists id, trip. rewrite Htr. repeat split; auto.
Qed.

(** What the delete route does, in full. *)
Lemma route_trip_delete_effect
    (env : Env) (uid : ObjectId) (role : Role) (param : string) (w : World) :
  exists resp w',
    route_trip_delete env uid role param w = (Ok resp, w')
    /\ users w' = users w
    /\ (status resp <> 200 ->
        trips w' = trips w /\ notifications w' = notifications w)
    /\ (role = traveler -> resp = trip_error 403 "Forbidden" /\ w' = w)
    /\ (status resp = 200 ->
        exists id trip org,
          parseObjectId env param = Some id
          /\ find (fun t => trip_id t =? id) (trips w) = Some trip
          /\ find (fun u => user_id u =? trip_organizerId trip) (users w)
             = Some org
          /\ (role = admin \/ (role = organizer /\ user_id org = uid))
          /\ resp = deleted_response (length (trip_participants trip))
          /\ trips w' = remove_first (fun t => trip_id t =? id) (trips w)
          /\ (trip_participants trip = [] ->
              notifications w' = notifications w
              /\ ticks w' = S (S (ticks w))))
    /\ (forall id trip org,
          parseObjectId env param = Some id ->
          fails env OpTripFind (ticks w) = false ->
          find (fun t => trip_id t =? id) (trips w) = Some trip ->
          find (fun u => user_id u =? trip_organizerId trip) (users w)
          = Some org ->
          user_id org <> uid -> role = organizer ->
          resp = trip_error 403 "Not authorized to delete this trip"
          /\ w' = tick w).
Proof.
  destruct (Role_eqb role traveler) eqn:Hr.
  { assert (role = traveler) as ->
      by (destruct role; cbn in Hr; congruence).
    exists (trip_error 403 "Forbidden"), w.
    split; [reflexivity|]. split; [reflexivity|].
    split; [intros _; split; reflexivity|].
    split; [intros _; split; reflexivity|].
    split; [discriminate|]. intros; discriminate. }
  assert (Hrole : role <> traveler) by (intros ->; discriminate).
  rewrite route_trip_delete_run by exact Hrole. cbv zeta.
  assert (Hrefused : forall (resp : Response) (w' : World) (P : Prop),
             status resp <> 200 -> users w' = users w ->
             trips w' = trips w -> notifications w' = notifications w ->
             P ->
             users w' = users w
             /\ (status resp <> 200 ->
                 trips w' = trips w /\ notifications w' = notifications w)
             /\ (role = traveler ->
                 resp = trip_error 403 "Forbidden" /\ w' = w)
             /\ (status resp = 200 ->
                 exists id trip org,
                   parseObjectId env param = Some id
                   /\ find (fun t => trip_id t =? id) (trips w) = Some trip
                   /\ find (fun u => user_id u =? trip_organizerId trip) (users w)
                      = Some org
                   /\ (role = admin \/ (role = organizer /\ user_id org = uid))
                   /\ resp = deleted_response (length (trip_participants trip))
                   /\ trips w' = remove_first (fun t => trip_id t =? id) (trips w)
                   /\ (trip_participants trip = [] ->
                       notifications w' = notifications w
                       /\ ticks w' = S (S (ticks w))))
             /\ P).
  { intros resp w' P Hne Hu Ht Hn HP. repeat split; auto; contradiction. }
  destruct (parseObjectId env param) as [id|].
  2:{ eexists; eexists. split; [reflexivity|].
      apply Hrefused; try reflexivity; [discriminate|].
      intros id0 trip0 org0 H1. discriminate. }
  destruct (fails env OpTripFind (ticks w)) eqn:Hf.
  { eexists; eexists. split; [reflexivity|].
    apply Hrefused; try reflexivity; [discriminate|].
    intros id0 trip0 org0 _ H2. discriminate. }
  destruct (find _ (trips w)) as [trip|] eqn:Ht.
  2:{ eexists; eexists. split; [reflexivity|].
      apply Hrefused; try reflexivity; [discriminate|].
      intros id0 trip0 org0 H1 _ H3. exfalso. injection H1 as <-. congruence. }
  destruct (find _ (users w)) as [org|] eqn:Ho.
  2:{ eexists; eexists. split; [reflexivity|].
      apply Hrefused; try reflexivity; [discriminate|].
      intros id0 trip0 org0 H1 _ H3 H4. exfalso. injection H1 as <-.
      rewrite Ht in H3. injection H3 as <-. congruence. }
  destruct (negb (user_id org =? uid) && negb (is_admin role)) eqn:Hauth.
  { eexists; eexists. split; [reflexivity|].
    apply Hrefused; try reflexivity; [discriminate|].
    intros; split; reflexivity. }
  assert (Hallowed : role = admin \/ (role = organizer /\ user_id org = uid)).
  { apply andb_false_iff in Hauth. destruct Hauth as [H|H].
    - apply negb_false_iff, Nat.eqb_eq in H.
      destruct role; [congruence | right; split; auto | left; reflexivity].
    - left. destruct role; try discriminate. reflexivity. }
  assert (Hguard : forall (resp : Response) (w' : World) id0 trip0 org0,
             Some id = Some id0 -> false = false ->
             find (fun t => trip_id t =? id0) (trips w) = Some trip0 ->
             find (fun u => user_id u =? trip_organizerId trip0) (users w)
             = Some org0 ->
             user_id org0 <> uid -> role = organizer ->
             resp = trip_error 403 "Not authorized to delete this trip"
             /\ w' = tick w).
  { intros resp w' id0 trip0 org0 H1 _ H3 H4 Hn1 Hn2. exfalso.
    injection H1 as <-. rewrite Ht in H3. injection H3 as <-.
    rewrite Ho in H4. injection H4 as <-.
    destruct Hallowed as [Ha|[_ Ha]]; [congruence | contradiction]. }
  destruct (fails env OpTripDelete (S (ticks w))).
  { eexists; eexists. split; [reflexivity|].
    apply Hrefused; try reflexivity; [discriminate|]. apply Hguard. }
  eexists; eexists. split; [reflexivity|]. cbv zeta.
  destruct (trip_participants trip) as [|p ps] eqn:Hps; cbn [length Nat.ltb Nat.leb].
  - cbn. split; [reflexivity|].
    split; [intros Hne; exfalso; apply Hne; reflexivity|].
    split; [intros; contradiction|].
    split; [|apply Hguard].
    intros _. exists id, trip, org. rewrite Hps. repeat split; auto.
  - match goal with
    | |- context [notifyTripDeleted ?e ?a ?b ?c ?d ?w0] =>
        destruct (keeps_trips_notifyTripDeleted e a b c d w0) as [Htr Hus]
    end.
    split; [rewrite Hus; reflexivity|].
    split; [intros Hne; exfalso; apply Hne; reflexivity|].
    split; [intros; contradiction|].
    split; [|apply Hguard].
    intros _. exists id, trip, org. rewrite Htr, Hps.
    repeat split; auto; discriminate.
Qed.

Lemma update_first_undo {A : Type} (p : A -> bool) (a a' : A) (l : list A) :
  find p l = Some a -> p a' = true ->
  update_first p (fun _ => a) (update_first p (fun _ => a') l) = l.
Proof.
  intros Hfind Hp. induction l as [|b l IH]; [discriminate|].
  cbn in *. destruct (p b) eqn:Hb.
  - injection Hfind as ->. cbn. now rewrite Hp.
  - cbn. rewrite Hb. now rewrite IH.
Qed.

Lemma find_update_first {A : Type} (p : A -> bool) (a a' : A) (l : list A) :
  find p l = Some a -> p a' = true ->
  find p (update_first p (fun _ => a') l) = Some a'.
Proof.
  intros Hfind Hp. induction l as [|b l IH]; [discriminate|].
  cbn in *. destruct (p b) eqn:Hb.
  - cbn. now rewrite Hp.
  - cbn. rewrite Hb. now apply IH.
Qed.

Lemma filter_out_last (uid : ObjectId) (ps : list ObjectId) :
  ~ In uid ps ->
  filter (fun p => negb (p =? uid)) (ps ++ [uid]) = ps.
Proof.
  intros Hnot. rewrite filter_app. cbn. rewrite Nat.eqb_refl. cbn.
  rewrite app_nil_r. induction ps as [|p ps IH]; [reflexivity|].
  cbn. destruct (p =? uid) eqn:He.
  - apply Nat.eqb_eq in He. exfalso. apply Hnot. now left.
  - cbn. f_equal. apply IH. intros Hin. apply Hnot. now right.
Qed.

Lemma left_by_joined_by (uid : ObjectId) (t : Trip) :
  ~ In uid (trip_participants t) -> left_by uid (joined_by uid t) = t.
Proof.
  intros Hnot. destruct t as [i o ttl cap ps]. unfold left_by, joined_by.
  cbn in *. now rewrite filter_out_last.
Qed.

(** X8.  The join, leave and delete routes keep every stored trip
    within its capacity and free of duplicate participants. *)
Theorem X8_routes_keep_trips_within_capacity
    (env : Env) (uid : ObjectId) (role : Role) (param : string) (w : World) :
  Forall trip_ok (trips w) ->
  Forall trip_ok (trips (snd (route_trip_join env uid param w)))
  /\ Forall trip_ok (trips (snd (route_trip_leave env uid param w)))
  /\ Forall trip_ok (trips (snd (route_trip_delete env uid role param w))).
Proof.
  intros Hok. split; [|split].
  - destruct (route_trip_join_effect env uid param w)
      as (resp & w' & -> & _ & Hko & H200 & _). cbn [snd].
    destruct (Nat.eq_dec (status resp) 200) as [He|Hne];
      [|now destruct (Hko Hne) as [-> _]].
    destruct (H200 He) as (id & trip & _ & Hfind & Hcap & Hnot & _ & ->).
    apply update_first_Forall; [exact Hok|].
    apply find_some in Hfind. destruct Hfind as [Hin _].
    rewrite Forall_forall in Hok. destruct (Hok trip Hin) as [_ Hnd].
    split; unfold joined_by;
      cbn [trip_participants trip_capacity with_participants].
    + rewrite length_app. cbn. lia.
    + apply NoDup_app; [exact Hnd | repeat constructor; auto |].
      intros p Hp [<-|[]]. contradiction.
  - destruct (route_trip_leave_effect env uid param w)
      as (resp & w' & -> & _ & Hko & H200 & _). cbn [snd].
    destruct (Nat.eq_dec (status resp) 200) as [He|Hne];
      [|now destruct (Hko Hne) as [-> _]].
    destruct (H200 He) as (id & trip & _ & Hfind & _ & _ & ->).
    apply update_first_Forall; [exact Hok|].
    apply find_some in Hfind. destruct Hfind as [Hin _].
    rewrite Forall_forall in Hok. destruct (Hok trip Hin) as [Hlen Hnd].
    split; unfold left_by;
      cbn [trip_participants trip_capacity with_participants].
    + exact (Nat.le_trans _ _ _
               (filter_length_le (fun p => negb (p =? uid))
                  (trip_participants trip)) Hlen).
    + now apply NoDup_filter.
  - destruct (route_trip_delete_effect env uid role param w)
      as (resp & w' & -> & _ & Hko & _ & H200 & _). cbn [snd].
    destruct (Nat.eq_dec (status resp) 200) as [He|Hne];
      [|now destruct (Hko Hne) as [-> _]].
    destruct (H200 He) as (id & trip & org & _ & _ & _ & _ & _ & -> & _).
    now apply remove_first_Forall.
Qed.

Lemma X8_witness_alps :
  Forall trip_ok (trips (sample_world []))
  /\ Forall trip_ok
       (trips (snd (route_trip_join (sample_env true no_faults) 5 "100"
                      (sample_world [])))).
Proof.
  assert (Hok : Forall trip_ok (trips (sample_world []))).
  { repeat constructor; cbn; try lia; intuition discriminate. }
  split; [exact Hok|].
  apply (X8_routes_keep_trips_within_capacity (sample_env true no_faults) 5
           organizer "100" (sample_world []) Hok).
Defined.

(** X9.  Leaving undoes joining.  A granted leave is for the stored
    trip with the request's id, which listed the caller, and stores
    that trip without the caller (the other participants keep their
    order); unless the route answers 200 no trip and no notification
    has changed; a caller who is not on the trip is refused with 400
    "Not part of this trip" after the lookup, and nothing else
    happens; and a granted join followed by a granted leave of the
    same caller puts the trip collection back as it was. *)
Theorem X9_leave_removes_the_caller_and_undoes_join
    (env : Env) (uid : ObjectId) (param : string) (w : World) :
  (exists resp w',
      route_trip_leave env uid param w = (Ok resp, w')
      /\ (status resp = 200 ->
       exists id trip,
         parseObjectId env param = Some id
         /\ find (fun t => trip_id t =? id) (trips w) = Some trip
         /\ In uid (trip_participants trip)
         /\ resp = left_response (left_by uid trip)
         /\ trips w'
            = update_first (fun t => trip_id t =? id)
                (fun _ => left_by uid trip) (trips w)
         /\ ~ In uid (trip_participants (left_by uid trip))
         /\ trip_participants (left_by uid trip)
            = filter (fun p => negb (p =? uid)) (trip_participants trip))
      /\ (status resp <> 200 ->
          trips w' = trips w /\ notifications w' = notifications w)
      /\ (forall id trip,
            parseObjectId env param = Some id ->
            fails env OpTripFind (ticks w) = false ->
            find (fun t => trip_id t =? id) (trips w) = Some trip ->
            ~ In uid (trip_participants trip) ->
            resp = trip_error 400 "Not part of this trip" /\ w' = tick w))
  /\ (forall r1 w1 r2 w2,
        route_trip_join env uid param w = (Ok r1, w1) -> status r1 = 200 ->
        route_trip_leave env uid param w1 = (Ok r2, w2) -> status r2 = 200 ->
        trips w2 = trips w).
Proof.
  split.
  - destruct (route_trip_leave_effect env uid param w)
      as (resp & w' & Hrun & _ & Hko & H200 & _).
    exists resp, w'. split; [exact Hrun|].
    split; [|split; [exact Hko|]].
    + intros He.
      destruct (H200 He) as (id & trip & Hparse & Hfind & Hin & Hresp & Htrips).
      exists id, trip.
      assert (Hid : trip_id trip = id).
      { apply find_some in Hfind. destruct Hfind as [_ Hq].
        now apply Nat.eqb_eq in Hq. }
      rewrite Hid in Htrips. repeat split; auto.
      unfold left_by. cbn [trip_participants with_participants].
      intros Hstill. apply filter_In in Hstill. destruct Hstill as [_ Hneq].
      now rewrite Nat.eqb_refl in Hneq.
    + intros id trip Hparse Hf Hfind Hnot.
      rewrite route_trip_leave_run in Hrun. cbv zeta in Hrun.
      rewrite Hparse, Hf, Hfind in Hrun.
      assert (Hmem : existsb (Nat.eqb uid) (trip_participants trip) = false).
      { destruct (existsb (Nat.eqb uid) (trip_participants trip)) eqn:He;
          [|reflexivity].
        apply member_iff in He. contradiction. }
      rewrite Hmem in Hrun. cbn [negb] in Hrun.
      injection Hrun as <- <-. split; reflexivity.
  - intros r1 w1 r2 w2 Hjoin Hj200 Hleave Hl200.
    destruct (route_trip_join_effect env uid param w)
      as (r1' & w1' & Hjoin' & _ & _ & HJ & _).
    rewrite Hjoin in Hjoin'. injection Hjoin' as <- <-.
    destruct (HJ Hj200) as (id & trip & Hparse & Hfind & _ & Hnot & _ & Htrips1).
    destruct (route_trip_leave_effect env uid param w1)
      as (r2' & w2' & Hleave' & _ & _ & HL & _).
    rewrite Hleave in Hleave'. injection Hleave' as <- <-.
    destruct (HL Hl200) as (id' & trip' & Hparse' & Hfind' & _ & _ & Htrips2).
    rewrite Hparse in Hparse'. injection Hparse' as <-.
    assert (Hid : trip_id trip = id).
    { apply find_some in Hfind. destruct Hfind as [_ He].
      now apply Nat.eqb_eq in He. }
    rewrite Htrips1, Hid in Hfind'.
    rewrite (find_update_first _ trip (joined_by uid trip) (trips w) Hfind)
      in Hfind' by (cbn; rewrite Hid; apply Nat.eqb_refl).
    injection Hfind' as <-.
    rewrite Htrips2, Htrips1, (left_by_joined_by uid trip Hnot).
    change (trip_id (joined_by uid trip)) with (trip_id trip).
    rewrite Hid. apply update_first_undo; [exact Hfind|].
    cbn. rewrite Hid. apply Nat.eqb_refl.
Qed.

(** Dov (5) joins trip 100 and leaves it again; Dov leaving a trip he
    is not on is refused. *)
Lemma X9_witness_join_then_leave :
  let env := sample_env true no_faults in
  let w := sample_world [] in
  let joined := route_trip_join env 5 "100" w in
  let left := route_trip_leave env 5 "100" (snd joined) in
  trips (snd joined) = [joined_by 5 alps]
  /\ trips (snd left) = trips w
  /\ ~ In 5 (trip_participants alps)
  /\ route_trip_leave env 5 "100" w
     = (Ok (trip_error 400 "Not part of this trip"), tick w).
Proof.
  intros env w joined left.
  destruct (X9_leave_removes_the_caller_and_undoes_join env 5 "100" w)
    as [Hleave Hround].
  split; [reflexivity|]. split.
  { apply (Hround (joined_response (joined_by 5 alps)) (snd joined)
                  (left_response alps) (snd left)); vm_compute; reflexivity. }
  assert (Hnot : ~ In 5 (trip_participants alps))
    by (cbn; intuition discriminate).
  split; [exact Hnot|].
  destruct Hleave as (resp & w' & Hrun & _ & _ & Hrefused).
  destruct (Hrefused 100 alps eq_refl eq_refl eq_refl Hnot) as [-> ->].
  exact Hrun.
Defined.

(** X10.  Deleting a trip is reserved to admins and to the trip's
    organizer acting with the organizer role.  The delete route always
    answers.  A caller with the traveler role is turned away by
    [requireRole] with 403 "Forbidden" before anything is read or
    written.  Unless the route answers 200 no trip and no notification
    has changed; it answers 200 only to an admin or to a caller with
    the organizer role who runs the trip; the trip is then gone from
    the collection and the answer counts the trip's participants; a
    trip without participants is deleted without any notification
    call; and a caller with the organizer role who does not run the
    trip gets 403 "Not authorized to delete this trip" after the
    lookup, with nothing done. *)
Theorem X10_only_organizer_or_admin_deletes
    (env : Env) (uid : ObjectId) (role : Role) (param : string) (w : World) :
  exists resp w',
    route_trip_delete env uid role param w = (Ok resp, w')
    /\ users w' = users w
    /\ (status resp <> 200 ->
        trips w' = trips w /\ notifications w' = notifications w)
    /\ (role = traveler -> resp = trip_error 403 "Forbidden" /\ w' = w)
    /\ (status resp = 200 ->
        exists id trip org,
          parseObjectId env param = Some id
          /\ find (fun t => trip_id t =? id) (trips w) = Some trip
          /\ find (fun u => user_id u =? trip_organizerId trip) (users w)
             = Some org
          /\ (role = admin \/ (role = organizer /\ user_id org = uid))
          /\ resp = deleted_response (length (trip_participants trip))
          /\ trips w' = remove_first (fun t => trip_id t =? id) (trips w)
          /\ (trip_participants trip = [] ->
              notifications w' = notifications w
              /\ ticks w' = S (S (ticks w))))
    /\ (forall id trip org,
          parseObjectId env param = Some id ->
          fails env OpTripFind (ticks w) = false ->
          find (fun t => trip_id t =? id) (trips w) = Some trip ->
          find (fun u => user_id u =? trip_organizerId trip) (users w)
          = Some org ->
          user_id org <> uid -> role = organizer ->
          resp = trip_error 403 "Not authorized to delete this trip"
          /\ w' = tick w).
Proof. exact (route_trip_delete_effect env uid role param w). Qed.

(** Dov (5), who does not run trip 100, asks to delete it: as an
    organizer he is refused after the lookup, as a traveler before
    it. *)
Lemma X10_witness_stranger_refused :
  let env := sample_env true no_faults in
  let w := sample_world [] in
  (find (fun t => trip_id t =? 100) (trips w) = Some alps
   /\ user_id (sample_user 1 "Olga") <> 5)
  /\ route_trip_delete env 5 organizer "100" w
     = (Ok (trip_error 403 "Not authorized to delete this trip"), tick w)
  /\ route_trip_delete env 1 traveler "100" w
     = (Ok (trip_error 403 "Forbidden"), w).
Proof.
  intros env w.
  destruct (X10_only_organizer_or_admin_deletes env 5 organizer "100" w)
    as (resp & w' & Hrun & _ & _ & _ & _ & Hrefused).
  destruct (Hrefused 100 alps (sample_user 1 "Olga") eq_refl eq_refl eq_refl
              eq_refl ltac:(discriminate) eq_refl) as [-> ->].
  split; [split; [reflexivity | discriminate]|]. split; [exact Hrun|].
  destruct (X10_only_organizer_or_admin_deletes env 1 traveler "100" w)
    as (resp & w' & Hrun2 & _ & _ & Hforbidden & _).
  destruct (Hforbidden eq_refl) as [-> ->]. exact Hrun2.
Defined.

(** The case at hand contradicts an equation of the context. *)
Ltac no_such_case :=
  intros; exfalso;
  repeat match goal with
         | H : Some _ = Some _ |- _ => injection H as <-
         end;
  congruence.

(** X11.  Updating a trip never notifies anybody and never looks at
    the participant list.  The update route leaves notifications,
    pushes and mail untouched whatever it answers.  A caller with the
    traveler role is turned away by [requireRole] with 403 "Forbidden"
    before anything is read; a caller with the organizer role who does
    not run the trip gets 403 "Not authorized to update this trip"
    before the body is even looked at, with no trip changed; and a
    valid update by an admin, or by a caller with the organizer role
    who runs the trip, stores the new title and capacity on the trip
    and keeps its participants as they are, whether or not they still
    fit the new capacity. *)
Theorem X11_update_never_notifies_nor_checks_participants
    (env : Env) (uid : ObjectId) (role : Role) (param : string)
    (parsed : ParsedUpdate) (w : World) :
  exists resp w',
    route_trip_update env uid role param parsed w = (Ok resp, w')
    /\ notifications w' = notifications w
    /\ emitted w' = emitted w /\ outbox w' = outbox w
    /\ in_flight w' = in_flight w
    /\ (role = traveler -> resp = trip_error 403 "Forbidden" /\ w' = w)
    /\ (forall id trip,
          parseObjectId env param = Some id ->
          fails env OpTripFind (ticks w) = false ->
          find (fun t => trip_id t =? id) (trips w) = Some trip ->
          (trip_organizerId trip <> uid -> role = organizer ->
           resp = trip_error 403 "Not authorized to update this trip"
           /\ trips w' = trips w)
          /\ (role = admin
              \/ (role = organizer /\ trip_organizerId trip = uid) ->
              forall new_title new_capacity,
                parsed = UpdateValid new_title new_capacity ->
                fails env OpTripSave (S (ticks w)) = false ->
                resp = json (trip_json
                               (apply_update new_title new_capacity trip))
                /\ trips w'
                   = update_first (fun t => trip_id t =? id)
                       (apply_update new_title new_capacity) (trips w)
                /\ trip_participants
                     (apply_update new_title new_capacity trip)
                   = trip_participants trip
                /\ forall c, new_capacity = Some c ->
                     trip_capacity (apply_update new_title new_capacity trip)
                     = c)).
Proof.
  destruct (Role_eqb role traveler) eqn:Hr.
  { assert (role = traveler) as ->
      by (destruct role; cbn in Hr; congruence).
    exists (trip_error 403 "Forbidden"), w.
    split; [reflexivity|]. split; [reflexivity|]. split; [reflexivity|].
    split; [reflexivity|]. split; [reflexivity|].
    split; [intros _; split; reflexivity|].
    intros id trip _ _ _. split; [discriminate|].
    intros [H|[H _]]; discriminate. }
  assert (Hrole : role <> traveler) by (intros ->; discriminate).
  assert (Hnot : forall P : Prop, role = traveler -> P)
    by (intros P H; contradiction).
  rewrite route_trip_update_run by exact Hrole. cbv zeta.
  destruct (parseObjectId env param) as [id|].
  2:{ eexists; eexists. split; [reflexivity|].
      repeat split; try apply Hnot; no_such_case. }
  destruct (fails env OpTripFind (ticks w)).
  { eexists; eexists. split; [reflexivity|].
    repeat split; try apply Hnot; no_such_case. }
  destruct (find _ (trips w)) as [trip|] eqn:Ht.
  2:{ eexists; eexists. split; [reflexivity|].
      repeat split; try apply Hnot; no_such_case. }
  destruct (negb (trip_organizerId trip =? uid) && negb (is_admin role))
    eqn:Hauth.
  { eexists; eexists. split; [reflexivity|].
    split; [reflexivity|]. split; [reflexivity|]. split; [reflexivity|].
    split; [reflexivity|]. split; [apply Hnot|].
    intros id0 trip0 H1 _ H3. injection H1 as <-.
    rewrite Ht in H3. injection H3 as <-.
    split; [intros; split; reflexivity|].
    intros Hallowed. exfalso.
    apply andb_true_iff in Hauth. destruct Hauth as [Ho Ha].
    apply negb_true_iff in Ho, Ha. apply Nat.eqb_neq in Ho.
    destruct Hallowed as [H|[_ H]]; [now subst role | contradiction]. }
  assert (Hallowed : role = admin
                     \/ (role = organizer /\ trip_organizerId trip = uid)).
  { apply andb_false_iff in Hauth. destruct Hauth as [H|H].
    - apply negb_false_iff, Nat.eqb_eq in H.
      destruct role; [congruence | right; split; auto | left; reflexivity].
    - left. destruct role; try discriminate. reflexivity. }
  assert (Hno403 : forall P : Prop,
             trip_organizerId trip <> uid -> role = organizer -> P).
  { intros P Hn Ho. exfalso.
    destruct Hallowed as [Ha|[_ Ha]]; [congruence | contradiction]. }
  destruct parsed as [flattened|new_title new_capacity].
  { eexists; eexists. split; [reflexivity|].
    split; [reflexivity|]. split; [reflexivity|]. split; [reflexivity|].
    split; [reflexivity|]. split; [apply Hnot|].
    intros id0 trip0 H1 _ H3. injection H1 as <-.
    rewrite Ht in H3. injection H3 as <-.
    split; [apply Hno403|].
    intros _ nt nc Hp. discriminate. }
  destruct (fails env OpTripSave (S (ticks w))).
  { eexists; eexists. split; [reflexivity|].
    split; [reflexivity|]. split; [reflexivity|]. split; [reflexivity|].
    split; [reflexivity|]. split; [apply Hnot|].
    intros id0 trip0 H1 _ H3. injection H1 as <-.
    rewrite Ht in H3. injection H3 as <-.
    split; [apply Hno403|].
    intros _ nt nc _ Hf. discriminate. }
  eexists; eexists. split; [reflexivity|].
  split; [reflexivity|]. split; [reflexivity|]. split; [reflexivity|].
  split; [reflexivity|]. split; [apply Hnot|].
  intros id0 trip0 H1 _ H3. injection H1 as <-.
  rewrite Ht in H3. injection H3 as <-.
  split; [apply Hno403|].
  intros _ nt nc Hp _. injection Hp as <- <-.
  repeat split. intros c ->. reflexivity.
Qed.

(** The organizer shrinks trip 100, which has three participants, to a
    capacity of one; the same request under the traveler role is
    turned away. *)
Lemma X11_witness_capacity_below_participants :
  let env := sample_env true no_faults in
  let w := sample_world [] in
  let run := route_trip_update env 1 organizer "100"
               (UpdateValid None (Some 1)) w in
  find (fun t => trip_id t =? 100) (trips w) = Some alps
  /\ trips (snd run) = [apply_update None (Some 1) alps]
  /\ trip_capacity (apply_update None (Some 1) alps) = 1
  /\ length (trip_participants (apply_update None (Some 1) alps)) = 3
  /\ notifications (snd run) = []
  /\ route_trip_update env 1 traveler "100" (UpdateValid None (Some 1)) w
     = (Ok (trip_error 403 "Forbidden"), w).
Proof.
  intros env w run.
  destruct (X11_update_never_notifies_nor_checks_participants env 1 organizer
              "100" (UpdateValid None (Some 1)) w)
    as (resp & w' & Hrun & Hn & _ & _ & _ & _ & Hcases).
  destruct (Hcases 100 alps eq_refl eq_refl eq_refl) as [_ Hvalid].
  destruct (Hvalid (or_intror (conj eq_refl eq_refl)) None (Some 1)
              eq_refl eq_refl)
    as (_ & Htrips & Hps & Hcap).
  subst run. rewrite Hrun. cbn [snd].
  split; [reflexivity|]. split; [rewrite Htrips; reflexivity|].
  split; [apply Hcap; reflexivity|]. split; [now rewrite Hps|].
  split; [exact Hn|].
  destruct (X11_update_never_notifies_nor_checks_participants env 1 traveler
              "100" (UpdateValid None (Some 1)) w)
    as (resp2 & w2 & Hrun2 & _ & _ & _ & _ & Hforbidden & _).
  destruct (Hforbidden eq_refl) as [-> ->]. exact Hrun2.
Defined.

(** The trip lookup route, branch by branch. *)
Lemma route_trip_get_run (env : Env) (param : string) (w : World) :
  route_trip_get env param w =
  match parseObjectId env param with
  | None => (Throw (InvalidId "Cast to ObjectId failed"), w)
  | Some id =>
      if fails env OpTripFind (ticks w) then
        (Throw (StoreFailure OpTripFind), tick w)
      else
        match find (fun t => trip_id t =? id) (trips w) with
        | None => (Ok (trip_error 404 "Not found"), tick w)
        | Some t => (Ok (json (trip_json t)), tick w)
        end
  end.
Proof.
  unfold route_trip_get, cast_id.
  destruct (parseObjectId env param) as [id|]; [|reflexivity].
  unfold Trip_findById. unfold_async. rewrite io_run.
  destruct (fails env OpTripFind (ticks w)); [reflexivity|].
  cbn [fst snd trips tick]. destruct (find _ (trips w)); reflexivity.
Qed.

(** X12.  The single-trip lookup has no error handling: for a
    malformed id, or when the lookup fails, the handler throws instead
    of answering; otherwise it answers 404 for an unknown id and the
    stored trip for a known one.  It never writes anything. *)
Theorem X12_trip_lookup_throws_on_bad_id
    (env : Env) (param : string) (w : World) :
  (parseObjectId env param = None ->
   route_trip_get env param w = (Throw (InvalidId "Cast to ObjectId failed"), w))
  /\ (forall id,
        parseObjectId env param = Some id ->
        (fails env OpTripFind (ticks w) = true ->
         route_trip_get env param w = (Throw (StoreFailure OpTripFind), tick w))
        /\ (fails env OpTripFind (ticks w) = false ->
            (forall t,
                find (fun t => trip_id t =? id) (trips w) = Some t ->
                route_trip_get env param w = (Ok (json (trip_json t)), tick w)
                /\ trip_id t = id)
            /\ (find (fun t => trip_id t =? id) (trips w) = None ->
                route_trip_get env param w
                = (Ok (trip_error 404 "Not found"), tick w))))
  /\ trips (snd (route_trip_get env param w)) = trips w
  /\ notifications (snd (route_trip_get env param w)) = notifications w.
Proof.
  rewrite route_trip_get_run. split; [|split; [|split]].
  - intros ->. reflexivity.
  - intros id ->. split; [intros ->; reflexivity|].
    intros ->. split.
    + intros t Ht. rewrite Ht. split; [reflexivity|].
      apply find_some in Ht. destruct Ht as [_ He]. now apply Nat.eqb_eq in He.
    + intros ->. reflexivity.
  - destruct (parseObjectId env param); [|reflexivity].
    destruct (fails env OpTripFind (ticks w)); [reflexivity|].
    destruct (find _ (trips w)); reflexivity.
  - destruct (parseObjectId env param); [|reflexivity].
    destruct (fails env OpTripFind (ticks w)); [reflexivity|].
    destruct (find _ (trips w)); reflexivity.
Qed.

Lemma X12_witness_malformed_id :
  parseObjectId (sample_env true no_faults) "not-an-id" = None
  /\ route_trip_get (sample_env true no_faults) "not-an-id" (sample_world [])
     = (Throw (InvalidId "Cast to ObjectId failed"), sample_world []).
Proof.
  split; [reflexivity|].
  apply (X12_trip_lookup_throws_on_bad_id (sample_env true no_faults)
           "not-an-id" (sample_world [])).
  reflexivity.
Defined.

(** A handler whose [catch] answers never throws. *)
Lemma try_catch_answers (c : M Response) (prefix : string)
    (answer : Error -> Response) (w : World) :
  exists resp w',
    try_catch c (fun error => console_error prefix error ;; ret (answer error)) w
    = (Ok resp, w').
Proof.
  unfold try_catch, console_error, bind, modify, ret.
  destruct (c w) as [[r|e] w1]; eauto.
Qed.

(** X13.  Every handler of the notification router, and the join,
    leave, delete and update handlers of the trip router, always
    answers: whatever the request and whatever fails underneath, the
    handler returns a response and never throws. *)
Theorem X13_wrapped_handlers_always_answer (env : Env) (w : World) :
  (forall uid page limit,
      exists resp w',
        route_get_notifications env uid page limit w = (Ok resp, w'))
  /\ (forall uid, exists resp w', route_unread_count env uid w = (Ok resp, w'))
  /\ (forall uid ids,
        exists resp w', route_mark_read env uid ids w = (Ok resp, w'))
  /\ (forall uid, exists resp w', route_mark_all_read env uid w = (Ok resp, w'))
  /\ (forall uid id,
        exists resp w', route_delete_notification env uid id w = (Ok resp, w'))
  /\ (forall uid,
        exists resp w', route_test_notification env uid w = (Ok resp, w'))
  /\ (forall uid id, exists resp w', route_trip_join env uid id w = (Ok resp, w'))
  /\ (forall uid id, exists resp w', route_trip_leave env uid id w = (Ok resp, w'))
  /\ (forall uid role id,
        exists resp w', route_trip_delete env uid role id w = (Ok resp, w'))
  /\ (forall uid role id parsed,
        exists resp w',
          route_trip_update env uid role id parsed w = (Ok resp, w')).
Proof.
  repeat split; intros;
    try (unfold route_test_notification; destruct (production env);
         [unfold ret; eauto|]);
    try match goal with
        | |- exists _ _, route_trip_delete _ _ ?r _ _ = _ =>
            unfold route_trip_delete; rewrite requireRole_run;
            destruct r; [eauto| |]
        | |- exists _ _, route_trip_update _ _ ?r _ _ _ = _ =>
            unfold route_trip_update; rewrite requireRole_run;
            destruct r; [eauto| |]
        end;
    apply try_catch_answers.
Qed.

(** ** More on the notification routes *)

Lemma five_unread_three_read_unique :
  unique_ids (sample_world five_unread_three_read).
Proof.
  unfold unique_ids. vm_compute.
  repeat (constructor; [simpl; intuition discriminate|]). constructor.
Qed.

Lemma map_Some_inj {A : Type} (l l' : list A) :
  map Some l = map Some l' -> l = l'.
Proof.
  revert l'. induction l as [|a l IH]; intros [|a' l'] H; try discriminate.
  - reflexivity.
  - simpl in H. injection H as -> H. f_equal. now apply IH.
Qed.

(** Parsing a request whose ids are all well formed. *)
Lemma to_objectIds_parsed (env : Env) (ids : list string) (os : list ObjectId)
    (w : World) :
  map (parseObjectId env) ids = map Some os ->
  to_objectIds env ids w = (Ok os, w).
Proof.
  intros Hmap.
  destruct (to_objectIds_run env ids w)
    as [(os' & Hrun & Hmap') | (s & Hin & Hnone & _)].
  - rewrite Hmap in Hmap'. apply map_Some_inj in Hmap'. now subst os'.
  - destruct (parsed_member env ids os s Hmap Hin) as (o & Ho & _). congruence.
Qed.

(** An id that is requested again adds nothing to the ownership
    query. *)
Lemma owned_in_duplicate (caller i : ObjectId) (os : list ObjectId)
    (l : list Notification) :
  In i os ->
  filter (owned_in caller (i :: os)) l = filter (owned_in caller os) l.
Proof.
  intros Hin. apply filter_ext. intros n. unfold owned_in, id_in.
  cbn [existsb]. destruct (_id n =? i) eqn:Hi; [|reflexivity].
  apply Nat.eqb_eq in Hi. cbn [orb].
  assert (He : existsb (Nat.eqb (_id n)) os = true).
  { apply existsb_exists. exists i. split; [exact Hin|]. now apply Nat.eqb_eq. }
  now rewrite He.
Qed.

Lemma owned_in_bound_strict (caller : ObjectId) (os : list ObjectId)
    (l : list Notification) :
  NoDup (map _id l) -> ~ NoDup os ->
  length (filter (owned_in caller os) l) < length os.
Proof.
  intros Hnd. induction os as [|i os IH]; intros Hdup.
  - exfalso. apply Hdup. constructor.
  - destruct (in_dec Nat.eq_dec i os) as [Hin|Hnin].
    + rewrite owned_in_duplicate by exact Hin.
      pose proof (owned_in_bound caller os l Hnd). simpl. lia.
    + assert (Hdup' : ~ NoDup os) by (intros H; apply Hdup; now constructor).
      specialize (IH Hdup'). rewrite owned_in_cons.
      pose proof (filter_orb_length
                    (fun n => (_id n =? i) && (userId n =? caller))
                    (owned_in caller os) l).
      pose proof (at_most_one_by_id (fun n => userId n =? caller) i l Hnd).
      simpl. lia.
Qed.

(** X14.  The mark-read route refuses a request that names a
    notification twice.  The ownership check compares the number of
    documents found with the number of ids sent, so with unique
    document ids a repeated id makes the two differ even when every id
    is a notification of the caller: the answer is 403 and nothing is
    marked. *)
Theorem X14_mark_read_refuses_repeated_ids
    (env : Env) (caller : ObjectId) (ids : list string) (os : list ObjectId)
    (w : World) :
  unique_ids w ->
  map (parseObjectId env) ids = map Some os ->
  ~ NoDup os ->
  fails env OpNotificationFind (ticks w) = false ->
  route_mark_read env caller ids w = (Ok mark_read_rejected, tick w).
Proof.
  intros Hu Hmap Hdup Hf.
  assert (Hne : ids <> []).
  { intros ->. destruct os; [|discriminate]. apply Hdup. constructor. }
  rewrite route_mark_read_run by exact Hne.
  rewrite (to_objectIds_parsed env ids os w Hmap), Hf.
  pose proof (owned_in_bound_strict caller os (notifications w) Hu Hdup) as Hlt.
  destruct (length (filter (owned_in caller os) (notifications w))
            =? length os) eqn:He; [|reflexivity].
  apply Nat.eqb_eq in He. lia.
Qed.

(** Recipient 2 asks twice for its own unread notification 1. *)
Lemma X14_witness_own_id_twice :
  let env := sample_env false no_faults in
  let w := sample_world five_unread_three_read in
  stored_for 2 w 1
  /\ route_mark_read env 2 ["1"; "1"] w = (Ok mark_read_rejected, tick w)
  /\ unreadCount 2 (tick w) = 5.
Proof.
  intros env w. split.
  { exists (sample_notification 1 2 false). vm_compute. intuition. }
  split; [|reflexivity].
  apply (X14_mark_read_refuses_repeated_ids env 2 ["1"; "1"] [1; 1] w
           five_unread_three_read_unique eq_refl).
  - intros H. inversion H as [|? ? Hnotin _]. apply Hnotin. now left.
  - reflexivity.
Defined.

(** When the ownership query finds as many documents as ids were
    sent, every stored document with a requested id is the caller's. *)
Lemma requested_are_owned (caller : ObjectId) (os : list ObjectId) (w : World) :
  unique_ids w ->
  length (filter (owned_in caller os) (notifications w)) = length os ->
  forall n, In n (notifications w) -> id_in os n = true -> userId n = caller.
Proof.
  intros Hu Hlen n Hn Hid.
  pose proof (owned_in_all caller os w Hu Hlen) as Hall.
  rewrite Forall_forall in Hall.
  unfold id_in in Hid. apply existsb_exists in Hid.
  destruct Hid as (o & Ho & Heq). apply Nat.eqb_eq in Heq.
  destruct (Hall o Ho) as (m & Hm & Hmid & Hmu).
  rewrite (same_id_same_document (notifications w) n m Hu Hn Hm) by congruence.
  exact Hmu.
Qed.

Lemma mark_read_frame (caller uid : ObjectId) (os : list ObjectId) (t : nat)
    (l : list Notification) :
  uid <> caller ->
  (forall n, In n l -> id_in os n = true -> userId n = caller) ->
  filter (owned_by uid)
         (map (fun n => if id_in os n then mark_read_at t n else n) l)
  = filter (owned_by uid) l.
Proof.
  intros Hne. induction l as [|n l IH]; intros Hown; [reflexivity|].
  cbn [map filter].
  rewrite IH by (intros m Hm; apply Hown; now right).
  destruct (id_in os n) eqn:Hid; [|reflexivity].
  assert (Hn : owned_by uid n = false).
  { unfold owned_by. apply Nat.eqb_neq.
    rewrite (Hown n (or_introl eq_refl) Hid). congruence. }
  unfold owned_by in *. cbn [userId mark_read_at]. now rewrite Hn.
Qed.

Lemma mark_read_count (caller : ObjectId) (os : list ObjectId) (t : nat)
    (l : list Notification) :
  (forall n, In n l -> id_in os n = true -> userId n = caller) ->
  length (filter (unread_of caller)
            (map (fun n => if id_in os n then mark_read_at t n else n) l))
  + length (filter (fun n => id_in os n && negb (read n)) l)
  = length (filter (unread_of caller) l).
Proof.
  induction l as [|n l IH]; intros Hown; [reflexivity|].
  cbn [map filter].
  specialize (IH (fun m Hm => Hown m (or_intror Hm))).
  destruct (id_in os n) eqn:Hid.
  - pose proof (Hown n (or_introl eq_refl) Hid) as Hu.
    apply Nat.eqb_eq in Hu.
    unfold unread_of at 1. cbn [read userId mark_read_at].
    rewrite andb_false_r. unfold unread_of at 2. rewrite Hu.
    cbn [andb]. destruct (negb (read n)); cbn [length]; lia.
  - cbn [andb]. destruct (unread_of caller n); cbn [length]; lia.
Qed.

(** X15.  The ownership check of the mark-read route keeps the update
    inside the caller's notifications.  [markAsRead] itself marks by
    id alone; behind the route's check, with unique document ids, the
    notifications of every other recipient are left exactly as they
    were, whatever the answer, and on a 200 the caller's unread count
    drops by the number of requested notifications that were unread
    (not by the number the message reports). *)
Theorem X15_mark_read_touches_only_the_caller
    (env : Env) (caller : ObjectId) (ids : list string) (w : World) :
  unique_ids w ->
  exists resp w',
    route_mark_read env caller ids w = (Ok resp, w')
    /\ (forall uid, uid <> caller ->
          filter (owned_by uid) (notifications w')
          = filter (owned_by uid) (notifications w))
    /\ length (notifications w') = length (notifications w)
    /\ (status resp = 200 ->
        exists os,
          map (parseObjectId env) ids = map Some os
          /\ unreadCount caller w'
             + length (filter (fun n => id_in os n && negb (read n))
                              (notifications w))
             = unreadCount caller w).
Proof.
  intros Hu.
  assert (Hsame : forall (resp : Response) (w' : World),
             status resp <> 200 -> notifications w' = notifications w ->
             (forall uid, uid <> caller ->
                filter (owned_by uid) (notifications w')
                = filter (owned_by uid) (notifications w))
             /\ length (notifications w') = length (notifications w)
             /\ (status resp = 200 ->
                 exists os,
                   map (parseObjectId env) ids = map Some os
                   /\ unreadCount caller w'
                      + length (filter (fun n => id_in os n && negb (read n))
                                       (notifications w))
                      = unreadCount caller w)).
  { intros resp w' Hst Hn. rewrite Hn.
    split; [reflexivity|]. split; [reflexivity|]. contradiction. }
  destruct ids as [|s ids].
  { eexists; eexists. split; [reflexivity|].
    apply Hsame; [discriminate | reflexivity]. }
  rewrite route_mark_read_run by discriminate.
  destruct (to_objectIds_run env (s :: ids) w)
    as [(os & Hrun & Hmap) | (s' & _ & _ & Hrun)]; rewrite Hrun.
  2:{ eexists; eexists. split; [reflexivity|].
      apply Hsame; [discriminate | reflexivity]. }
  destruct (fails env OpNotificationFind (ticks w)).
  { eexists; eexists. split; [reflexivity|].
    apply Hsame; [discriminate | reflexivity]. }
  destruct (length (filter (owned_in caller os) (notifications w))
            =? length os) eqn:Hlen; cbn [negb].
  2:{ eexists; eexists. split; [reflexivity|].
      apply Hsame; [discriminate | reflexivity]. }
  apply Nat.eqb_eq in Hlen.
  destruct (fails env OpNotificationUpdate (S (ticks w))).
  { eexists; eexists. split; [reflexivity|].
    apply Hsame; [discriminate | reflexivity]. }
  pose proof (requested_are_owned caller os w Hu Hlen) as Hown.
  eexists; eexists. split; [reflexivity|].
  cbn [notifications set_notifications]. split; [|split].
  - intros uid Hne. now apply (mark_read_frame caller).
  - apply length_map.
  - intros _. exists os. split; [exact Hmap|].
    unfold unreadCount. cbn [notifications set_notifications].
    now apply mark_read_count.
Qed.

(** Recipient 2 marks two unread notifications and one that was read
    already: its unread count drops by two, and recipient 3 keeps its
    two unread notifications. *)
Lemma X15_witness_two_of_three :
  let env := sample_env false no_faults in
  let w := sample_world five_unread_three_read in
  unique_ids w
  /\ exists resp w',
       route_mark_read env 2 ["1"; "2"; "6"] w = (Ok resp, w')
       /\ status resp = 200
       /\ unreadCount 2 w = 5 /\ unreadCount 2 w' = 3
       /\ filter (owned_by 3) (notifications w')
          = filter (owned_by 3) (notifications w).
Proof.
  intros env w. split; [exact five_unread_three_read_unique|].
  destruct (X15_mark_read_touches_only_the_caller env 2 ["1"; "2"; "6"] w
              five_unread_three_read_unique)
    as (resp & w' & Hrun & Hframe & _ & _).
  exists resp, w'. split; [exact Hrun|].
  remember (route_mark_read env 2 ["1"; "2"; "6"] w) as run eqn:Hr.
  vm_compute in Hr. rewrite Hr in Hrun. injection Hrun as <- <-.
  split; [reflexivity|]. split; [reflexivity|]. split; [reflexivity|].
  reflexivity.
Defined.

Lemma filter_all {A : Type} (f : A -> bool) (l : list A) :
  (forall a, In a l -> f a = true) -> filter f l = l.
Proof.
  induction l as [|a l IH]; intros H; simpl; [reflexivity|].
  rewrite (H a (or_introl eq_refl)). f_equal. apply IH.
  intros b Hb. apply H. now right.
Qed.

(** With unique ids, deleting by id removes every document with that
    id. *)
Lemma remove_first_unique (id : ObjectId) (l : list Notification) :
  NoDup (map _id l) ->
  remove_first (fun n => _id n =? id) l
  = filter (fun n => negb (_id n =? id)) l.
Proof.
  induction l as [|a l IH]; intros Hnd; [reflexivity|].
  inversion Hnd as [|? ? Hnotin Hnd']; subst. cbn [remove_first filter].
  destruct (_id a =? id) eqn:Ha; cbn [negb].
  - apply Nat.eqb_eq in Ha. symmetry. apply filter_all.
    intros m Hm. apply negb_true_iff, Nat.eqb_neq. intros Heq.
    apply Hnotin. rewrite Ha, <- Heq. now apply in_map.
  - f_equal. now apply IH.
Qed.

Lemma remove_first_length {A : Type} (p : A -> bool) (l : list A) (a : A) :
  In a l -> p a = true -> length (remove_first p l) + 1 = length l.
Proof.
  induction l as [|b l IH]; simpl; [contradiction|].
  intros Hin Hp. destruct (p b) eqn:Hb; simpl; [lia|].
  destruct Hin as [->|Hin]; [congruence|].
  specialize (IH Hin Hp). lia.
Qed.

(** X16.  Deleting a notification removes that one document and no
    other.  With unique document ids, a 200 from the delete route
    means the id was a stored notification of the caller; afterwards
    no stored document has that id, every other document is still
    stored, in its place, and the same request repeated answers 404.
    With any other answer the store is unchanged. *)
Theorem X16_delete_removes_exactly_one_notification
    (env : Env) (caller : ObjectId) (s : string) (w : World) :
  unique_ids w ->
  exists resp w',
    route_delete_notification env caller s w = (Ok resp, w')
    /\ (status resp <> 200 -> notifications w' = notifications w)
    /\ (status resp = 200 ->
        exists id n,
          parseObjectId env s = Some id
          /\ In n (notifications w) /\ _id n = id /\ userId n = caller
          /\ notifications w'
             = filter (fun m => negb (_id m =? id)) (notifications w)
          /\ length (notifications w') + 1 = length (notifications w)
          /\ unique_ids w'
          /\ (fails env OpNotificationFind (ticks w') = false ->
              route_delete_notification env caller s w'
              = (Ok delete_not_found, tick w'))).
Proof.
  intros Hu. rewrite route_delete_notification_run.
  destruct (parseObjectId env s) as [id|] eqn:Hs.
  2:{ eexists; eexists. split; [reflexivity|].
      split; [reflexivity | discriminate]. }
  destruct (fails env OpNotificationFind (ticks w)).
  { eexists; eexists. split; [reflexivity|].
    split; [reflexivity | discriminate]. }
  destruct (find (fun n => (_id n =? id) && (userId n =? caller))
                 (notifications w)) as [n|] eqn:Hfind.
  2:{ eexists; eexists. split; [reflexivity|].
      split; [reflexivity | discriminate]. }
  destruct (fails env OpNotificationDelete (S (ticks w))).
  { eexists; eexists. split; [reflexivity|].
    split; [reflexivity | discriminate]. }
  eexists; eexists. split; [reflexivity|].
  split; [intros H; now destruct H|]. intros _.
  pose proof (find_some _ _ Hfind) as [Hin Hq].
  apply andb_prop in Hq. destruct Hq as [Hid Huid].
  apply Nat.eqb_eq in Hid, Huid.
  exists id, n. split; [reflexivity|]. split; [exact Hin|].
  split; [exact Hid|]. split; [exact Huid|].
  cbn [notifications set_notifications].
  split; [now apply remove_first_unique|].
  split.
  { apply remove_first_length with (a := n); [exact Hin|].
    now apply Nat.eqb_eq. }
  split; [unfold unique_ids; cbn [notifications set_notifications];
          now apply remove_first_NoDup|].
  intros Hf. rewrite route_delete_notification_run, Hs, Hf.
  cbn [notifications set_notifications].
  rewrite remove_first_unique by exact Hu.
  rewrite find_none_iff; [reflexivity|].
  intros m Hm. apply filter_In in Hm. destruct Hm as [_ Hm].
  apply negb_true_iff in Hm. now rewrite Hm.
Qed.

(** Recipient 2 deletes its notification 1; asking again answers
    404. *)
Lemma X16_witness_delete_twice :
  let env := sample_env false no_faults in
  let w := sample_world five_unread_three_read in
  unique_ids w
  /\ exists resp w',
       route_delete_notification env 2 "1" w = (Ok resp, w')
       /\ status resp = 200
       /\ length (notifications w') + 1 = length (notifications w)
       /\ route_delete_notification env 2 "1" w'
          = (Ok delete_not_found, tick w').
Proof.
  intros env w. split; [exact five_unread_three_read_unique|].
  destruct (X16_delete_removes_exactly_one_notification env 2 "1" w
              five_unread_three_read_unique)
    as (resp & w' & Hrun & _ & H200).
  assert (Hst : status resp = 200).
  { remember (route_delete_notification env 2 "1" w) as run eqn:Hr.
    vm_compute in Hr. rewrite Hr in Hrun. injection Hrun as <- _.
    reflexivity. }
  destruct (H200 Hst) as (id & n & _ & _ & _ & _ & _ & Hlen & _ & Hagain).
  exists resp, w'. split; [exact Hrun|]. split; [exact Hst|].
  split; [exact Hlen|]. apply Hagain. reflexivity.
Defined.

(** A request with a malformed id fails at the first one, before any
    store access. *)
Lemma to_objectIds_malformed (env : Env) (ids : list string) (s : string)
    (w : World) :
  In s ids -> parseObjectId env s = None ->
  exists s',
    In s' ids /\ parseObjectId env s' = None
    /\ to_objectIds env ids w
       = (Throw (InvalidId ("Invalid notification ID: " ++ s')), w).
Proof.
  intros Hin Hnone.
  destruct (to_objectIds_run env ids w)
    as [(os & _ & Hmap) | (s' & Hin' & Hnone' & Hrun)].
  - destruct (parsed_member env ids os s Hmap Hin) as (o & Ho & _). congruence.
  - exists s'. auto.
Qed.

(** X17.  Malformed requests are answered without touching the
    store, and differently by the two routes: mark-read answers 400
    for an empty id list, and 500 with the parser's message for a
    list holding a malformed id (and logs it); delete answers 400 for
    a malformed id.  In each case no database call is made and no
    notification changes. *)
Theorem X17_malformed_requests_reach_no_store
    (env : Env) (caller : ObjectId) (w : World) :
  (exists resp,
      route_mark_read env caller [] w = (Ok resp, w) /\ status resp = 400)
  /\ (forall ids s,
        In s ids -> parseObjectId env s = None ->
        exists s',
          In s' ids /\ parseObjectId env s' = None
          /\ route_mark_read env caller ids w
             = (Ok (mark_read_failed
                      (InvalidId ("Invalid notification ID: " ++ s'))),
                push_console
                  ("Error marking notifications as read: "
                   ++ "Invalid notification ID: " ++ s') w)
          /\ status (mark_read_failed
                       (InvalidId ("Invalid notification ID: " ++ s'))) = 500)
  /\ (forall s,
        parseObjectId env s = None ->
        exists resp,
          route_delete_notification env caller s w = (Ok resp, w)
          /\ status resp = 400).
Proof.
  split; [|split].
  - eexists. split; reflexivity.
  - intros ids s Hin Hnone.
    destruct (to_objectIds_malformed env ids s w Hin Hnone)
      as (s' & Hin' & Hnone' & Hrun).
    exists s'. split; [exact Hin'|]. split; [exact Hnone'|].
    split; [|reflexivity].
    rewrite route_mark_read_run by (intros ->; contradiction).
    rewrite Hrun. reflexivity.
  - intros s Hnone. rewrite route_delete_notification_run, Hnone.
    eexists. split; reflexivity.
Qed.

(** Recipient 2 sends its own id 1 together with a malformed id. *)
Lemma X17_witness_one_malformed_id :
  let env := sample_env false no_faults in
  let w := sample_world five_unread_three_read in
  parseObjectId env "x1" = None
  /\ exists resp w',
       route_mark_read env 2 ["1"; "x1"] w = (Ok resp, w')
       /\ status resp = 500 /\ ticks w' = ticks w
       /\ notifications w' = notifications w.
Proof.
  intros env w. split; [reflexivity|].
  destruct (X17_malformed_requests_reach_no_store env 2 w) as (_ & Hbad & _).
  destruct (Hbad ["1"; "x1"] "x1") as (s' & _ & _ & Hrun & Hst);
    [simpl; auto | reflexivity |].
  eexists; eexists. split; [exact Hrun|]. split; [exact Hst|].
  split; reflexivity.
Defined.

Lemma insert_desc_In (n m : Notification) (l : list Notification) :
  In m (insert_desc n l) -> m = n \/ In m l.
Proof.
  induction l as [|a l IH]; simpl.
  - intros [<-|[]]. now left.
  - destruct (createdAt a <? createdAt n); simpl.
    + intros [<-|[<-|H]]; auto.
    + intros [<-|H]; [auto|]. destruct (IH H); auto.
Qed.

Lemma sort_createdAt_desc_In (m : Notification) (l : list Notification) :
  In m (sort_createdAt_desc l) -> In m l.
Proof.
  unfold sort_createdAt_desc. induction l as [|a l IH]; simpl; [auto|].
  intros H. apply insert_desc_In in H. destruct H as [->|H]; auto.
Qed.

Lemma firstn_In_sub {A : Type} (k : nat) (l : list A) (a : A) :
  In a (firstn k l) -> In a l.
Proof.
  intros H. rewrite <- (firstn_skipn k l). apply in_or_app. now left.
Qed.

Lemma skipn_In_sub {A : Type} (k : nat) (l : list A) (a : A) :
  In a (skipn k l) -> In a l.
Proof.
  intros H. rewrite <- (firstn_skipn k l). apply in_or_app. now right.
Qed.

(** What a granted [getUserNotifications] returns. *)
Lemma getUserNotifications_ok_inv (env : Env) (uid : ObjectId) (page limit : Z)
    (w : World) (r : NotificationPage) (w' : World) :
  getUserNotifications env uid page limit w = (Ok r, w') ->
  notifications w' = notifications w
  /\ np_notifications r
     = skip_limit ((page - 1) * limit) limit
         (sort_createdAt_desc (filter (owned_by uid) (notifications w))).
Proof.
  unfold getUserNotifications, Notification_find_page,
    Notification_countDocuments.
  unfold bind at 1. unfold bind at 1. rewrite io_run.
  destruct (fails env OpNotificationFind (ticks w)); [discriminate|].
  destruct ((page - 1) * limit <? 0)%Z; [discriminate|].
  unfold_async. rewrite io_run. cbn [fst snd tick ticks notifications].
  destruct (fails env OpNotificationCount (S (ticks w))); [discriminate|].
  rewrite getUnreadCount_run. cbn [fst snd tick ticks notifications].
  destruct (fails env OpNotificationCount (S (S (ticks w))));
    [discriminate|].
  intros H. injection H as <- <-. split; reflexivity.
Qed.

(** X18.  The list route serves only the caller's notifications and
    falls back to page 1 and 20 a page.  Whatever page and limit are
    asked for, every document in a granted answer is a stored
    notification of the caller and the store is left as it was; and
    when page and limit are absent, not numbers or 0, the answer is
    the caller's 20 newest notifications, with the page count taken
    for 20 a page. *)
Theorem X18_list_is_scoped_and_defaults_to_twenty
    (env : Env) (uid : ObjectId) (query_page query_limit : option Z)
    (w : World) :
  (forall r w',
      getUserNotifications env uid (or_default query_page 1)
        (or_default query_limit 20) w = (Ok r, w') ->
      route_get_notifications env uid query_page query_limit w
      = (Ok (list_response r), w')
      /\ notifications w' = notifications w
      /\ (forall n, In n (np_notifications r) ->
                    In n (notifications w) /\ userId n = uid))
  /\ ((query_page = None \/ query_page = Some 0%Z) ->
      (query_limit = None \/ query_limit = Some 0%Z) ->
      fails env OpNotificationFind (ticks w) = false ->
      fails env OpNotificationCount (S (ticks w)) = false ->
      fails env OpNotificationCount (S (S (ticks w))) = false ->
      exists r pages,
        route_get_notifications env uid query_page query_limit w
        = (Ok (list_response r), tick (tick (tick w)))
        /\ np_notifications r
           = firstn 20 (sort_createdAt_desc
                          (filter (owned_by uid) (notifications w)))
        /\ np_pagination r
           = {| pg_page := 1; pg_limit := 20;
                pg_total := length (filter (owned_by uid) (notifications w));
                pg_pages := Some pages |}
        /\ (20 * (pages - 1)
            < Z.of_nat (length (filter (owned_by uid) (notifications w)))
            <= 20 * pages)%Z).
Proof.
  split.
  - intros r w' Hrun.
    assert (Hroute : route_get_notifications env uid query_page query_limit w
                     = (Ok (list_response r), w')).
    { unfold route_get_notifications, try_catch, bind at 1. cbv zeta.
      rewrite Hrun. reflexivity. }
    split; [exact Hroute|].
    destruct (getUserNotifications_ok_inv env uid _ _ w r w' Hrun)
      as (Hsame & Hitems).
    split; [exact Hsame|].
    intros n Hn. rewrite Hitems in Hn. unfold skip_limit in Hn.
    assert (Hin : In n (sort_createdAt_desc
                          (filter (owned_by uid) (notifications w)))).
    { destruct (or_default query_limit 20 =? 0)%Z.
      - now apply skipn_In_sub in Hn.
      - apply firstn_In_sub in Hn. now apply skipn_In_sub in Hn. }
    apply sort_createdAt_desc_In, filter_In in Hin.
    destruct Hin as [Hin Ho]. split; [exact Hin|].
    now apply Nat.eqb_eq in Ho.
  - intros Hp Hl H1 H2 H3.
    assert (Hpage : or_default query_page 1 = 1%Z)
      by (destruct Hp as [->| ->]; reflexivity).
    assert (Hlimit : or_default query_limit 20 = 20%Z)
      by (destruct Hl as [->| ->]; reflexivity).
    destruct (math_ceil_div_spec
                (length (filter (owned_by uid) (notifications w))) 20
                ltac:(lia)) as (pages & Hpages & Hb).
    eexists; exists pages. split.
    + unfold route_get_notifications, try_catch, bind at 1. cbv zeta.
      rewrite Hpage, Hlimit.
      rewrite getUserNotifications_run by (auto; lia). reflexivity.
    + cbn [np_notifications np_pagination]. rewrite Hpages.
      split; [reflexivity|]. split; [reflexivity|]. lia.
Qed.

(** Recipient 2, with 45 notifications, asks without page or limit. *)
Lemma X18_witness_forty_five :
  let env := sample_env false no_faults in
  let w := sample_world forty_five in
  exists r,
    route_get_notifications env 2 None None w
    = (Ok (list_response r), tick (tick (tick w)))
    /\ length (np_notifications r) = 20
    /\ pg_pages (np_pagination r) = Some 3%Z.
Proof.
  intros env w.
  destruct (X18_list_is_scoped_and_defaults_to_twenty env 2 None None w)
    as (_ & Hdefault).
  destruct (Hdefault (or_introl eq_refl) (or_introl eq_refl)
              eq_refl eq_refl eq_refl)
    as (r & pages & Hrun & Hitems & Hpag & Hb).
  exists r. split; [exact Hrun|]. rewrite Hitems, Hpag.
  split; [reflexivity|]. cbn [pg_pages]. f_equal.
  change (Z.of_nat (length (filter (owned_by 2) (notifications w))))
    with 45%Z in Hb.
  lia.
Defined.

(** X19.  The test route is closed in production and never sends
    mail.  In production it answers 403 and does nothing.  Elsewhere,
    when the insert goes through, it stores one unread [system]
    notification for the caller, as the last document of the store,
    and hands nothing to the mail transport even when one is
    configured; when the insert fails it answers 500 and stores
    nothing. *)
Theorem X19_test_route_closed_in_production
    (env : Env) (uid : ObjectId) (w : World) :
  (production env = true ->
   exists resp,
     route_test_notification env uid w = (Ok resp, w) /\ status resp = 403)
  /\ (production env = false ->
      (fails env OpNotificationCreate (ticks w) = false ->
       exists resp w',
         route_test_notification env uid w = (Ok resp, w')
         /\ status resp = 200
         /\ notifications w'
            = (notifications w
               ++ [new_document env (test_notification_data uid) w])%list
         /\ outbox w' = outbox w
         /\ unreadCount uid w' = S (unreadCount uid w))
      /\ (fails env OpNotificationCreate (ticks w) = true ->
          exists resp w',
            route_test_notification env uid w = (Ok resp, w')
            /\ status resp = 500
            /\ notifications w' = notifications w
            /\ outbox w' = outbox w)).
Proof.
  split.
  - intros Hprod. unfold route_test_notification. rewrite Hprod.
    eexists. split; reflexivity.
  - intros Hprod. unfold route_test_notification. rewrite Hprod.
    fold (test_notification_data uid). split; intros Hf.
    + destruct (createNotification_stores env (test_notification_data uid) w
                  (conj eq_refl eq_refl) Hf)
        as (w' & Hrun & _ & _ & _ & _ & _ & Hplain).
      destruct (Hplain eq_refl) as (Hout & Hn).
      unfold try_catch, bind at 1. rewrite Hrun.
      eexists; eexists. split; [reflexivity|]. split; [reflexivity|].
      split; [exact Hn|]. split; [exact Hout|].
      unfold unreadCount. rewrite Hn, filter_app, length_app.
      cbn [filter]. unfold unread_of at 2.
      cbn [userId read new_document test_notification_data nd_userId].
      rewrite Nat.eqb_refl. cbn [andb negb length]. lia.
    + pose proof (Notification_create_run env uid system
                    (nd_title (test_notification_data uid))
                    (nd_message (test_notification_data uid))
                    (payload_of (test_notification_data uid))
                    false false w) as Hc.
      rewrite Hf in Hc. cbn [negb required] in Hc.
      change (negb (required (nd_title (test_notification_data uid))))
        with false in Hc.
      change (negb (required (nd_message (test_notification_data uid))))
        with false in Hc.
      cbv iota in Hc.
      pose proof (createNotification_insert_throws env
                    (test_notification_data uid) w _ _ Hc) as Hrun.
      unfold try_catch, bind at 1. rewrite Hrun.
      eexists; eexists. split; [reflexivity|].
      split; [reflexivity|]. split; reflexivity.
Qed.

(** Recipient 2 calls the test route with a mail transport
    configured. *)
Lemma X19_witness_no_mail :
  let env := sample_env true no_faults in
  let w := sample_world [] in
  exists resp w',
    route_test_notification env 2 w = (Ok resp, w')
    /\ status resp = 200
    /\ length (notifications w') = 1
    /\ outbox w' = []
    /\ unreadCount 2 w' = 1.
Proof.
  intros env w.
  destruct (X19_test_route_closed_in_production env 2 w) as (_ & Hdev).
  destruct (Hdev eq_refl) as (Hok & _).
  destruct (Hok eq_refl) as (resp & w' & Hrun & Hst & Hn & Hout & Hcount).
  exists resp, w'. split; [exact Hrun|]. split; [exact Hst|].
  split; [rewrite Hn; reflexivity|]. split; [exact Hout|]. exact Hcount.
Defined.

(** The documents a mark-all-read changes are the caller's unread
    ones. *)
Lemma modified_are_the_unread (uid : ObjectId) (t : nat)
    (l : list Notification) :
  filter (fun n => unread_of uid n
                   && (negb (read n) || negb (updatedAt n =? t))) l
  = filter (unread_of uid) l.
Proof.
  apply filter_ext. intros n. unfold unread_of.
  destruct (userId n =? uid), (read n); reflexivity.
Qed.

Lemma mark_all_twice (uid : ObjectId) (t : nat) (l : list Notification) :
  filter (unread_of uid) l = [] ->
  map (fun n => if unread_of uid n then mark_read_at t n else n) l = l.
Proof.
  induction l as [|n l IH]; intros Hnone; [reflexivity|].
  cbn [filter] in Hnone. cbn [map].
  destruct (unread_of uid n); [discriminate|]. f_equal. now apply IH.
Qed.

(** X20.  The mark-all-read route reports the number of notifications
    it changed.  When the update goes through, the message carries the
    caller's unread count as it was before the request, and the same
    request repeated reports 0 and changes no document. *)
Theorem X20_mark_all_read_reports_the_unread_count
    (env : Env) (uid : ObjectId) (w : World) :
  fails env OpNotificationUpdate (ticks w) = false ->
  exists w',
    route_mark_all_read env uid w
    = (Ok (mark_read_done (unreadCount uid w)), w')
    /\ ticks w' = S (ticks w)
    /\ (fails env OpNotificationUpdate (S (ticks w)) = false ->
        exists w'',
          route_mark_all_read env uid w' = (Ok (mark_read_done 0), w'')
          /\ notifications w'' = notifications w').
Proof.
  intros Hf.
  assert (Hrun : forall w0,
             fails env OpNotificationUpdate (ticks w0) = false ->
             route_mark_all_read env uid w0
             = (Ok (mark_read_done (unreadCount uid w0)),
                set_notifications
                  (map (fun n => if unread_of uid n
                                 then mark_read_at (clock env (S (ticks w0))) n
                                 else n)
                       (notifications w0))
                  (tick w0))).
  { intros w0 Hf0.
    unfold route_mark_all_read, Notification_updateMany_read. unfold_async.
    rewrite io_run, Hf0. cbn [fst snd tick ticks notifications].
    rewrite modified_are_the_unread. reflexivity. }
  eexists. split; [apply Hrun; exact Hf|]. split; [reflexivity|].
  intros Hf2. eexists. split.
  - rewrite Hrun by exact Hf2. unfold unreadCount at 1.
    cbn [notifications set_notifications].
    rewrite mark_all_leaves_none_unread. reflexivity.
  - cbn [notifications set_notifications].
    apply mark_all_twice. apply mark_all_leaves_none_unread.
Qed.

(** Recipient 2, with five unread notifications, marks all read
    twice. *)
Lemma X20_witness_five_then_none :
  let env := sample_env false no_faults in
  let w := sample_world five_unread_three_read in
  exists w',
    route_mark_all_read env 2 w
    = (Ok (json (JObj [("success", JBool true);
                       ("message", JStr "5 notifications marked as read")])),
       w')
    /\ exists w'',
         route_mark_all_read env 2 w'
         = (Ok (json (JObj [("success", JBool true);
                            ("message",
                             JStr "0 notifications marked as read")])),
            w'').
Proof.
  intros env w.
  destruct (X20_mark_all_read_reports_the_unread_count env 2 w eq_refl)
    as (w' & Hrun & _ & Hagain).
  destruct (Hagain eq_refl) as (w'' & Hrun2 & _).
  exists w'. split; [exact Hrun|]. exists w''. exact Hrun2.
Defined.

(** ** The client's relative dates *)

(** X21.  [formatTimeAgo] shows whole minutes, hours or days, rounded
    down, and a date only after a week.  With [e] the milliseconds
    elapsed since the date: under one minute (and for a date in the
    future) the label is "Just now"; from one minute to under an hour
    it is [e / 60000] minutes, a number from 1 to 59; from one hour to
    under a day [e / 3600000] hours, from 1 to 23; from one day to
    under a week [e / 86400000] days, from 1 to 6; from a week on, and
    for an invalid date, it is the browser's date string. *)
Theorem X21_formatTimeAgo_buckets
    (toLocaleDateString : option Z -> string) (now d : Z) :
  let e := (now - d)%Z in
  let label := formatTimeAgo toLocaleDateString now (Some d) in
  ((e < 60000)%Z -> label = "Just now")
  /\ ((60000 <= e < 3600000)%Z ->
      label = string_of_Z (e / 60000) ++ "m ago"
      /\ (1 <= e / 60000 <= 59)%Z)
  /\ ((3600000 <= e < 86400000)%Z ->
      label = string_of_Z (e / 3600000) ++ "h ago"
      /\ (1 <= e / 3600000 <= 23)%Z)
  /\ ((86400000 <= e < 604800000)%Z ->
      label = string_of_Z (e / 86400000) ++ "d ago"
      /\ (1 <= e / 86400000 <= 6)%Z)
  /\ ((604800000 <= e)%Z -> label = toLocaleDateString (Some d))
  /\ formatTimeAgo toLocaleDateString now None = toLocaleDateString None.
Proof.
  intros e label. subst label. unfold formatTimeAgo. fold e. cbv zeta.
  assert (Hs : (1000 * (e / 1000) <= e < 1000 * (e / 1000) + 1000)%Z).
  { pose proof (Z.mul_div_le e 1000 ltac:(lia)).
    pose proof (Z.mul_succ_div_gt e 1000 ltac:(lia)). lia. }
  assert (Hm : (e / 1000 / 60 = e / 60000)%Z)
    by (rewrite Z.div_div by lia; reflexivity).
  assert (Hh : (e / 1000 / 3600 = e / 3600000)%Z)
    by (rewrite Z.div_div by lia; reflexivity).
  assert (Hd : (e / 1000 / 86400 = e / 86400000)%Z)
    by (rewrite Z.div_div by lia; reflexivity).
  rewrite Hm, Hh, Hd.
  assert (Hbm : (60000 * (e / 60000) <= e < 60000 * (e / 60000) + 60000)%Z).
  { pose proof (Z.mul_div_le e 60000 ltac:(lia)).
    pose proof (Z.mul_succ_div_gt e 60000 ltac:(lia)). lia. }
  assert (Hbh : (3600000 * (e / 3600000) <= e
                 < 3600000 * (e / 3600000) + 3600000)%Z).
  { pose proof (Z.mul_div_le e 3600000 ltac:(lia)).
    pose proof (Z.mul_succ_div_gt e 3600000 ltac:(lia)). lia. }
  assert (Hbd : (86400000 * (e / 86400000) <= e
                 < 86400000 * (e / 86400000) + 86400000)%Z).
  { pose proof (Z.mul_div_le e 86400000 ltac:(lia)).
    pose proof (Z.mul_succ_div_gt e 86400000 ltac:(lia)). lia. }
  destruct (e / 1000 <? 60)%Z eqn:H1;
    [apply Z.ltb_lt in H1 | apply Z.ltb_ge in H1].
  { repeat split; try reflexivity; intros; lia. }
  destruct (e / 1000 <? 3600)%Z eqn:H2;
    [apply Z.ltb_lt in H2 | apply Z.ltb_ge in H2].
  { repeat split; try reflexivity; intros; lia. }
  destruct (e / 1000 <? 86400)%Z eqn:H3;
    [apply Z.ltb_lt in H3 | apply Z.ltb_ge in H3].
  { repeat split; try reflexivity; intros; lia. }
  destruct (e / 1000 <? 604800)%Z eqn:H4;
    [apply Z.ltb_lt in H4 | apply Z.ltb_ge in H4].
  { repeat split; try reflexivity; intros; lia. }
  repeat split; try reflexivity; intros; lia.
Qed.

(** Ninety minutes ago is shown as one hour. *)
Lemma X21_witness_ninety_minutes :
  formatTimeAgo (fun _ => "a date") 5400000 (Some 0%Z) = "1h ago".
Proof.
  destruct (X21_formatTimeAgo_buckets (fun _ => "a date") 5400000 0)
    as (_ & _ & Hhours & _).
  destruct (Hhours ltac:(lia)) as (Hlabel & _).
  exact Hlabel.
Defined.

(** ** The trip routes and their notifications *)

(** What [notifyTripJoin] and [notifyTripLeave] store when the trip
    and its organizer are found and the insert goes through. *)
Lemma notifyTripJoin_stores (env : Env) (tid : ObjectId) (name : string)
    (uid : ObjectId) (trip : Trip) (org : User) (w : World) :
  fails env OpTripFind (ticks w) = false ->
  find (fun t => trip_id t =? tid) (trips w) = Some trip ->
  find (fun u => user_id u =? trip_organizerId trip) (users w) = Some org ->
  fails env OpNotificationCreate (S (ticks w)) = false ->
  exists n w',
    notifyTripJoin env tid name uid w = (Ok tt, w')
    /\ map modulo_mirror (notifications w')
       = map modulo_mirror (notifications w ++ [n])
    /\ userId n = user_id org /\ type n = trip_join
    /\ message n = join_message name trip.
Proof.
  intros Hf Ht Ho Hi.
  unfold notifyTripJoin, notifyTripJoin_try, try_catch, bind.
  rewrite Trip_findById_populate_run, Hf, Ht, Ho.
  match goal with
  | |- context [createNotification env ?d (tick w)] =>
      destruct (createNotification_stores env d (tick w))
        as (w' & Hrun & Hmm & _);
      [split; [reflexivity | apply join_message_required] | exact Hi |];
      rewrite Hrun; exists (new_document env d (tick w)), w'
  end.
  unfold ret. repeat split. exact Hmm.
Qed.

Lemma notifyTripLeave_stores (env : Env) (tid : ObjectId) (name : string)
    (uid : ObjectId) (trip : Trip) (org : User) (w : World) :
  fails env OpTripFind (ticks w) = false ->
  find (fun t => trip_id t =? tid) (trips w) = Some trip ->
  find (fun u => user_id u =? trip_organizerId trip) (users w) = Some org ->
  fails env OpNotificationCreate (S (ticks w)) = false ->
  exists n w',
    notifyTripLeave env tid name uid w = (Ok tt, w')
    /\ map modulo_mirror (notifications w')
       = map modulo_mirror (notifications w ++ [n])
    /\ userId n = user_id org /\ type n = trip_leave
    /\ message n = leave_message name trip.
Proof.
  intros Hf Ht Ho Hi.
  unfold notifyTripLeave, notifyTripLeave_try, try_catch, bind.
  rewrite Trip_findById_populate_run, Hf, Ht, Ho.
  match goal with
  | |- context [createNotification env ?d (tick w)] =>
      destruct (createNotification_stores env d (tick w))
        as (w' & Hrun & Hmm & _);
      [split; [reflexivity | apply leave_message_required] | exact Hi |];
      rewrite Hrun; exists (new_document env d (tick w)), w'
  end.
  unfold ret. repeat split. exact Hmm.
Qed.

(** X22.  The organizer is told the participant count as it is after
    the change.  The join and leave routes save the trip first and the
    builder reads it back, so when nothing fails a granted join stores
    one [trip_join] notification for the organizer whose message
    counts the traveler in, and a granted leave one [trip_leave]
    notification whose message counts the traveler out; the message
    names the traveler by the name stored for the caller. *)
Theorem X22_organizer_is_told_the_new_count
    (env : Env) (uid : ObjectId) (param : string) (id : ObjectId)
    (trip : Trip) (tr org : User) (w : World) :
  parseObjectId env param = Some id ->
  find (fun t => trip_id t =? id) (trips w) = Some trip ->
  find (fun u => user_id u =? uid) (users w) = Some tr ->
  find (fun u => user_id u =? trip_organizerId trip) (users w) = Some org ->
  fails env OpTripFind (ticks w) = false ->
  fails env OpUserFind (S (ticks w)) = false ->
  fails env OpTripSave (S (S (ticks w))) = false ->
  fails env OpTripFind (S (S (S (ticks w)))) = false ->
  fails env OpNotificationCreate (S (S (S (S (ticks w))))) = false ->
  (length (trip_participants trip) < trip_capacity trip ->
   ~ In uid (trip_participants trip) ->
   exists n w',
     route_trip_join env uid param w
     = (Ok (joined_response (joined_by uid trip)), w')
     /\ map modulo_mirror (notifications w')
        = map modulo_mirror (notifications w ++ [n])
     /\ userId n = user_id org /\ type n = trip_join
     /\ message n = join_message (user_name tr) (joined_by uid trip)
     /\ length (trip_participants (joined_by uid trip))
        = S (length (trip_participants trip)))
  /\ (In uid (trip_participants trip) ->
      exists n w',
        route_trip_leave env uid param w
        = (Ok (left_response (left_by uid trip)), w')
        /\ map modulo_mirror (notifications w')
           = map modulo_mirror (notifications w ++ [n])
        /\ userId n = user_id org /\ type n = trip_leave
        /\ message n = leave_message (user_name tr) (left_by uid trip)
        /\ length (trip_participants (left_by uid trip))
           < length (trip_participants trip)).
Proof.
  intros Hp Ht Hu Ho Hf1 Hf2 Hf3 Hf4 Hf5.
  assert (Hid : trip_id trip = id).
  { apply find_some in Ht. destruct Ht as [_ He]. now apply Nat.eqb_eq in He. }
  assert (Hself : (trip_id trip =? trip_id trip) = true)
    by apply Nat.eqb_refl.
  split.
  - intros Hcap Hnew.
    rewrite route_trip_join_run. cbv zeta. rewrite Hp, Hf1, Ht.
    assert (Hfull : (trip_capacity trip <=? length (trip_participants trip))
                    = false) by (apply Nat.leb_gt; exact Hcap).
    assert (Hmem : existsb (Nat.eqb uid) (trip_participants trip) = false).
    { destruct (existsb (Nat.eqb uid) (trip_participants trip)) eqn:He;
        [|reflexivity].
      apply member_iff in He. contradiction. }
    rewrite Hfull, Hmem, Hf2, Hu, Hf3.
    destruct (notifyTripJoin_stores env (trip_id trip) (user_name tr) uid
                (joined_by uid trip) org
                (set_trips
                   (update_first (fun t => trip_id t =? trip_id trip)
                      (fun _ => joined_by uid trip) (trips w))
                   (tick (tick (tick w)))))
      as (n & w' & Hrun & Hn & Hto & Hty & Hmsg).
    + exact Hf4.
    + cbn [trips set_trips]. apply find_update_first with (a := trip).
      * rewrite Hid. exact Ht.
      * exact Hself.
    + exact Ho.
    + exact Hf5.
    + exists n, w'. rewrite Hrun. split; [reflexivity|].
      split; [exact Hn|]. split; [exact Hto|]. split; [exact Hty|].
      split; [exact Hmsg|].
      unfold joined_by. cbn [trip_participants with_participants].
      rewrite length_app. cbn [length]. lia.
  - intros Hin.
    rewrite route_trip_leave_run. cbv zeta. rewrite Hp, Hf1, Ht.
    assert (Hmem : existsb (Nat.eqb uid) (trip_participants trip) = true)
      by (now apply member_iff).
    rewrite Hmem. cbn [negb]. rewrite Hf2, Hu, Hf3.
    destruct (notifyTripLeave_stores env (trip_id trip) (user_name tr) uid
                (left_by uid trip) org
                (set_trips
                   (update_first (fun t => trip_id t =? trip_id trip)
                      (fun _ => left_by uid trip) (trips w))
                   (tick (tick (tick w)))))
      as (n & w' & Hrun & Hn & Hto & Hty & Hmsg).
    + exact Hf4.
    + cbn [trips set_trips]. apply find_update_first with (a := trip).
      * rewrite Hid. exact Ht.
      * exact Hself.
    + exact Ho.
    + exact Hf5.
    + exists n, w'. rewrite Hrun. split; [reflexivity|].
      split; [exact Hn|]. split; [exact Hto|]. split; [exact Hty|].
      split; [exact Hmsg|].
      unfold left_by. cbn [trip_participants with_participants].
      clear - Hin. induction (trip_participants trip) as [|p ps IH];
        [contradiction|].
      cbn [filter length]. destruct (p =? uid) eqn:Hp; cbn [negb length].
      * apply Nat.lt_succ_r. apply filter_length_le.
      * destruct Hin as [->|Hin]; [rewrite Nat.eqb_refl in Hp; discriminate|].
        apply -> Nat.succ_lt_mono. exact (IH Hin).
Qed.

(** Dov (5) joins the Alps trip, which had three participants: Olga
    (1) is told of four. *)
Lemma X22_witness_dov_joins :
  let env := sample_env false no_faults in
  let w := sample_world [] in
  exists n w',
    route_trip_join env 5 "100" w
    = (Ok (joined_response (joined_by 5 alps)), w')
    /\ userId n = 1
    /\ message n
       = "Dov has joined your trip " ++ dquote ++ "Alps" ++ dquote
         ++ ". You now have 4 participants.".
Proof.
  intros env w.
  destruct (X22_organizer_is_told_the_new_count env 5 "100" 100 alps
              (sample_user 5 "Dov") (sample_user 1 "Olga") w
              eq_refl eq_refl eq_refl eq_refl eq_refl eq_refl eq_refl
              eq_refl eq_refl) as (Hjoin & _).
  destruct Hjoin as (n & w' & Hrun & _ & Hto & _ & Hmsg & _).
  - cbn. lia.
  - cbn. intuition discriminate.
  - exists n, w'. split; [exact Hrun|]. split; [exact Hto|]. exact Hmsg.
Defined.

(** ** The client's bookkeeping *)

Lemma filter_disjoint_length {A : Type} (f g : A -> bool) (l : list A) :
  (forall a, In a l -> f a && g a = false) ->
  length (filter (fun a => f a || g a) l)
  = length (filter f l) + length (filter g l).
Proof.
  induction l as [|a l IH]; intros Hd; [reflexivity|].
  cbn [filter]. specialize (IH (fun b Hb => Hd b (or_intror Hb))).
  pose proof (Hd a (or_introl eq_refl)) as Ha.
  destruct (f a), (g a); try discriminate; cbn [orb length]; lia.
Qed.

Lemma filter_split_length {A : Type} (p q : A -> bool) (l : list A) :
  length (filter q l)
  = length (filter q (filter (fun a => negb (p a)) l))
    + length (filter (fun a => p a && q a) l).
Proof.
  induction l as [|a l IH]; [reflexivity|].
  cbn [filter]. destruct (p a) eqn:Hp, (q a) eqn:Hq;
    cbn [negb andb filter length]; rewrite ?Hq; cbn [length]; lia.
Qed.

Lemma has_id_listed (i : string) (n : Client.Notification)
    (l : list Client.Notification) :
  In n l -> Client.has_id i n = true -> In i (listed_ids l).
Proof.
  intros Hin Hid. unfold listed_ids. apply in_flat_map. exists n.
  split; [exact Hin|]. unfold Client.has_id in Hid.
  destruct (Client._id n) as [j|]; [|discriminate].
  apply String.eqb_eq in Hid. subst j. now left.
Qed.

(** With distinct ids, the listed notifications with a given id are
    the one [find] returns. *)
Lemma listed_once (i : string) (q : Client.Notification -> bool)
    (l : list Client.Notification) :
  NoDup (listed_ids l) ->
  length (filter (fun n => Client.has_id i n && q n) l)
  = match find (Client.has_id i) l with
    | Some n => if q n then 1 else 0
    | None => 0
    end.
Proof.
  induction l as [|a l IH]; intros Hnd; [reflexivity|].
  cbn [filter find]. destruct (Client.has_id i a) eqn:Ha.
  - assert (Hnone : filter (fun n => Client.has_id i n && q n) l = []).
    { apply filter_none. intros n Hn.
      destruct (Client.has_id i n) eqn:Hni; [|reflexivity].
      exfalso. pose proof (has_id_listed i n l Hn Hni) as Hin.
      unfold Client.has_id in Ha. unfold listed_ids in Hnd.
      cbn [flat_map] in Hnd.
      destruct (Client._id a) as [j|]; [|discriminate].
      apply String.eqb_eq in Ha. subst j. cbn [app] in Hnd.
      inversion Hnd as [|? ? Hnotin _]. now apply Hnotin. }
    cbn [andb]. destruct (q a); cbn [length]; now rewrite Hnone.
  - cbn [andb]. apply IH. unfold listed_ids in Hnd. cbn [flat_map] in Hnd.
    destruct (Client._id a); [|exact Hnd].
    cbn [app] in Hnd. now inversion Hnd.
Qed.

Lemma includes_cons (i : string) (ids : list string) (n : Client.Notification) :
  Client.includes (i :: ids) n = Client.has_id i n || Client.includes ids n.
Proof.
  unfold Client.includes, Client.has_id.
  destruct (Client._id n); reflexivity.
Qed.

(** With distinct requested ids and distinct listed ids, the ids
    found unread are as many as the listed unread notifications that
    are requested. *)
Lemma requested_unread (ids : list string) (l : list Client.Notification) :
  NoDup ids -> NoDup (listed_ids l) ->
  length (filter (fun id => match find (Client.has_id id) l with
                            | Some n => Client.not_read n
                            | None => false
                            end) ids)
  = length (filter (fun n => Client.includes ids n && Client.not_read n) l).
Proof.
  intros Hids Hl. induction Hids as [|i ids Hnotin Hids IH].
  - rewrite (filter_none
               (fun n => Client.includes [] n && Client.not_read n) l);
      [reflexivity|].
    intros n _. unfold Client.includes. destruct (Client._id n); reflexivity.
  - cbn [filter].
    rewrite (filter_ext
               (fun n => Client.includes (i :: ids) n && Client.not_read n)
               (fun n => (Client.has_id i n && Client.not_read n)
                         || (Client.includes ids n && Client.not_read n))).
    2:{ intros n. rewrite includes_cons.
        destruct (Client.has_id i n), (Client.includes ids n),
          (Client.not_read n); reflexivity. }
    rewrite filter_disjoint_length.
    2:{ intros n _. destruct (Client.has_id i n) eqn:Hi; [|reflexivity].
        assert (Hno : Client.includes ids n = false).
        { unfold Client.includes, Client.has_id in *.
          destruct (Client._id n) as [j|]; [|reflexivity].
          apply String.eqb_eq in Hi. subst j.
          destruct (existsb (String.eqb i) ids) eqn:He; [|reflexivity].
          apply existsb_exists in He. destruct He as (x & Hx & Heq).
          apply String.eqb_eq in Heq. subst x. contradiction. }
        rewrite Hno. destruct (Client.not_read n); reflexivity. }
    rewrite (listed_once i Client.not_read l Hl), <- IH.
    destruct (find (Client.has_id i) l) as [n|]; [|reflexivity].
    destruct (Client.not_read n); reflexivity.
Qed.

Lemma with_read_is_read (n : Client.Notification) :
  Client.not_read (Client.with_read n) = false.
Proof. reflexivity. Qed.

Lemma marked_unread (ids : list string) (l : list Client.Notification) :
  length (filter Client.not_read
            (map (fun n => if Client.includes ids n
                           then Client.with_read n else n) l))
  + length (filter (fun n => Client.includes ids n && Client.not_read n) l)
  = length (filter Client.not_read l).
Proof.
  induction l as [|n l IH]; [reflexivity|].
  cbn [map filter]. destruct (Client.includes ids n).
  - rewrite with_read_is_read. cbn [andb].
    destruct (Client.not_read n); cbn [length]; lia.
  - cbn [andb]. destruct (Client.not_read n); cbn [length]; lia.
Qed.

(** X23.  The client's counter moves with its list.  As long as the
    listed notifications have distinct ids and the counter is at least
    the number of unread notifications listed, each local update that
    reads the current list keeps the difference between the two: a
    pushed notification adds one to both, marking distinct ids as read
    and deleting a notification take from the counter exactly the
    unread notifications that leave the list's unread ones; marking
    everything read sets both to 0; and an action whose request did
    not resolve changes nothing. *)
Theorem X23_client_counter_moves_with_its_list (st : Client.State) :
  NoDup (listed_ids (Client.notifications st)) ->
  (listed_unread st <= Client.unreadCount st)%Z ->
  (forall e,
      unlisted_unread (Client.on_new_notification e st) = unlisted_unread st)
  /\ (forall ids,
        NoDup ids ->
        unlisted_unread
          (Client.markAsRead true (Client.notifications st) ids st)
        = unlisted_unread st)
  /\ (forall id,
        unlisted_unread
          (Client.deleteNotification true (Client.notifications st) id st)
        = unlisted_unread st)
  /\ (Client.unreadCount (Client.markAllAsRead true st) = 0%Z
      /\ listed_unread (Client.markAllAsRead true st) = 0%Z)
  /\ (forall seen ids id,
        Client.markAsRead false seen ids st = st
        /\ Client.deleteNotification false seen id st = st
        /\ Client.markAllAsRead false st = st).
Proof.
  intros Hnd Hle. unfold unlisted_unread, listed_unread in *.
  split; [|split; [|split; [|split]]].
  - intros e. cbn [Client.on_new_notification Client.notifications
                   Client.unreadCount filter].
    change (Client.not_read (Client.received e)) with true. cbn [length]. lia.
  - intros ids Hids.
    cbn [Client.markAsRead Client.notifications Client.unreadCount].
    rewrite (requested_unread ids (Client.notifications st) Hids Hnd).
    pose proof (marked_unread ids (Client.notifications st)). lia.
  - intros id.
    cbn [Client.deleteNotification Client.notifications Client.unreadCount].
    pose proof (filter_split_length (Client.has_id id) Client.not_read
                  (Client.notifications st)) as Hsplit.
    rewrite (listed_once id Client.not_read (Client.notifications st) Hnd)
      in Hsplit.
    destruct (find (Client.has_id id) (Client.notifications st)) as [n|];
      [destruct (Client.not_read n)|]; lia.
  - split; [reflexivity|].
    cbn [Client.markAllAsRead Client.notifications].
    rewrite filter_none; [reflexivity|].
    intros n Hn. apply in_map_iff in Hn. destruct Hn as (m & <- & _).
    reflexivity.
  - intros seen ids id. repeat split.
Qed.

(** The sample client marks "a" as read: the counter goes from 5 to 4
    and no listed notification is unread. *)
Lemma X23_witness_mark_one :
  let st' := Client.markAsRead true (Client.notifications sample_client)
               ["a"] sample_client in
  NoDup (listed_ids (Client.notifications sample_client))
  /\ (listed_unread sample_client <= Client.unreadCount sample_client)%Z
  /\ NoDup ["a"]
  /\ unlisted_unread st' = 4%Z
  /\ Client.unreadCount st' = 4%Z.
Proof.
  intros st'.
  assert (Hnd : NoDup (listed_ids (Client.notifications sample_client))).
  { cbn. repeat (constructor; [simpl; intuition discriminate|]). constructor. }
  assert (Hle : (listed_unread sample_client
                 <= Client.unreadCount sample_client)%Z)
    by (vm_compute; discriminate).
  assert (Hids : NoDup ["a"]).
  { constructor; [simpl; tauto | constructor]. }
  split; [exact Hnd|]. split; [exact Hle|]. split; [exact Hids|].
  destruct (X23_client_counter_moves_with_its_list sample_client Hnd Hle)
    as (_ & Hmark & _).
  split; [|reflexivity].
  subst st'. rewrite (Hmark ["a"] Hids). reflexivity.
Defined.

(** X24.  A pushed notification cannot be addressed by the client.
    The server pushes the document's id as [id], the client looks
    notifications up by [_id]; so the object the handler puts in the
    list for a pushed event counts as unread, no id given to
    [markAsRead] or [deleteNotification] matches it, and wherever it
    is in the list it stays there, unread, through both; only marking
    everything read (or fetching the list again) changes it. *)
Theorem X24_pushed_notification_cannot_be_addressed
    (e : SocketEvent) (st : Client.State) :
  In (Client.received e) (Client.notifications st) ->
  Client.not_read (Client.received e) = true
  /\ (forall e0, In (Client.received e)
                    (Client.notifications (Client.on_new_notification e0 st))
                 /\ In (Client.received e0)
                       (Client.notifications
                          (Client.on_new_notification e0 st)))
  /\ (forall resolved seen ids,
        In (Client.received e)
           (Client.notifications (Client.markAsRead resolved seen ids st)))
  /\ (forall resolved seen id,
        In (Client.received e)
           (Client.notifications
              (Client.deleteNotification resolved seen id st)))
  /\ (forall n, In n (Client.notifications (Client.markAllAsRead true st)) ->
                Client.not_read n = false).
Proof.
  intros Hin. split; [reflexivity|]. split; [|split; [|split]].
  - intros e0. split; [now right | now left].
  - intros [|] seen ids; [|exact Hin].
    cbn [Client.markAsRead Client.notifications].
    apply in_map_iff. exists (Client.received e). split; [|exact Hin].
    reflexivity.
  - intros [|] seen id; [|exact Hin].
    cbn [Client.deleteNotification Client.notifications].
    apply filter_In. split; [exact Hin | reflexivity].
  - intros n Hn. cbn [Client.markAllAsRead Client.notifications] in Hn.
    apply in_map_iff in Hn. destruct Hn as (m & <- & _). reflexivity.
Qed.

(** The event pushed for a stored notification of recipient 2, then a
    request to mark the notification's id as read. *)
Lemma X24_witness_pushed_then_marked :
  let e := socket_payload (sample_notification 1 2 false) in
  let st := Client.on_new_notification e sample_client in
  In (Client.received e) (Client.notifications st)
  /\ In (Client.received e)
        (Client.notifications
           (Client.markAsRead true (Client.notifications st) ["1"] st))
  /\ Client.unreadCount
       (Client.markAsRead true (Client.notifications st) ["1"] st) = 6%Z.
Proof.
  intros e st.
  assert (Hin : In (Client.received e) (Client.notifications st))
    by now left.
  split; [exact Hin|].
  destruct (X24_pushed_notification_cannot_be_addressed e st Hin)
    as (_ & _ & Hmark & _).
  split; [apply Hmark | reflexivity].
Defined.
